(** * autofee: the bill calculator and its database client

    A shallow embedding of [src/database/Database.ts],
    [src/services/BillCalculator.ts], [src/utils/sampleData.ts] and of the two
    calculation handlers of [src/components] ([handleCalculate] of
    BillCalculationForm, [handleCalculateBills] of BillManagement).

    - A JavaScript [number] is an IEEE-754 binary64 value: the instance
      [binary64] interprets the arithmetic of the source with Rocq's primitive
      floats, [Math.max] and [Math.round] being written out from their
      ECMAScript definitions.  The same code is also read over the exact
      rationals (instance [exact]) to state what the allocation does when no
      rounding error is involved.
    - The [Database] class holds [db : SqlDatabase | null]; every method
      throws ["Database not initialized"] on [null].  The methods live in a
      small state-and-exception monad over that field.
    - The handlers of the other components that write or read the database
      ([UnitManagement], [MeterReadingForm], the readings of
      [BillManagement], the range of months of [BillOutput]) follow, over
      any [parseFloat].
    - A table is the list of its rows in insertion order; [INSERT OR REPLACE]
      deletes the rows that conflict on the table's unique key and appends
      the new row.  The engine-assigned columns [id] and [created_at]
      (optional in the TypeScript interfaces, never read by the calculator)
      and the copy of the store kept in local storage are left out. *)

From Stdlib Require Import ZArith QArith Qpower Qround Floats String List.
From Stdlib Require Import Bool Lia Lqa.
From Stdlib Require Import Sorting.Permutation Sorting.Sorted.
Import ListNotations.

Set Implicit Arguments.

(** ** JavaScript numbers *)

Module JS.

(** The operations on [number] that the source uses. *)
Class Number (num : Type) : Type := {
  of_Z : Z -> num;                 (* an integer literal *)
  add : num -> num -> num;         (* a + b *)
  sub : num -> num -> num;         (* a - b *)
  mul : num -> num -> num;         (* a * b *)
  div : num -> num -> num;         (* a / b *)
  lt : num -> num -> bool;         (* a < b *)
  isNaN : num -> bool;             (* isNaN(a) *)
  Math_max : num -> num -> num;    (* Math.max(a, b) *)
  Math_round : num -> num          (* Math.round(a) *)
}.

(** [a > b] is [b < a]; a number is truthy unless it is [0], [-0] or [NaN]. *)
Definition gt {num} `{Number num} (a b : num) : bool := lt b a.
Definition truthy {num} `{Number num} (a : num) : bool :=
  lt a (of_Z 0) || lt (of_Z 0) a.

(** [a || b] on numbers. *)
Definition or_else {num} `{Number num} (a b : num) : num :=
  if truthy a then a else b.

End JS.

(** *** binary64 *)

Module Binary64.

Local Open Scope float_scope.

Definition float_of_Z (z : Z) : float :=
  if (z <? 0)%Z then - of_uint63 (Uint63.of_Z (- z))
  else of_uint63 (Uint63.of_Z z).

(** [Math.max(a, b)]: [NaN] when either argument is; [+0] is larger than
    [-0]. *)
Definition Math_max (a b : float) : float :=
  if is_nan a || is_nan b then nan
  else if a <? b then b
  else if b <? a then a
  else if get_sign a then b else a.

(** [Math.round(x)]: [x] itself when it is not finite or already integral;
    otherwise the integer closest to [x], the one nearer to +infinity on a
    tie, that is [floor(x + 1/2)] computed exactly; the result is [-0] for
    [-0.5 <= x < 0].  With [Prim2SF x = S754_finite s m e], [x] is
    [(-1)^s * m * 2^e]. *)
Definition Math_round (x : float) : float :=
  match Prim2SF x with
  | S754_finite s m e =>
      if (0 <=? e)%Z then x
      else
        let d := (2 ^ (- e))%Z in
        let n := if s then Z.neg m else Z.pos m in
        let r := ((2 * n + d) / (2 * d))%Z in
        if (r =? 0)%Z then (if s then neg_zero else zero)
        else float_of_Z r
  | _ => x
  end.

#[global] Instance binary64 : JS.Number float := {|
  JS.of_Z := float_of_Z;
  JS.add := PrimFloat.add;
  JS.sub := PrimFloat.sub;
  JS.mul := PrimFloat.mul;
  JS.div := PrimFloat.div;
  JS.lt := PrimFloat.ltb;
  JS.isNaN := is_nan;
  JS.Math_max := Math_max;
  JS.Math_round := Math_round
|}.

End Binary64.

(** *** Exact rational arithmetic *)

Module Exact.

Local Open Scope Q_scope.

Definition Qltb (a b : Q) : bool := negb (Qle_bool b a).

Definition Math_max (a b : Q) : Q := if Qle_bool a b then b else a.

(** The integer closest to [x], the larger one on a tie. *)
Definition Math_round (x : Q) : Q := inject_Z (Qfloor (x + (1 # 2))).

#[global] Instance exact : JS.Number Q := {|
  JS.of_Z := inject_Z;
  JS.add := Qplus;
  JS.sub := Qminus;
  JS.mul := Qmult;
  JS.div := Qdiv;
  JS.lt := Qltb;
  JS.isNaN := fun _ => false;
  JS.Math_max := Math_max;
  JS.Math_round := Math_round
|}.

End Exact.

(** ** The tables of [Database.ts] *)

(** [interface Unit]. *)
Module Unit.
Record t (num : Type) : Type := mk {
  id : string;
  name : string;
  area : num
}.
End Unit.

(** [interface MeterReading]. *)
Module MeterReading.
Record t (num : Type) : Type := mk {
  unit_id : string;
  year : Z;
  month : Z;
  electricity_reading : num;
  water_reading : num
}.
End MeterReading.

(** [interface MonthlyBill]. *)
Module MonthlyBill.
Record t (num : Type) : Type := mk {
  year : Z;
  month : Z;
  total_electricity_cost : num;
  total_water_cost : num;
  total_management_cost : num
}.
End MonthlyBill.

(** [interface UnitBill]. *)
Module UnitBill.
Record t (num : Type) : Type := mk {
  unit_id : string;
  year : Z;
  month : Z;
  electricity_cost : num;
  water_cost : num;
  management_cost : num;
  total_cost : num
}.
End UnitBill.

(** The four tables created by [createTables]. *)
Record SqlDatabase (num : Type) : Type := mkSql {
  units : list (Unit.t num);
  meter_readings : list (MeterReading.t num);
  monthly_bills : list (MonthlyBill.t num);
  unit_bills : list (UnitBill.t num)
}.

(** The state of a [Database] object: its field [db : SqlDatabase | null]. *)
Definition Database (num : Type) : Type := option (SqlDatabase num).

(** ** Statements that read and write [this.db], and may throw *)

Definition Error : Type := string.

Inductive completion (A : Type) : Type :=
| Normal (a : A)
| Thrown (e : Error).

Arguments Thrown {A} e.

Definition M (num A : Type) : Type :=
  Database num -> completion A * Database num.

Definition ret {num A} (a : A) : M num A := fun d => (Normal a, d).

Definition bind {num A B} (c : M num A) (k : A -> M num B) : M num B :=
  fun d =>
    match c d with
    | (Normal a, d') => k a d'
    | (Thrown e, d') => (Thrown e, d')
    end.

Definition throw {num A} (e : Error) : M num A := fun d => (Thrown e, d).

(** [try { body } catch { handler }]. *)
Definition try_catch {num A} (body : M num A) (handler : Error -> M num A)
  : M num A :=
  fun d =>
    match body d with
    | (Normal a, d') => (Normal a, d')
    | (Thrown e, d') => handler e d'
    end.

Declare Scope js_monad_scope.
Delimit Scope js_monad_scope with js_monad.
Notation "x <- c ;; k" := (bind c (fun x => k))
  (at level 61, c at next level, right associativity) : js_monad_scope.
Notation "c ;; k" := (bind c (fun _ => k))
  (at level 61, right associativity) : js_monad_scope.

Declare Scope js_scope.
Delimit Scope js_scope with js.
Infix "+" := JS.add : js_scope.
Infix "-" := JS.sub : js_scope.
Infix "*" := JS.mul : js_scope.
Infix "/" := JS.div : js_scope.
Infix ">" := JS.gt : js_scope.
Infix "<" := JS.lt : js_scope.

Section DatabaseMethods.

Context {num : Type} `{JS.Number num}.

Local Open Scope js_monad_scope.
Local Open Scope string_scope.

(** [if (!this.db) throw new Error('Database not initialized')], then the
    handle. *)
Definition the_db : M num (SqlDatabase num) :=
  fun d =>
    match d with
    | Some s => ret s d
    | None => throw "Database not initialized" d
    end.

Definition set_db (s : SqlDatabase num) : M num unit :=
  fun _ => (Normal tt, Some s).

(** [INSERT OR REPLACE]: the rows in conflict with [row] go, [row] is
    appended. *)
Definition insert_or_replace {R : Type} (conflict : R -> R -> bool)
    (row : R) (table : list R) : list R :=
  filter (fun r => negb (conflict r row)) table ++ [row].

(** [units.id] is the primary key. *)
Definition unit_conflict (a b : Unit.t num) : bool :=
  (Unit.id a =? Unit.id b)%string.

(** [UNIQUE(unit_id, year, month)] of [meter_readings]. *)
Definition reading_conflict (a b : MeterReading.t num) : bool :=
  (MeterReading.unit_id a =? MeterReading.unit_id b)%string
  && (MeterReading.year a =? MeterReading.year b)%Z
  && (MeterReading.month a =? MeterReading.month b)%Z.

(** [UNIQUE(year, month)] of [monthly_bills]. *)
Definition monthly_bill_conflict (a b : MonthlyBill.t num) : bool :=
  (MonthlyBill.year a =? MonthlyBill.year b)%Z
  && (MonthlyBill.month a =? MonthlyBill.month b)%Z.

(** [UNIQUE(unit_id, year, month)] of [unit_bills]. *)
Definition unit_bill_conflict (a b : UnitBill.t num) : bool :=
  (UnitBill.unit_id a =? UnitBill.unit_id b)%string
  && (UnitBill.year a =? UnitBill.year b)%Z
  && (UnitBill.month a =? UnitBill.month b)%Z.

(** [new SQL.Database()]: an engine with nothing in it. *)
Definition new_SqlDatabase : SqlDatabase num :=
  {| units := []; meter_readings := []; monthly_bills := [];
     unit_bills := [] |}.

(** [createTables]: [CREATE TABLE IF NOT EXISTS] leaves the rows alone. *)
Definition createTables : M num unit :=
  s <- the_db ;;
  set_db s.

Definition insertDefaultData : M num unit :=
  s <- the_db ;;
  set_db
    {| units :=
         insert_or_replace unit_conflict
           (Unit.mk "601B" "601B호" (JS.of_Z 120))
           (insert_or_replace unit_conflict
              (Unit.mk "601A" "601A호" (JS.of_Z 60)) (units s));
       meter_readings := meter_readings s;
       monthly_bills := monthly_bills s;
       unit_bills := unit_bills s |}.

(** [initialize], once the engine is loaded. *)
Definition initialize : M num unit :=
  set_db new_SqlDatabase ;;
  createTables ;;
  insertDefaultData.

Definition saveMeterReading (reading : MeterReading.t num) : M num unit :=
  s <- the_db ;;
  set_db
    {| units := units s;
       meter_readings :=
         insert_or_replace reading_conflict reading (meter_readings s);
       monthly_bills := monthly_bills s;
       unit_bills := unit_bills s |}.

Definition saveMonthlyBill (bill : MonthlyBill.t num) : M num unit :=
  s <- the_db ;;
  set_db
    {| units := units s;
       meter_readings := meter_readings s;
       monthly_bills :=
         insert_or_replace monthly_bill_conflict bill (monthly_bills s);
       unit_bills := unit_bills s |}.

Definition saveUnitBill (bill : UnitBill.t num) : M num unit :=
  s <- the_db ;;
  set_db
    {| units := units s;
       meter_readings := meter_readings s;
       monthly_bills := monthly_bills s;
       unit_bills :=
         insert_or_replace unit_bill_conflict bill (unit_bills s) |}.

(** [ORDER BY id]: the rows sorted by their text key. *)
Fixpoint insert_by_id (u : Unit.t num) (rows : list (Unit.t num))
  : list (Unit.t num) :=
  match rows with
  | [] => [u]
  | v :: rest =>
      if (Unit.id u <=? Unit.id v)%string then u :: rows
      else v :: insert_by_id u rest
  end.

Definition order_by_id (rows : list (Unit.t num)) : list (Unit.t num) :=
  fold_right insert_by_id [] rows.

Definition getUnits : M num (list (Unit.t num)) :=
  s <- the_db ;;
  ret (order_by_id (units s)).

Definition getMeterReadings (year month : Z)
  : M num (list (MeterReading.t num)) :=
  s <- the_db ;;
  ret (filter
         (fun r => (MeterReading.year r =? year)%Z
                   && (MeterReading.month r =? month)%Z)
         (meter_readings s)).

(** The row of the month before [(year, month)], if there is one. *)
Definition getPreviousMonthReading (unitId : string) (year month : Z)
  : M num (option (MeterReading.t num)) :=
  s <- the_db ;;
  let prevYear := year in
  let prevMonth := (month - 1)%Z in
  let '(prevYear, prevMonth) :=
    if (prevMonth =? 0)%Z then ((year - 1)%Z, 12%Z)
    else (prevYear, prevMonth) in
  ret (find
         (fun r => (MeterReading.unit_id r =? unitId)%string
                   && (MeterReading.year r =? prevYear)%Z
                   && (MeterReading.month r =? prevMonth)%Z)
         (meter_readings s)).


Definition getUnitBills (year month : Z) : M num (list (UnitBill.t num)) :=
  s <- the_db ;;
  ret (filter
         (fun b => (UnitBill.year b =? year)%Z
                   && (UnitBill.month b =? month)%Z)
         (unit_bills s)).

End DatabaseMethods.

(** ** [BillCalculator.ts] *)

(** The object returned by [getUsageDetails]. *)
Record UsageDetails (num : Type) : Type := mkUsageDetails {
  currentElectricity : num;
  previousElectricity : num;
  electricityUsage : num;
  currentWater : num;
  previousWater : num;
  waterUsage : num
}.

Section BillCalculator.

Context {num : Type} `{JS.Number num}.

Local Open Scope js_monad_scope.

(** [currentReadings.find(r => r.unit_id === unitId)]. *)
Definition find_reading (unitId : string)
    (currentReadings : list (MeterReading.t num))
  : option (MeterReading.t num) :=
  find (fun r => (MeterReading.unit_id r =? unitId)%string) currentReadings.

Definition calculateElectricityUsage (currentReading : MeterReading.t num)
    (previousReading : option (MeterReading.t num)) : num :=
  match previousReading with
  | None => JS.of_Z 0
  | Some previousReading =>
      JS.Math_max (JS.of_Z 0)
        (MeterReading.electricity_reading currentReading
         - MeterReading.electricity_reading previousReading)%js
  end.

Definition calculateWaterUsage (currentReading : MeterReading.t num)
    (previousReading : option (MeterReading.t num)) : num :=
  match previousReading with
  | None => JS.of_Z 0
  | Some previousReading =>
      JS.Math_max (JS.of_Z 0)
        (MeterReading.water_reading currentReading
         - MeterReading.water_reading previousReading)%js
  end.

(** The [for (const unit of units)] loop of
    [calculateTotalElectricityUsage], from the running [totalUsage]. *)
Fixpoint calculateTotalElectricityUsage_for (units : list (Unit.t num))
    (currentReadings : list (MeterReading.t num)) (year month : Z)
    (totalUsage : num) : M num num :=
  match units with
  | [] => ret totalUsage
  | unit :: rest =>
      match find_reading (Unit.id unit) currentReadings with
      | None =>
          calculateTotalElectricityUsage_for rest currentReadings year month
            totalUsage
      | Some currentReading =>
          previousReading <-
            getPreviousMonthReading (Unit.id unit) year month ;;
          let usage :=
            calculateElectricityUsage currentReading previousReading in
          calculateTotalElectricityUsage_for rest currentReadings year month
            (totalUsage + usage)%js
      end
  end.

Definition calculateTotalElectricityUsage (units : list (Unit.t num))
    (currentReadings : list (MeterReading.t num)) (year month : Z)
  : M num num :=
  calculateTotalElectricityUsage_for units currentReadings year month
    (JS.of_Z 0).

Fixpoint calculateTotalWaterUsage_for (units : list (Unit.t num))
    (currentReadings : list (MeterReading.t num)) (year month : Z)
    (totalUsage : num) : M num num :=
  match units with
  | [] => ret totalUsage
  | unit :: rest =>
      match find_reading (Unit.id unit) currentReadings with
      | None =>
          calculateTotalWaterUsage_for rest currentReadings year month
            totalUsage
      | Some currentReading =>
          previousReading <-
            getPreviousMonthReading (Unit.id unit) year month ;;
          let usage := calculateWaterUsage currentReading previousReading in
          calculateTotalWaterUsage_for rest currentReadings year month
            (totalUsage + usage)%js
      end
  end.

Definition calculateTotalWaterUsage (units : list (Unit.t num))
    (currentReadings : list (MeterReading.t num)) (year month : Z)
  : M num num :=
  calculateTotalWaterUsage_for units currentReadings year month (JS.of_Z 0).

(** The bill built in one iteration of the loop of [calculateAndSaveBills]
    (lines 48 to 71). *)
Definition unitBill_of (year month : Z)
    (totalElectricityCost totalWaterCost totalManagementCost : num)
    (totalArea totalElectricityUsage totalWaterUsage : num)
    (unit : Unit.t num) (currentReading : MeterReading.t num)
    (previousReading : option (MeterReading.t num)) : UnitBill.t num :=
  let electricityUsage :=
    calculateElectricityUsage currentReading previousReading in
  let electricityCost :=
    if (totalElectricityUsage > JS.of_Z 0)%js
    then ((electricityUsage / totalElectricityUsage)
          * totalElectricityCost)%js
    else JS.of_Z 0 in
  let waterUsage := calculateWaterUsage currentReading previousReading in
  let waterCost :=
    if (totalWaterUsage > JS.of_Z 0)%js
    then ((waterUsage / totalWaterUsage) * totalWaterCost)%js
    else JS.of_Z 0 in
  let managementCost :=
    ((Unit.area unit / totalArea) * totalManagementCost)%js in
  {| UnitBill.unit_id := Unit.id unit;
     UnitBill.year := year;
     UnitBill.month := month;
     UnitBill.electricity_cost := JS.Math_round electricityCost;
     UnitBill.water_cost := JS.Math_round waterCost;
     UnitBill.management_cost := JS.Math_round managementCost;
     UnitBill.total_cost :=
       JS.Math_round (electricityCost + waterCost + managementCost)%js |}.

(** The [for (const unit of units)] loop of [calculateAndSaveBills], from
    the [unitBills] pushed so far. *)
Fixpoint calculateAndSaveBills_for (units : list (Unit.t num))
    (currentReadings : list (MeterReading.t num)) (year month : Z)
    (totalElectricityCost totalWaterCost totalManagementCost : num)
    (totalArea totalElectricityUsage totalWaterUsage : num)
    (unitBills : list (UnitBill.t num)) : M num (list (UnitBill.t num)) :=
  match units with
  | [] => ret unitBills
  | unit :: rest =>
      match find_reading (Unit.id unit) currentReadings with
      | None =>
          calculateAndSaveBills_for rest currentReadings year month
            totalElectricityCost totalWaterCost totalManagementCost
            totalArea totalElectricityUsage totalWaterUsage unitBills
      | Some currentReading =>
          previousReading <-
            getPreviousMonthReading (Unit.id unit) year month ;;
          let unitBill :=
            unitBill_of year month
              totalElectricityCost totalWaterCost totalManagementCost
              totalArea totalElectricityUsage totalWaterUsage
              unit currentReading previousReading in
          saveUnitBill unitBill ;;
          calculateAndSaveBills_for rest currentReadings year month
            totalElectricityCost totalWaterCost totalManagementCost
            totalArea totalElectricityUsage totalWaterUsage
            (unitBills ++ [unitBill])
      end
  end.

Definition calculateAndSaveBills (year month : Z)
    (totalElectricityCost totalWaterCost totalManagementCost : num)
  : M num (list (UnitBill.t num)) :=
  let monthlyBill :=
    {| MonthlyBill.year := year;
       MonthlyBill.month := month;
       MonthlyBill.total_electricity_cost := totalElectricityCost;
       MonthlyBill.total_water_cost := totalWaterCost;
       MonthlyBill.total_management_cost := totalManagementCost |} in
  saveMonthlyBill monthlyBill ;;
  units <- getUnits ;;
  currentReadings <- getMeterReadings year month ;;
  let totalArea :=
    fold_left (fun sum unit => (sum + Unit.area unit)%js) units
      (JS.of_Z 0) in
  totalElectricityUsage <-
    calculateTotalElectricityUsage units currentReadings year month ;;
  totalWaterUsage <-
    calculateTotalWaterUsage units currentReadings year month ;;
  calculateAndSaveBills_for units currentReadings year month
    totalElectricityCost totalWaterCost totalManagementCost
    totalArea totalElectricityUsage totalWaterUsage [].

(** [previousReading?.field || 0]. *)
Definition previous_or_0 (field : MeterReading.t num -> num)
    (previousReading : option (MeterReading.t num)) : num :=
  match previousReading with
  | None => JS.of_Z 0
  | Some p => JS.or_else (field p) (JS.of_Z 0)
  end.

Definition getUsageDetails (unitId : string) (year month : Z)
  : M num (option (UsageDetails num)) :=
  readings <- getMeterReadings year month ;;
  let currentReading := find_reading unitId readings in
  previousReading <- getPreviousMonthReading unitId year month ;;
  match currentReading with
  | None => ret None
  | Some currentReading =>
      ret (Some
        {| currentElectricity :=
             MeterReading.electricity_reading currentReading;
           previousElectricity :=
             previous_or_0 (@MeterReading.electricity_reading num)
               previousReading;
           electricityUsage :=
             calculateElectricityUsage currentReading previousReading;
           currentWater := MeterReading.water_reading currentReading;
           previousWater :=
             previous_or_0 (@MeterReading.water_reading num)
               previousReading;
           waterUsage :=
             calculateWaterUsage currentReading previousReading |})
  end.

End BillCalculator.

(** ** The calculation handlers of the two forms *)

Inductive MessageType : Type := success | error | info.

(** The texts shown by the handlers, by what they say. *)
Inductive MessageText : Type :=
| InvalidAmount                      (* an amount is not a number *)
| NegativeAmount                     (* an amount is below 0 *)
| FeeBelowUtilities                  (* total fee < electricity + water *)
| ReadingsMissing (year month : Z)   (* no reading entered for the month *)
| BillsSaved (year month : Z)        (* calculated and saved *)
| CalculationFailed.                 (* the catch clause *)

Record Message : Type := mkMessage {
  type : MessageType;
  text : MessageText
}.

(** The state of [BillCalculationForm] that [handleCalculate] sets. *)
Record BillCalculationFormState (num : Type) : Type := mkFormState {
  form_calculatedBills : list (UnitBill.t num);
  form_message : option Message
}.

(** The state of [BillManagement] that [handleCalculateBills] reads and
    sets. *)
Record BillManagementState (num : Type) : Type := mkManagementState {
  calculatedSharedCost : num;
  calculatedBills : list (UnitBill.t num);
  message : option Message
}.

Section Handlers.

Context {num : Type} `{JS.Number num}.

Local Open Scope js_monad_scope.

(** [handleCalculate]; the three amounts are the results of [parseFloat] on
    the text fields. *)
Definition handleCalculate (selectedYear selectedMonth : Z)
    (electricityCost waterCost managementCost : num)
    (st : BillCalculationFormState num)
  : M num (BillCalculationFormState num) :=
  try_catch
    (if JS.isNaN electricityCost || JS.isNaN waterCost
        || JS.isNaN managementCost
     then ret {| form_calculatedBills := form_calculatedBills st;
                 form_message := Some (mkMessage error InvalidAmount) |}
     else if (electricityCost < JS.of_Z 0)%js
             || (waterCost < JS.of_Z 0)%js
             || (managementCost < JS.of_Z 0)%js
     then ret {| form_calculatedBills := form_calculatedBills st;
                 form_message := Some (mkMessage error NegativeAmount) |}
     else
       meterReadings <- getMeterReadings selectedYear selectedMonth ;;
       if (length meterReadings =? 0)%nat
       then ret {| form_calculatedBills := form_calculatedBills st;
                   form_message :=
                     Some (mkMessage error
                             (ReadingsMissing selectedYear selectedMonth)) |}
       else
         bills <- calculateAndSaveBills selectedYear selectedMonth
                    electricityCost waterCost managementCost ;;
         ret {| form_calculatedBills := bills;
                form_message :=
                  Some (mkMessage success
                          (BillsSaved selectedYear selectedMonth)) |})
    (fun _ =>
       ret {| form_calculatedBills := form_calculatedBills st;
              form_message := Some (mkMessage error CalculationFailed) |}).

(** The effect of [BillManagement] that keeps [calculatedSharedCost]:
    [Math.max(0, totalMgmt - totalElec - totalWater)], each amount being
    [parseFloat(text) || 0]. *)
Definition sharedCost (totalMgmt totalElec totalWater : num) : num :=
  let totalMgmt := JS.or_else totalMgmt (JS.of_Z 0) in
  let totalElec := JS.or_else totalElec (JS.of_Z 0) in
  let totalWater := JS.or_else totalWater (JS.of_Z 0) in
  JS.Math_max (JS.of_Z 0) (totalMgmt - totalElec - totalWater)%js.

Definition set_message (st : BillManagementState num) (m : Message)
  : BillManagementState num :=
  {| calculatedSharedCost := calculatedSharedCost st;
     calculatedBills := calculatedBills st;
     message := Some m |}.

(** [handleCalculateBills]; the three amounts are the results of
    [parseFloat] on the text fields. *)
Definition handleCalculateBills (selectedYear selectedMonth : Z)
    (totalMgmt totalElec totalWater : num) (st : BillManagementState num)
  : M num (BillManagementState num) :=
  try_catch
    (if JS.isNaN totalMgmt || JS.isNaN totalElec || JS.isNaN totalWater
     then ret (set_message st (mkMessage error InvalidAmount))
     else if (totalMgmt < JS.of_Z 0)%js || (totalElec < JS.of_Z 0)%js
             || (totalWater < JS.of_Z 0)%js
     then ret (set_message st (mkMessage error NegativeAmount))
     else if (calculatedSharedCost st < JS.of_Z 0)%js
     then ret (set_message st (mkMessage error FeeBelowUtilities))
     else
       meterReadings <- getMeterReadings selectedYear selectedMonth ;;
       if (length meterReadings =? 0)%nat
       then ret (set_message st
                   (mkMessage error
                      (ReadingsMissing selectedYear selectedMonth)))
       else
         bills <- calculateAndSaveBills selectedYear selectedMonth
                    totalElec totalWater (calculatedSharedCost st) ;;
         ret {| calculatedSharedCost := calculatedSharedCost st;
                calculatedBills := bills;
                message :=
                  Some (mkMessage success
                          (BillsSaved selectedYear selectedMonth)) |})
    (fun _ => ret (set_message st (mkMessage error CalculationFailed))).

End Handlers.

(** ** [sampleData.ts] *)

Module SampleData.

Local Open Scope js_monad_scope.
Local Open Scope string_scope.
Local Open Scope float_scope.

Import Binary64.

(** [array.forEach(f)]. *)
Fixpoint forEach {A : Type} (l : list A) (f : A -> M float unit)
  : M float unit :=
  match l with
  | [] => ret tt
  | x :: rest => f x ;; forEach rest f
  end.

(** The literals [89.7] and [93.36] as the binary64 values they denote. *)
Definition lit_89_7 : float := 0x1.66ccccccccccdp+6.
Definition lit_93_36 : float := 0x1.7570a3d70a3d7p+6.

Definition januaryReadings : list (MeterReading.t float) :=
  [ MeterReading.mk "601A" 2024 1 1923 lit_89_7;
    MeterReading.mk "601B" 2024 1 30635 lit_89_7 ].

Definition februaryReadings : list (MeterReading.t float) :=
  [ MeterReading.mk "601A" 2024 2 2123 lit_93_36;
    MeterReading.mk "601B" 2024 2 30734 lit_93_36 ].

Definition insertSampleData : M float bool :=
  try_catch
    (forEach januaryReadings (fun reading => saveMeterReading reading) ;;
     forEach februaryReadings (fun reading => saveMeterReading reading) ;;
     ret true)
    (fun _ => ret false).

(** [getSampleBillData], with the shared cost of its comment:
    288510 - 47440 - 17440 = 223630. *)
Record SampleBillData : Type := mkSampleBillData {
  year : Z;
  month : Z;
  totalManagementFee : float;
  totalElectricityCost : float;
  totalWaterCost : float
}.

Definition getSampleBillData : SampleBillData :=
  {| year := 2024; month := 2; totalManagementFee := 288510;
     totalElectricityCost := 47440; totalWaterCost := 17440 |}.

End SampleData.

(** ** What the calculator reads and computes, as functions of the tables *)

Section Views.

Context {num : Type} `{JS.Number num}.

Local Open Scope js_monad_scope.

(** The month before [(year, month)]. *)
Definition previous_period (year month : Z) : Z * Z :=
  if (month - 1 =? 0)%Z then ((year - 1)%Z, 12%Z)
  else (year, (month - 1)%Z).

(** The rows that the calculator reads, as functions of the tables. *)
Definition registeredUnits (s : SqlDatabase num) : list (Unit.t num) :=
  order_by_id (units s).

Definition currentReadings_of (rows : list (MeterReading.t num))
    (year month : Z) : list (MeterReading.t num) :=
  filter
    (fun r => (MeterReading.year r =? year)%Z
              && (MeterReading.month r =? month)%Z)
    rows.

Definition previousReading_of (rows : list (MeterReading.t num))
    (unitId : string) (year month : Z) : option (MeterReading.t num) :=
  find
    (fun r => (MeterReading.unit_id r =? unitId)%string
              && (MeterReading.year r =? fst (previous_period year month))%Z
              && (MeterReading.month r =? snd (previous_period year month))%Z)
    rows.

(** The units that are billed, each with its reading of the month: those
    of [units] for which [find_reading] succeeds. *)
Definition billed (units : list (Unit.t num))
    (currentReadings : list (MeterReading.t num))
  : list (Unit.t num * MeterReading.t num) :=
  flat_map
    (fun unit =>
       match find_reading (Unit.id unit) currentReadings with
       | None => []
       | Some currentReading => [(unit, currentReading)]
       end)
    units.

Definition billed_in (s : SqlDatabase num) (year month : Z)
  : list (Unit.t num * MeterReading.t num) :=
  billed (registeredUnits s)
    (currentReadings_of (meter_readings s) year month).

(** The usage of a billed unit. *)
Definition electricityUsage_of (rows : list (MeterReading.t num))
    (year month : Z) (uc : Unit.t num * MeterReading.t num) : num :=
  calculateElectricityUsage (snd uc)
    (previousReading_of rows (Unit.id (fst uc)) year month).

Definition waterUsage_of (rows : list (MeterReading.t num))
    (year month : Z) (uc : Unit.t num * MeterReading.t num) : num :=
  calculateWaterUsage (snd uc)
    (previousReading_of rows (Unit.id (fst uc)) year month).

(** [0 + x1 + ... + xn], added from the left as the loops do. *)
Definition sum_from (start : num) (xs : list num) : num :=
  fold_left JS.add xs start.

Definition sum (xs : list num) : num := sum_from (JS.of_Z 0) xs.

Definition totalArea_of (s : SqlDatabase num) : num :=
  sum (map (@Unit.area num) (registeredUnits s)).

Definition totalElectricityUsage_of (s : SqlDatabase num) (year month : Z)
  : num :=
  sum (map (electricityUsage_of (meter_readings s) year month)
         (billed_in s year month)).

Definition totalWaterUsage_of (s : SqlDatabase num) (year month : Z) : num :=
  sum (map (waterUsage_of (meter_readings s) year month)
         (billed_in s year month)).

(** The amounts before rounding: the locals [electricityCost], [waterCost]
    and [managementCost] of the loop of [calculateAndSaveBills]. *)
Definition share (usage totalUsage totalCost : num) : num :=
  if (totalUsage > JS.of_Z 0)%js then ((usage / totalUsage) * totalCost)%js
  else JS.of_Z 0.

Definition electricityCost_of (s : SqlDatabase num) (year month : Z)
    (totalElectricityCost : num) (uc : Unit.t num * MeterReading.t num)
  : num :=
  share (electricityUsage_of (meter_readings s) year month uc)
    (totalElectricityUsage_of s year month) totalElectricityCost.

Definition waterCost_of (s : SqlDatabase num) (year month : Z)
    (totalWaterCost : num) (uc : Unit.t num * MeterReading.t num) : num :=
  share (waterUsage_of (meter_readings s) year month uc)
    (totalWaterUsage_of s year month) totalWaterCost.

Definition managementCost_of (s : SqlDatabase num)
    (totalManagementCost : num) (uc : Unit.t num * MeterReading.t num)
  : num :=
  ((Unit.area (fst uc) / totalArea_of s) * totalManagementCost)%js.

(** The bill of a billed unit. *)
Definition bill_of (s : SqlDatabase num) (year month : Z)
    (totalElectricityCost totalWaterCost totalManagementCost : num)
    (uc : Unit.t num * MeterReading.t num) : UnitBill.t num :=
  unitBill_of year month
    totalElectricityCost totalWaterCost totalManagementCost
    (totalArea_of s) (totalElectricityUsage_of s year month)
    (totalWaterUsage_of s year month)
    (fst uc) (snd uc)
    (previousReading_of (meter_readings s) (Unit.id (fst uc)) year month).

Definition bills_of (s : SqlDatabase num) (year month : Z)
    (totalElectricityCost totalWaterCost totalManagementCost : num)
  : list (UnitBill.t num) :=
  map (bill_of s year month
         totalElectricityCost totalWaterCost totalManagementCost)
    (billed_in s year month).

(** The rows that none of [rows] replaces. *)
Definition kept {R : Type} (conflict : R -> R -> bool)
    (rows : list R) (r : R) : bool :=
  forallb (fun b => negb (conflict r b)) rows.

(** [rows] saved one after the other into [table]. *)
Definition upsert_all {R : Type} (conflict : R -> R -> bool)
    (rows table : list R) : list R :=
  fold_left (fun t b => insert_or_replace conflict b t) rows table.

(** Rows of which none replaces another. *)
Fixpoint distinct_rows {R : Type} (conflict : R -> R -> bool)
    (rows : list R) : Prop :=
  match rows with
  | [] => True
  | b :: rest => kept conflict rest b = true /\ distinct_rows conflict rest
  end.

(** The store after [calculateAndSaveBills]. *)
Definition save_all (bills : list (UnitBill.t num))
    (table : list (UnitBill.t num)) : list (UnitBill.t num) :=
  upsert_all unit_bill_conflict bills table.

Definition store_after (s : SqlDatabase num) (year month : Z)
    (totalElectricityCost totalWaterCost totalManagementCost : num)
  : SqlDatabase num :=
  {| units := units s;
     meter_readings := meter_readings s;
     monthly_bills :=
       insert_or_replace monthly_bill_conflict
         (MonthlyBill.mk year month
            totalElectricityCost totalWaterCost totalManagementCost)
         (monthly_bills s);
     unit_bills :=
       save_all
         (bills_of s year month
            totalElectricityCost totalWaterCost totalManagementCost)
         (unit_bills s) |}.


(** The unique keys of the tables, as the engine keeps them. *)
Definition unique_rows {R : Type} (conflict : R -> R -> bool)
    (table : list R) : Prop :=
  forall p q, In p table -> In q table -> conflict p q = true -> p = q.

Definition unique_readings (s : SqlDatabase num) : Prop :=
  unique_rows reading_conflict (meter_readings s).

Definition unique_units (s : SqlDatabase num) : Prop :=
  NoDup (map (@Unit.id num) (units s)).

End Views.

(** ** The sample period: February 2024 *)

Module Sample.

Import Binary64 SampleData.
Local Open Scope js_monad_scope.
Local Open Scope string_scope.
Local Open Scope float_scope.

(** A fresh database with the default units 601A (60 m2) and 601B
    (120 m2), the sample readings of January and February 2024, then the
    calculation of February with the totals 47440, 17440 and 223630. *)
Definition sample_run : M float (list (UnitBill.t float)) :=
  initialize ;;
  insertSampleData ;;
  calculateAndSaveBills 2024 2 47440 17440 223630.

Definition bill_601A : UnitBill.t float :=
  {| UnitBill.unit_id := "601A"; UnitBill.year := 2024;
     UnitBill.month := 2;
     UnitBill.electricity_cost := 31732;
     UnitBill.water_cost := 8720;
     UnitBill.management_cost := 74543;
     UnitBill.total_cost := 114996 |}.

Definition bill_601B : UnitBill.t float :=
  {| UnitBill.unit_id := "601B"; UnitBill.year := 2024;
     UnitBill.month := 2;
     UnitBill.electricity_cost := 15708;
     UnitBill.water_cost := 8720;
     UnitBill.management_cost := 149087;
     UnitBill.total_cost := 173514 |}.

(** The store of the sample period before the calculation. *)
Definition sample_store : SqlDatabase float :=
  {| units := [Unit.mk "601A" "601A호" 60; Unit.mk "601B" "601B호" 120];
     meter_readings := januaryReadings ++ februaryReadings;
     monthly_bills := [];
     unit_bills := [] |}.

End Sample.

(** The two stores of the counterexample: the default units with the
    February readings only, and with the January readings of both units but
    the February reading of 601A only. *)
Module FirstPeriod.

Import Binary64 SampleData.
Local Open Scope js_monad_scope.
Local Open Scope float_scope.

Definition february_only : M float unit :=
  initialize ;;
  forEach februaryReadings (fun reading => saveMeterReading reading).


End FirstPeriod.

(** The store of a first period: the default units and the February
    readings, none of January. *)
Definition first_period_store : SqlDatabase float :=
  {| units := [Unit.mk "601A" "601A호" 60%float;
               Unit.mk "601B" "601B호" 120%float];
     meter_readings := SampleData.februaryReadings;
     monthly_bills := [];
     unit_bills := [] |}.

(** The sample period in exact arithmetic. *)
Module ExactSample.

Local Open Scope string_scope.
Local Open Scope Q_scope.

Definition unit_601A : Unit.t Q := Unit.mk "601A" "601A호" 60.
Definition unit_601B : Unit.t Q := Unit.mk "601B" "601B호" 120.

Definition february_601A : MeterReading.t Q :=
  MeterReading.mk "601A" 2024 2 2123 (9336 # 100).
Definition february_601B : MeterReading.t Q :=
  MeterReading.mk "601B" 2024 2 30734 (9336 # 100).

Definition sample_store : SqlDatabase Q :=
  {| units := [unit_601A; unit_601B];
     meter_readings :=
       [ MeterReading.mk "601A" 2024 1 1923 (897 # 10);
         MeterReading.mk "601B" 2024 1 30635 (897 # 10);
         february_601A; february_601B ];
     monthly_bills := [];
     unit_bills := [] |}.

End ExactSample.

(** ** The unique keys of the four tables *)

Section Keys.

Context {num : Type} `{JS.Number num}.


(** The order of [ORDER BY id]. *)
Definition by_id (u v : Unit.t num) : Prop :=
  (Unit.id u <=? Unit.id v)%string = true.

End Keys.

(** ** The components that write units and readings

    [UnitManagement.tsx] holds two components, [UnitManagement] and
    [MeterReadingForm]; [BillManagement] saves readings with
    [handleSaveReadings].  [parseFloat] and [toString] are the platform's;
    the handlers are written over any two such functions. *)

Section Rows.

Context {num : Type} `{JS.Number num}.

Local Open Scope js_monad_scope.
Local Open Scope string_scope.

(** [a <= b] on numbers: false when either is [NaN]. *)
Definition le (a b : num) : bool :=
  negb (JS.isNaN a) && negb (JS.isNaN b) && negb (b < a)%js.

(** [(database as unknown as { db: SqlDatabase }).db], and
    [if (!db) throw new Error('Database connection not available')]. *)
Definition the_connection : M num (SqlDatabase num) :=
  fun d =>
    match d with
    | Some s => ret s d
    | None => throw "Database connection not available" d
    end.

(** [INSERT OR REPLACE INTO units (id, name, area) VALUES (?, ?, ?)]. *)
Definition insert_unit (unit : Unit.t num) (s : SqlDatabase num)
  : SqlDatabase num :=
  {| units := insert_or_replace unit_conflict unit (units s);
     meter_readings := meter_readings s;
     monthly_bills := monthly_bills s;
     unit_bills := unit_bills s |}.

(** The text [`'${unitId}'`] is the literal of [unitId] when [unitId] has
    no apostrophe, which would end the literal, and no character 0, which
    would end the text handed to the engine; with one of them the text of
    the three [DELETE] statements is another text, whose effect is not
    modelled. *)
Fixpoint breaks_literal (s : string) : bool :=
  match s with
  | EmptyString => false
  | String c rest =>
      (String c "" =? "'") || (String c "" =? String Ascii.zero "")
      || breaks_literal rest
  end.

Definition text_literal (unitId : string) : option string :=
  if breaks_literal unitId then None else Some unitId.

(** [DELETE FROM meter_readings WHERE unit_id = 'id';
     DELETE FROM unit_bills WHERE unit_id = 'id';
     DELETE FROM units WHERE id = 'id';] *)
Definition delete_unit (id : string) (s : SqlDatabase num)
  : SqlDatabase num :=
  {| units := filter (fun u => negb (Unit.id u =? id)) (units s);
     meter_readings :=
       filter (fun r => negb (MeterReading.unit_id r =? id))
         (meter_readings s);
     monthly_bills := monthly_bills s;
     unit_bills :=
       filter (fun b => negb (UnitBill.unit_id b =? id)) (unit_bills s) |}.

(** [database.autoSave()], on a database whose [db] is not [null]: the
    copy in local storage is outside the model, and a failure to write it
    is caught by [saveToLocalStorage]. *)
Definition autoSave : M num unit := ret tt.

End Rows.

(** *** [UnitManagement] *)

Module UnitManagement.

Inductive MessageText : Type :=
| FieldsInvalid      (* a field is empty or the area is not above 0 *)
| UnitExists         (* the id is taken *)
| UnitUpdated
| UnitAdded
| SaveFailed         (* the catch clause of handleSaveUnit *)
| UnitDeleted
| DeleteFailed.      (* the catch clause of handleDeleteUnit *)

Record Message : Type := mkMessage {
  type : MessageType;
  text : MessageText
}.

(** [unitForm]: the three text fields of the dialog. *)
Record UnitForm : Type := mkUnitForm {
  id : string;
  name : string;
  area : string
}.

Record State (num : Type) : Type := mkState {
  units : list (Unit.t num);
  open : bool;
  editingUnit : option (Unit.t num);
  unitForm : UnitForm;
  message : option Message
}.

Section Handlers.

Context {num : Type} `{JS.Number num}.

Variable parseFloat : string -> num.
Variable toString : num -> string.

Local Open Scope js_monad_scope.
Local Open Scope string_scope.

Definition setMessage (st : State num) (m : Message) : State num :=
  {| units := units st; open := open st; editingUnit := editingUnit st;
     unitForm := unitForm st; message := Some m |}.

Definition setUnits (st : State num) (unitsList : list (Unit.t num))
  : State num :=
  {| units := unitsList; open := open st; editingUnit := editingUnit st;
     unitForm := unitForm st; message := message st |}.

Definition loadUnits (st : State num) : M num (State num) :=
  try_catch
    (unitsList <- getUnits ;;
     ret (setUnits st unitsList))
    (fun _ => ret st).

Definition handleOpenDialog (unit : option (Unit.t num)) (st : State num)
  : State num :=
  match unit with
  | Some unit =>
      {| units := units st; open := true; editingUnit := Some unit;
         unitForm :=
           {| id := Unit.id unit; name := Unit.name unit;
              area := toString (Unit.area unit) |};
         message := message st |}
  | None =>
      {| units := units st; open := true; editingUnit := None;
         unitForm := {| id := ""; name := ""; area := "" |};
         message := message st |}
  end.

Definition handleCloseDialog (st : State num) : State num :=
  {| units := units st; open := false; editingUnit := None;
     unitForm := {| id := ""; name := ""; area := "" |};
     message := message st |}.

(** [handleSaveUnit].  [UnitManagement] is used without [onUnitsChanged];
    the state is the one at the end of the handler, before the timer
    clears the message. *)
Definition handleSaveUnit (st : State num) : M num (State num) :=
  try_catch
    (let area := parseFloat (area (unitForm st)) in
     if (id (unitForm st) =? "") || (name (unitForm st) =? "")
        || JS.isNaN area || le area (JS.of_Z 0)
     then ret (setMessage st (mkMessage error FieldsInvalid))
     else if match editingUnit st with Some _ => false | None => true end
             && existsb (fun u => Unit.id u =? id (unitForm st)) (units st)
     then ret (setMessage st (mkMessage error UnitExists))
     else
       db <- the_connection ;;
       set_db
         (insert_unit
            (Unit.mk (id (unitForm st)) (name (unitForm st)) area) db) ;;
       autoSave ;;
       loaded <- loadUnits st ;;
       let closed := handleCloseDialog loaded in
       ret (setMessage closed
              (mkMessage success
                 match editingUnit st with
                 | Some _ => UnitUpdated
                 | None => UnitAdded
                 end)))
    (fun _ => ret (setMessage st (mkMessage error SaveFailed))).

(** [handleDeleteUnit]; [confirmed] is the answer to [window.confirm].
    [None] when the id has an apostrophe or a character 0. *)
Definition handleDeleteUnit (confirmed : bool) (unitId : string)
    (st : State num) : option (M num (State num)) :=
  if negb confirmed then Some (ret st)
  else
    match text_literal unitId with
    | None => None
    | Some literal =>
        Some
          (try_catch
             (db <- the_connection ;;
              set_db (delete_unit literal db) ;;
              autoSave ;;
              loaded <- loadUnits st ;;
              ret (setMessage loaded (mkMessage success UnitDeleted)))
             (fun _ => ret (setMessage st (mkMessage error DeleteFailed))))
    end.

End Handlers.

End UnitManagement.

(** *** The forms that save readings *)

Module ReadingFields.

(** An entry of [readings]: the texts of the two fields of a unit. *)
Record t : Type := mk {
  electricity : string;
  water : string
}.

End ReadingFields.

(** [readings : Record<string, { electricity: string; water: string }>]. *)
Definition Readings : Type := string -> option ReadingFields.t.

Section TextFields.

Local Open Scope string_scope.

(** [readings[unit.id]?.electricity]: [None] is [undefined]. *)
Definition field (readings : Readings) (unitId : string)
    (get : ReadingFields.t -> string) : option string :=
  option_map get (readings unitId).

(** A text is truthy when it is there and not empty. *)
Definition entered (text : option string) : bool :=
  match text with
  | Some text => negb (text =? "")
  | None => false
  end.

(** [text || '0']. *)
Definition text_or_0 (text : option string) : string :=
  match text with
  | Some text => if text =? "" then "0" else text
  | None => "0"
  end.

End TextFields.

Module BillManagement.

Inductive ReadingsMessage : Type :=
| ReadingsInvalid                            (* error *)
| NothingToSave                              (* info *)
| ReadingsSaved (year month : Z) (savedCount : nat)   (* success *)
| SaveFailed.                                (* error, the catch clause *)

Section Handlers.

Context {num : Type} `{JS.Number num}.

Variable parseFloat : string -> num.

Local Open Scope js_monad_scope.

(** The [units.forEach] of [handleSaveReadings], from the [hasError] and
    [savedCount] so far. *)
Fixpoint saveReadings_forEach (units : list (Unit.t num))
    (readings : Readings) (selectedYear selectedMonth : Z)
    (hasError : bool) (savedCount : nat) : M num (bool * nat) :=
  match units with
  | [] => ret (hasError, savedCount)
  | unit :: rest =>
      let electricity :=
        parseFloat
          (text_or_0
             (field readings (Unit.id unit) ReadingFields.electricity)) in
      let water :=
        parseFloat
          (text_or_0 (field readings (Unit.id unit) ReadingFields.water)) in
      if JS.isNaN electricity || JS.isNaN water
      then saveReadings_forEach rest readings selectedYear selectedMonth
             true savedCount
      else if entered (field readings (Unit.id unit)
                         ReadingFields.electricity)
              || entered (field readings (Unit.id unit) ReadingFields.water)
      then
        let meterReading :=
          {| MeterReading.unit_id := Unit.id unit;
             MeterReading.year := selectedYear;
             MeterReading.month := selectedMonth;
             MeterReading.electricity_reading := electricity;
             MeterReading.water_reading := water |} in
        saveMeterReading meterReading ;;
        saveReadings_forEach rest readings selectedYear selectedMonth
          hasError (S savedCount)
      else saveReadings_forEach rest readings selectedYear selectedMonth
             hasError savedCount
  end.

(** [handleSaveReadings]: the message it sets, once it has returned. *)
Definition handleSaveReadings (units : list (Unit.t num))
    (readings : Readings) (selectedYear selectedMonth : Z)
  : M num ReadingsMessage :=
  try_catch
    (counted <-
       saveReadings_forEach units readings selectedYear selectedMonth
         false 0 ;;
     let '(hasError, savedCount) := counted in
     if hasError then ret ReadingsInvalid
     else if (savedCount =? 0)%nat then ret NothingToSave
     else ret (ReadingsSaved selectedYear selectedMonth savedCount))
    (fun _ => ret SaveFailed).

End Handlers.

End BillManagement.

Module MeterReadingForm.

Inductive Message : Type :=
| ReadingsInvalid                  (* error *)
| ReadingsSaved (year month : Z)   (* success *)
| SaveFailed.                      (* error, the catch clause *)

Section Handlers.

Context {num : Type} `{JS.Number num}.

Variable parseFloat : string -> num.

Local Open Scope js_monad_scope.
Local Open Scope string_scope.

(** The [units.forEach] of [handleSubmit], from the [hasError] so far. *)
Fixpoint submit_forEach (units : list (Unit.t num)) (readings : Readings)
    (selectedYear selectedMonth : Z) (hasError : bool) : M num bool :=
  match units with
  | [] => ret hasError
  | unit :: rest =>
      let electricity :=
        parseFloat
          (text_or_0
             (field readings (Unit.id unit) ReadingFields.electricity)) in
      let water :=
        parseFloat
          (text_or_0 (field readings (Unit.id unit) ReadingFields.water)) in
      if JS.isNaN electricity || JS.isNaN water
      then submit_forEach rest readings selectedYear selectedMonth true
      else
        let meterReading :=
          {| MeterReading.unit_id := Unit.id unit;
             MeterReading.year := selectedYear;
             MeterReading.month := selectedMonth;
             MeterReading.electricity_reading := electricity;
             MeterReading.water_reading := water |} in
        saveMeterReading meterReading ;;
        submit_forEach rest readings selectedYear selectedMonth hasError
  end.

(** The [readings] with empty fields for every unit. *)
Definition resetReadings (units : list (Unit.t num)) : Readings :=
  fun unitId =>
    if existsb (fun unit => unitId =? Unit.id unit) units
    then Some (ReadingFields.mk "" "")
    else None.

(** [handleSubmit]: the message and the [readings] it sets. *)
Definition handleSubmit (units : list (Unit.t num)) (readings : Readings)
    (selectedYear selectedMonth : Z) : M num (Message * Readings) :=
  try_catch
    (hasError <-
       submit_forEach units readings selectedYear selectedMonth false ;;
     if hasError then ret (ReadingsInvalid, readings)
     else ret (ReadingsSaved selectedYear selectedMonth,
               resetReadings units))
    (fun _ => ret (SaveFailed, readings)).

End Handlers.

End MeterReadingForm.

(** What the two forms read from [readings], unit by unit. *)
Section FieldsOfAUnit.

Context {num : Type} `{JS.Number num}.

Variable parseFloat : string -> num.
Variable readings : Readings.
Variables selectedYear selectedMonth : Z.

(** The reading that the forms build for a unit. *)
Definition reading_of_fields (unit : Unit.t num) : MeterReading.t num :=
  {| MeterReading.unit_id := Unit.id unit;
     MeterReading.year := selectedYear;
     MeterReading.month := selectedMonth;
     MeterReading.electricity_reading :=
       parseFloat
         (text_or_0
            (field readings (Unit.id unit) ReadingFields.electricity));
     MeterReading.water_reading :=
       parseFloat
         (text_or_0 (field readings (Unit.id unit) ReadingFields.water)) |}.

(** A field of the unit is not a number. *)
Definition invalid_fields (unit : Unit.t num) : bool :=
  JS.isNaN (MeterReading.electricity_reading (reading_of_fields unit))
  || JS.isNaN (MeterReading.water_reading (reading_of_fields unit)).

(** A field of the unit holds a text. *)
Definition entered_fields (unit : Unit.t num) : bool :=
  entered (field readings (Unit.id unit) ReadingFields.electricity)
  || entered (field readings (Unit.id unit) ReadingFields.water).

(** The database with other readings. *)
Definition with_readings (s : SqlDatabase num)
    (rows : list (MeterReading.t num)) : SqlDatabase num :=
  {| units := units s;
     meter_readings := rows;
     monthly_bills := monthly_bills s;
     unit_bills := unit_bills s |}.

End FieldsOfAUnit.

(** *** [BillOutput]: the bills of a month and of a range of months *)

Module MonthData.

(** An entry of [rangeBills]. *)
Record t (num : Type) : Type := mk {
  year : Z;
  month : Z;
  bills : list (UnitBill.t num)
}.

End MonthData.

Module BillOutput.

Inductive MessageText : Type :=
| NoBills (year month : Z)                                   (* info *)
| LoadFailed                                                 (* error *)
| NoBillsInRange (startYear startMonth endYear endMonth : Z) (* info *)
| RangeLoadFailed.                                           (* error *)

Record Message : Type := mkMessage {
  type : MessageType;
  text : MessageText
}.

(** The state that [loadBills] and [loadRangeBills] set. *)
Record State (num : Type) : Type := mkState {
  bills : list (UnitBill.t num);
  rangeBills : list (MonthData.t num);
  message : option Message
}.

Section Loaders.

Context {num : Type} `{JS.Number num}.

Local Open Scope js_monad_scope.
Local Open Scope Z_scope.

Definition loadBills (selectedYear selectedMonth : Z) (st : State num)
  : M num (State num) :=
  try_catch
    (unitBills <- getUnitBills selectedYear selectedMonth ;;
     if (length unitBills =? 0)%nat
     then ret {| bills := []; rangeBills := rangeBills st;
                 message :=
                   Some (mkMessage info
                           (NoBills selectedYear selectedMonth)) |}
     else ret {| bills := unitBills; rangeBills := rangeBills st;
                 message := None |})
    (fun _ =>
       ret {| bills := bills st; rangeBills := rangeBills st;
              message := Some (mkMessage error LoadFailed) |}).

(** The [while] loop of [loadRangeBills], for at most [fuel] iterations:
    [None] when they do not suffice. *)
Fixpoint loadRangeBills_while (fuel : nat) (endYear endMonth : Z)
    (currentYear currentMonth : Z) (rangeBillsData : list (MonthData.t num))
  : M num (option (list (MonthData.t num))) :=
  if (currentYear <? endYear)
     || ((currentYear =? endYear) && (currentMonth <=? endMonth))
  then
    match fuel with
    | O => ret None
    | S fuel =>
        unitBills <- getUnitBills currentYear currentMonth ;;
        let rangeBillsData :=
          if (0 <? length unitBills)%nat
          then rangeBillsData
               ++ [MonthData.mk currentYear currentMonth unitBills]
          else rangeBillsData in
        let currentMonth := currentMonth + 1 in
        if 12 <? currentMonth
        then loadRangeBills_while fuel endYear endMonth
               (currentYear + 1) 1 rangeBillsData
        else loadRangeBills_while fuel endYear endMonth
               currentYear currentMonth rangeBillsData
    end
  else ret (Some rangeBillsData).

(** A number of iterations that suffices from [(currentYear,
    currentMonth)]. *)
Definition iterations (endYear currentYear currentMonth : Z) : nat :=
  Z.to_nat (13 * (endYear - currentYear) + Z.max 0 (13 - currentMonth) + 1).

Definition loadRangeBills (startYear startMonth endYear endMonth : Z)
    (st : State num) : M num (option (State num)) :=
  try_catch
    (loaded <-
       loadRangeBills_while (iterations endYear startYear startMonth)
         endYear endMonth startYear startMonth [] ;;
     match loaded with
     | None => ret None
     | Some rangeBillsData =>
         if (length rangeBillsData =? 0)%nat
         then ret (Some
                {| bills := bills st; rangeBills := [];
                   message :=
                     Some (mkMessage info
                             (NoBillsInRange startYear startMonth
                                endYear endMonth)) |})
         else ret (Some
                {| bills := bills st; rangeBills := rangeBillsData;
                   message := None |})
     end)
    (fun _ =>
       ret (Some
              {| bills := bills st; rangeBills := rangeBills st;
                 message := Some (mkMessage error RangeLoadFailed) |})).

End Loaders.

End BillOutput.

(** The order of the months. *)
Section Months.

Local Open Scope Z_scope.

(** [(year, month)] is [(fromYear, fromMonth)] or later. *)
Definition not_before (fromYear fromMonth year month : Z) : Prop :=
  fromYear < year \/ (fromYear = year /\ fromMonth <= month).

(** [(year, month)] is [(endYear, endMonth)] or earlier: the condition of
    the loop of [loadRangeBills]. *)
Definition not_after (endYear endMonth year month : Z) : Prop :=
  year < endYear \/ (year = endYear /\ month <= endMonth).

(** The month of [a] is before the month of [b]. *)
Definition earlier {num : Type} (a b : MonthData.t num) : Prop :=
  MonthData.year a < MonthData.year b
  \/ (MonthData.year a = MonthData.year b
      /\ MonthData.month a < MonthData.month b).

(** The unit bills of a month, as [getUnitBills] selects them. *)
Definition bills_of_month {num : Type} `{JS.Number num}
    (s : SqlDatabase num) (year month : Z) : list (UnitBill.t num) :=
  filter
    (fun b => (UnitBill.year b =? year) && (UnitBill.month b =? month))
    (unit_bills s).

End Months.

(** ** The writers of the database, one after the other *)


Section Actions.

Variable parseFloat : string -> float.




End Actions.



(** ** The binary64 format

    The numbers of the format that are not negative, their values, and what
    it means that a rational number rounds to one of them. *)

Module Binary64Format.

Local Unset Implicit Arguments.

Import SpecFloat.
Local Open Scope Z_scope.

(** Powers of two with integer exponents. *)
Definition pow2 (e : Z) : Q := (2 ^ e)%Q.

(** [y] lies in [[m, m + 1)], at the place that [l] tells: on [m], below,
    on or above the middle. *)
Definition located (y : Q) (m : Z) (l : location) : Prop :=
  match l with
  | loc_Exact => (y == inject_Z m)%Q
  | loc_Inexact Lt => (inject_Z m < y /\ y < inject_Z m + (1 # 2))%Q
  | loc_Inexact Eq => (y == inject_Z m + (1 # 2))%Q
  | loc_Inexact Gt => (inject_Z m + (1 # 2) < y /\ y < inject_Z m + 1)%Q
  end.

(** The exponent of the smallest positive number, [2^-1074]. *)
Definition emin : Z := -1074.

(** The exponent at which a number of [k] binary digits is written with
    53 digits, or [emin] for the subnormal ones. *)
Definition fexp (k : Z) : Z := Z.max (k - 53) emin.

(** What [binary_round_aux] returns from the rounded mantissa [m] at
    exponent [t]. *)
Definition carried (t m : Z) : Z * Z :=
  if m =? 2 ^ 53 then (2 ^ 52, t + 1) else (m, t).

(** The number of mantissa [m] at exponent [e]; past the largest exponent,
    971, it is infinite. *)
Definition pack (me : Z * Z) : spec_float :=
  match fst me with
  | Z0 => S754_zero false
  | Z.pos p =>
      if snd me <=? 971 then S754_finite false p (snd me)
      else S754_infinity false
  | Z.neg _ => S754_nan
  end.

(** [f] is [x] rounded: what [binary_round_aux_spec] states. *)
Definition rounds_to (x : Q) (f : spec_float) : Prop :=
  exists t m l,
    located (x / pow2 t) m l
    /\ 0 <= m < 2 ^ 53
    /\ emin <= t
    /\ (emin < t -> 2 ^ 52 <= m)
    /\ f = pack (carried t (round_nearest_even m l)).

(** The value of a finite number that is not negative. *)
Definition value (m : positive) (e : Z) : Q :=
  (inject_Z (Z.pos m) * pow2 e)%Q.

(** Zero, a positive finite number or [+Infinity]. *)
Definition nonneg (f : spec_float) : Prop :=
  match f with
  | S754_zero _ | S754_finite false _ _ | S754_infinity false => True
  | _ => False
  end.

(** Zero or a positive finite number. *)
Definition finite_nonneg (f : spec_float) : Prop :=
  match f with
  | S754_zero _ | S754_finite false _ _ => True
  | _ => False
  end.

(** A positive number, possibly infinite. *)
Definition is_positive (f : spec_float) : Prop :=
  match f with
  | S754_finite false _ _ | S754_infinity false => True
  | _ => False
  end.

(** The value of a number that is zero or positive and finite. *)
Definition value_of (f : spec_float) : Q :=
  match f with
  | S754_finite false m e => value m e
  | _ => 0%Q
  end.

(** The integer that [Math.round] computes for [m * 2^e] with [e < 0]. *)
Definition nearest_integer (m : positive) (e : Z) : Z :=
  ((2 * Z.pos m + 2 ^ (- e)) / (2 * 2 ^ (- e)))%Z.

(** Positive finite numbers. *)
Definition positive_finite (x : float) : Prop :=
  exists m e, Prim2SF x = S754_finite false m e.

End Binary64Format.

(** ** A run on an initialised database *)

Section Runs.

Context {num : Type} `{JS.Number num}.

Local Open Scope js_monad_scope.

Lemma getUnits_run (s : SqlDatabase num) :
  getUnits (Some s) = (Normal (registeredUnits s), Some s).
Proof. reflexivity. Qed.

Lemma getMeterReadings_run (s : SqlDatabase num) (year month : Z) :
  getMeterReadings year month (Some s)
  = (Normal (currentReadings_of (meter_readings s) year month), Some s).
Proof. reflexivity. Qed.

Lemma getPreviousMonthReading_run (s : SqlDatabase num) (unitId : string)
    (year month : Z) :
  getPreviousMonthReading unitId year month (Some s)
  = (Normal (previousReading_of (meter_readings s) unitId year month),
     Some s).
Proof.
  unfold getPreviousMonthReading, previousReading_of, previous_period,
    bind, the_db, ret.
  destruct (month - 1 =? 0)%Z; reflexivity.
Qed.

Lemma sum_from_app (start : num) (xs ys : list num) :
  sum_from start (xs ++ ys) = sum_from (sum_from start xs) ys.
Proof. apply fold_left_app. Qed.

Lemma calculateTotalElectricityUsage_for_run (s : SqlDatabase num)
    (currentReadings : list (MeterReading.t num)) (year month : Z)
    (units : list (Unit.t num)) (totalUsage : num) :
  calculateTotalElectricityUsage_for units currentReadings year month
    totalUsage (Some s)
  = (Normal
       (sum_from totalUsage
          (map (electricityUsage_of (meter_readings s) year month)
             (billed units currentReadings))),
     Some s).
Proof.
  revert totalUsage.
  induction units as [|unit rest IH]; intros totalUsage; [reflexivity|].
  cbn [calculateTotalElectricityUsage_for billed flat_map].
  destruct (find_reading (Unit.id unit) currentReadings) as [c|].
  - unfold bind at 1. rewrite getPreviousMonthReading_run.
    rewrite IH. reflexivity.
  - rewrite IH. reflexivity.
Qed.

Lemma calculateTotalWaterUsage_for_run (s : SqlDatabase num)
    (currentReadings : list (MeterReading.t num)) (year month : Z)
    (units : list (Unit.t num)) (totalUsage : num) :
  calculateTotalWaterUsage_for units currentReadings year month
    totalUsage (Some s)
  = (Normal
       (sum_from totalUsage
          (map (waterUsage_of (meter_readings s) year month)
             (billed units currentReadings))),
     Some s).
Proof.
  revert totalUsage.
  induction units as [|unit rest IH]; intros totalUsage; [reflexivity|].
  cbn [calculateTotalWaterUsage_for billed flat_map].
  destruct (find_reading (Unit.id unit) currentReadings) as [c|].
  - unfold bind at 1. rewrite getPreviousMonthReading_run.
    rewrite IH. reflexivity.
  - rewrite IH. reflexivity.
Qed.

Lemma totalArea_reduce (units : list (Unit.t num)) (start : num) :
  fold_left (fun sum unit => (sum + Unit.area unit)%js) units start
  = sum_from start (map (@Unit.area num) units).
Proof.
  revert start. induction units as [|u rest IH]; intros start;
    [reflexivity|]. cbn. apply IH.
Qed.

(** The loop of [calculateAndSaveBills] writes [unit_bills] only, so every
    iteration reads the same readings. *)
Lemma calculateAndSaveBills_for_run
    (currentReadings : list (MeterReading.t num)) (year month : Z)
    (tE tW tM totalArea totalE totalW : num)
    (us : list (Unit.t num)) (s : SqlDatabase num)
    (unitBills : list (UnitBill.t num)) :
  let new :=
    map (fun uc =>
           unitBill_of year month tE tW tM totalArea totalE totalW
             (fst uc) (snd uc)
             (previousReading_of (meter_readings s) (Unit.id (fst uc))
                year month))
      (billed us currentReadings) in
  calculateAndSaveBills_for us currentReadings year month
    tE tW tM totalArea totalE totalW unitBills (Some s)
  = (Normal (unitBills ++ new),
     Some {| units := units s;
             meter_readings := meter_readings s;
             monthly_bills := monthly_bills s;
             unit_bills := save_all new (unit_bills s) |}).
Proof.
  revert s unitBills.
  induction us as [|unit rest IH]; intros s unitBills.
  - cbn. rewrite app_nil_r. destruct s; reflexivity.
  - cbn [calculateAndSaveBills_for billed flat_map].
    destruct (find_reading (Unit.id unit) currentReadings) as [c|].
    + unfold bind at 1. rewrite getPreviousMonthReading_run.
      unfold saveUnitBill, bind, the_db, set_db, ret.
      rewrite IH. cbn. rewrite <- app_assoc. reflexivity.
    + rewrite IH. reflexivity.
Qed.

(** [calculateAndSaveBills] on an initialised database returns [bills_of]
    and leaves [store_after]; on [null] it throws at its first statement. *)
Lemma calculateAndSaveBills_run (s : SqlDatabase num) (year month : Z)
    (tE tW tM : num) :
  calculateAndSaveBills year month tE tW tM (Some s)
  = (Normal (bills_of s year month tE tW tM),
     Some (store_after s year month tE tW tM)).
Proof.
  unfold calculateAndSaveBills, calculateTotalElectricityUsage,
    calculateTotalWaterUsage, saveMonthlyBill.
  unfold bind, the_db, set_db, ret.
  rewrite getUnits_run, getMeterReadings_run.
  cbn [units meter_readings monthly_bills unit_bills].
  rewrite calculateTotalElectricityUsage_for_run.
  rewrite calculateTotalWaterUsage_for_run.
  rewrite calculateAndSaveBills_for_run.
  rewrite totalArea_reduce.
  reflexivity.
Qed.

Lemma calculateAndSaveBills_null (year month : Z) (tE tW tM : num) :
  calculateAndSaveBills year month tE tW tM None
  = (Thrown "Database not initialized"%string, None).
Proof. reflexivity. Qed.

End Runs.

(** ** The units that are billed *)

Section Billed.

Context {num : Type} `{JS.Number num}.


Lemma billed_In (us : list (Unit.t num))
    (currentReadings : list (MeterReading.t num))
    (uc : Unit.t num * MeterReading.t num) :
  In uc (billed us currentReadings) <->
  In (fst uc) us
  /\ find_reading (Unit.id (fst uc)) currentReadings = Some (snd uc).
Proof.
  unfold billed. rewrite in_flat_map. split.
  - intros [u [Hu Hin]].
    destruct (find_reading (Unit.id u) currentReadings) as [c|] eqn:Hc;
      [|contradiction].
    destruct Hin as [<-|[]]. cbn. now split.
  - intros [Hu Hc]. exists (fst uc). split; [exact Hu|].
    rewrite Hc. left. now destruct uc.
Qed.



Lemma insert_by_id_perm (u : Unit.t num) (rows : list (Unit.t num)) :
  Permutation (insert_by_id u rows) (u :: rows).
Proof.
  induction rows as [|v rest IH]; [reflexivity|].
  cbn [insert_by_id].
  destruct (Unit.id u <=? Unit.id v)%string; [reflexivity|].
  rewrite IH. apply perm_swap.
Qed.

(** [ORDER BY id] returns the rows of the table. *)
Lemma order_by_id_perm (rows : list (Unit.t num)) :
  Permutation (order_by_id rows) rows.
Proof.
  induction rows as [|u rest IH]; [reflexivity|].
  cbn [order_by_id fold_right]. fold (order_by_id rest).
  rewrite insert_by_id_perm. now apply perm_skip.
Qed.

Lemma registeredUnits_In (s : SqlDatabase num) (u : Unit.t num) :
  In u (registeredUnits s) <-> In u (units s).
Proof.
  split; apply Permutation_in;
    [|symmetry]; apply order_by_id_perm.
Qed.

Lemma NoDup_map_filter {A B : Type} (f : A -> B) (keep : A -> bool)
    (l : list A) :
  NoDup (map f l) -> NoDup (map f (filter keep l)).
Proof.
  induction l as [|a rest IH]; intros Hnodup; [constructor|].
  cbn in Hnodup. apply NoDup_cons_iff in Hnodup.
  destruct Hnodup as [Hnotin Hrest]. cbn.
  destruct (keep a); [|now apply IH].
  cbn. constructor; [|now apply IH].
  intros Hin. apply Hnotin. apply in_map_iff in Hin.
  destruct Hin as [x [Hx Hin]]. apply filter_In in Hin.
  apply in_map_iff. exists x. tauto.
Qed.



End Billed.

(** ** Unique keys *)

Section UniqueKeys.

Context {num : Type} `{JS.Number num}.

Lemma insert_or_replace_unique {R : Type} (conflict : R -> R -> bool)
    (row : R) (table : list R) :
  (forall a b, conflict a b = conflict b a) ->
  unique_rows conflict table ->
  unique_rows conflict (insert_or_replace conflict row table).
Proof.
  intros Hsym Huniq p q Hp Hq Hpq.
  unfold insert_or_replace in Hp, Hq.
  apply in_app_or in Hp. apply in_app_or in Hq.
  destruct Hp as [Hp|[<-|[]]], Hq as [Hq|[<-|[]]].
  - apply filter_In in Hp, Hq. apply Huniq; tauto.
  - apply filter_In in Hp. destruct Hp as [_ Hp].
    rewrite Hpq in Hp. discriminate.
  - apply filter_In in Hq. destruct Hq as [_ Hq].
    rewrite Hsym, Hpq in Hq. discriminate.
  - reflexivity.
Qed.

Lemma reading_conflict_sym (a b : MeterReading.t num) :
  reading_conflict a b = reading_conflict b a.
Proof.
  unfold reading_conflict.
  now rewrite String.eqb_sym, (Z.eqb_sym (MeterReading.year a)),
    (Z.eqb_sym (MeterReading.month a)).
Qed.

(** [saveMeterReading] keeps the readings unique per unit and month. *)
Lemma saveMeterReading_unique (s : SqlDatabase num)
    (reading : MeterReading.t num) :
  unique_readings s ->
  exists s', saveMeterReading reading (Some s) = (Normal tt, Some s')
             /\ unique_readings s'.
Proof.
  intros Huniq. eexists. split; [reflexivity|].
  apply insert_or_replace_unique; [apply reading_conflict_sym|exact Huniq].
Qed.


Lemma previousReading_of_none (rows : list (MeterReading.t num))
    (unitId : string) (year month : Z) :
  (forall p, In p rows ->
     ~ (MeterReading.unit_id p = unitId
        /\ MeterReading.year p = fst (previous_period year month)
        /\ MeterReading.month p = snd (previous_period year month))) ->
  previousReading_of rows unitId year month = None.
Proof.
  intros Hnone. unfold previousReading_of.
  destruct (find _ rows) as [q|] eqn:Hfind; [|reflexivity].
  apply find_some in Hfind. destruct Hfind as [Hq Hkey].
  apply andb_prop in Hkey. destruct Hkey as [Hkey Hqm].
  apply andb_prop in Hkey. destruct Hkey as [Hqid Hqy].
  apply String.eqb_eq in Hqid. apply Z.eqb_eq in Hqy, Hqm.
  exfalso. apply (Hnone q Hq). tauto.
Qed.


End UniqueKeys.

(** ** Saving rows twice *)

Section Upserts.

Context {R : Type} (conflict : R -> R -> bool).

Hypothesis conflict_refl : forall r, conflict r r = true.

Local Abbreviation kept := (kept conflict).
Local Abbreviation upsert_all := (upsert_all conflict).


Lemma filter_all (table : list R) : filter (fun _ => true) table = table.
Proof.
  induction table as [|r rest IH]; [reflexivity|]. cbn. now rewrite IH.
Qed.

Lemma filter_twice (f g : R -> bool) (table : list R) :
  filter g (filter f table) = filter (fun r => f r && g r) table.
Proof.
  induction table as [|r rest IH]; [reflexivity|].
  cbn. destruct (f r); cbn; [destruct (g r)|]; now rewrite IH.
Qed.

(** Saving [rows] drops from the table what they replace and appends what
    saving them into an empty table leaves. *)
Lemma upsert_all_table (rows table : list R) :
  upsert_all rows table = filter (kept rows) table ++ upsert_all rows [].
Proof.
  revert table. induction rows as [|b rest IH]; intros table.
  - cbn. unfold kept. cbn. now rewrite filter_all, app_nil_r.
  - change (upsert_all rest (insert_or_replace conflict b table)
            = filter (kept (b :: rest)) table
              ++ upsert_all rest (insert_or_replace conflict b [])).
    rewrite (IH (insert_or_replace conflict b table)).
    rewrite (IH (insert_or_replace conflict b [])).
    unfold insert_or_replace. cbn [filter app].
    rewrite filter_app, filter_twice, <- app_assoc. reflexivity.
Qed.

Lemma upsert_all_In (rows table : list R) (r : R) :
  In r (upsert_all rows table) -> In r rows \/ In r table.
Proof.
  revert table. induction rows as [|b rest IH]; intros table Hr.
  - now right.
  - cbn [upsert_all fold_left] in Hr. fold (upsert_all rest) in Hr.
    apply IH in Hr. destruct Hr as [Hr|Hr]; [left; now right|].
    unfold insert_or_replace in Hr. apply in_app_or in Hr.
    destruct Hr as [Hr|[<-|[]]].
    + apply filter_In in Hr. right. tauto.
    + left. now left.
Qed.

Lemma kept_own_row (rows : list R) (r : R) : In r rows -> kept rows r = false.
Proof.
  intros Hr. unfold kept.
  destruct (forallb _ rows) eqn:Hall; [|reflexivity].
  rewrite forallb_forall in Hall. specialize (Hall r Hr).
  rewrite conflict_refl in Hall. discriminate.
Qed.

Lemma filter_none (f : R -> bool) (table : list R) :
  (forall r, In r table -> f r = false) -> filter f table = [].
Proof.
  induction table as [|r rest IH]; intros Hall; [reflexivity|].
  cbn. rewrite (Hall r (or_introl eq_refl)).
  apply IH. intros q Hq. apply Hall. now right.
Qed.

(** Saving the same rows a second time changes nothing. *)
Lemma upsert_all_twice (rows table : list R) :
  upsert_all rows (upsert_all rows table) = upsert_all rows table.
Proof.
  rewrite (upsert_all_table rows (upsert_all rows table)).
  rewrite (upsert_all_table rows table) at 1.
  rewrite filter_app, filter_twice.
  rewrite (filter_none (kept rows) (upsert_all rows [])).
  - rewrite app_nil_r. rewrite (upsert_all_table rows table).
    f_equal. apply filter_ext. intros r. now destruct (kept rows r).
  - intros r Hr. apply upsert_all_In in Hr.
    destruct Hr as [Hr|[]]. now apply kept_own_row.
Qed.

(** Rows of which none replaces another are all there after saving them. *)
Lemma upsert_all_distinct (rows : list R) :
  distinct_rows conflict rows -> upsert_all rows [] = rows.
Proof.
  induction rows as [|b rest IH]; intros Hdistinct; [reflexivity|].
  destruct Hdistinct as [Hkept Hrest].
  change (upsert_all rest (insert_or_replace conflict b []) = b :: rest).
  rewrite upsert_all_table. cbn [insert_or_replace filter app].
  rewrite Hkept, (IH Hrest). reflexivity.
Qed.

End Upserts.

Section Idempotence.

Context {num : Type} `{JS.Number num}.

Lemma unit_bill_conflict_refl (b : UnitBill.t num) :
  unit_bill_conflict b b = true.
Proof.
  unfold unit_bill_conflict.
  now rewrite String.eqb_refl, !Z.eqb_refl.
Qed.

Lemma monthly_bill_conflict_refl (b : MonthlyBill.t num) :
  monthly_bill_conflict b b = true.
Proof. unfold monthly_bill_conflict. now rewrite !Z.eqb_refl. Qed.

(** The bills depend on the units and the readings only. *)
Lemma bills_of_reads (s1 s2 : SqlDatabase num) (year month : Z)
    (tE tW tM : num) :
  units s1 = units s2 -> meter_readings s1 = meter_readings s2 ->
  bills_of s1 year month tE tW tM = bills_of s2 year month tE tW tM.
Proof.
  intros Hu Hr.
  unfold bills_of, bill_of, billed_in, totalArea_of,
    totalElectricityUsage_of, totalWaterUsage_of, billed_in, registeredUnits.
  now rewrite Hu, Hr.
Qed.

Lemma store_after_twice (s : SqlDatabase num) (year month : Z)
    (tE tW tM : num) :
  store_after (store_after s year month tE tW tM) year month tE tW tM
  = store_after s year month tE tW tM.
Proof.
  unfold store_after at 1.
  rewrite (bills_of_reads (store_after s year month tE tW tM) s)
    by reflexivity.
  unfold store_after.
  cbn [units meter_readings monthly_bills unit_bills].
  f_equal.
  - exact (@upsert_all_twice _ _ monthly_bill_conflict_refl
             [MonthlyBill.mk year month tE tW tM] (monthly_bills s)).
  - exact (@upsert_all_twice _ _ unit_bill_conflict_refl
             (bills_of s year month tE tW tM) (unit_bills s)).
Qed.

End Idempotence.

(** ** Facts of binary64 arithmetic *)

Module Binary64Facts.

Import Binary64.
Local Open Scope float_scope.

(** [Math.round] on the cases that its definition singles out: ties go up,
    [-0.5 <= x < 0] gives [-0], the largest number below 0.5 gives 0, and
    what is not finite is returned as it is. *)
Example Math_round_ties :
  Math_round 0.5 = 1 /\ Math_round 2.5 = 3 /\ Math_round (-2.5) = -2
  /\ Math_round (-0.5) = neg_zero /\ Math_round (-0.25) = neg_zero
  /\ Math_round 0x1.fffffffffffffp-2 = 0
  /\ Math_round 0x1.fffffffffffffp+51 = 0x1p+52
  /\ Math_round infinity = infinity /\ Math_round nan = nan.
Proof. repeat split; vm_compute; reflexivity. Qed.

(** [Math.max] prefers [+0] to [-0] and returns [NaN] on a [NaN]. *)
Example Math_max_zeros :
  Math_max 0 neg_zero = 0 /\ Math_max neg_zero 0 = 0
  /\ Math_max 0 (-3) = 0 /\ Math_max 0 3 = 3 /\ Math_max 0 nan = nan.
Proof. repeat split; vm_compute; reflexivity. Qed.

(** [Math.max(0, x)] is never below 0. *)
Lemma Math_max_0_not_negative (x : float) : (Math_max 0 x <? 0) = false.
Proof.
  unfold Math_max.
  change (is_nan 0) with false. cbn [orb].
  destruct (is_nan x); [reflexivity|].
  destruct (0 <? x) eqn:Hpos.
  - rewrite FloatAxioms.ltb_spec in Hpos. rewrite FloatAxioms.ltb_spec.
    change (Prim2SF 0) with (S754_zero false) in *.
    destruct (Prim2SF x) as [sx|sx| |sx mx ex]; cbn in *;
      try destruct sx; try discriminate; reflexivity.
  - destruct (x <? 0); [reflexivity|].
    change (get_sign 0) with false. reflexivity.
Qed.

Lemma is_finite_cases (x : float) :
  is_finite x = true ->
  (exists sx, Prim2SF x = S754_zero sx)
  \/ (exists sx mx ex, Prim2SF x = S754_finite sx mx ex).
Proof.
  unfold is_finite, is_nan, is_infinity. intros Hfin.
  rewrite !FloatAxioms.eqb_spec, FloatAxioms.abs_spec in Hfin.
  change (Prim2SF infinity) with (S754_infinity false) in Hfin.
  destruct (Prim2SF x) as [sx|sx| |sx mx ex].
  - left. now exists sx.
  - cbn in Hfin. destruct sx; discriminate.
  - cbn in Hfin. discriminate.
  - right. now exists sx, mx, ex.
Qed.





End Binary64Facts.

(** ** Facts of exact arithmetic *)

Module ExactFacts.

Import Exact.
Local Open Scope Q_scope.





End ExactFacts.

(** ** The stores of the scenarios *)

Lemma sample_store_reached :
  (initialize ;; SampleData.insertSampleData)%js_monad None
  = (Normal true, Some Sample.sample_store).
Proof. vm_compute. reflexivity. Qed.

Lemma first_period_store_reached :
  FirstPeriod.february_only None = (Normal tt, Some first_period_store).
Proof. vm_compute. reflexivity. Qed.

(** ** Rounding to binary64

    [SpecFloat] specifies the operations of binary64 by the functions that
    compute them.  This part shows what they mean on numbers that are not
    negative: [binary_round_aux] rounds a located number to the nearest
    number of the format, and rounding keeps the order. *)

Module Rounding.

Local Unset Implicit Arguments.

Import SpecFloat Binary64Format.
Local Open Scope Z_scope.

Lemma pow2_pos (e : Z) : (0 < pow2 e)%Q.
Proof. apply Qpower_0_lt. reflexivity. Qed.

Lemma pow2_plus (a b : Z) : (pow2 (a + b) == pow2 a * pow2 b)%Q.
Proof. apply Qpower_plus. discriminate. Qed.

Lemma pow2_succ (e : Z) : (pow2 (e + 1) == 2 * pow2 e)%Q.
Proof. rewrite pow2_plus. change (pow2 1) with 2%Q. ring. Qed.

Lemma pow2_le (a b : Z) : a <= b -> (pow2 a <= pow2 b)%Q.
Proof.
  intros Hab. apply Qpower_le_compat_l; [exact Hab|]. discriminate.
Qed.

Lemma pow2_lt (a b : Z) : a < b -> (pow2 a < pow2 b)%Q.
Proof.
  intros Hab. apply Qpower_lt_compat_l; [exact Hab|]. reflexivity.
Qed.

Lemma pow2_Z (n : Z) : 0 <= n -> (pow2 n == inject_Z (2 ^ n))%Q.
Proof. intros Hn. symmetry. now apply Zpower_Qpower. Qed.


(** *** Locations *)

Lemma located_bounds (y : Q) (m : Z) (l : location) :
  located y m l -> (inject_Z m <= y /\ y < inject_Z m + 1)%Q.
Proof. destruct l as [|[]]; cbn; lra. Qed.

Lemma located_comp (y y' : Q) (m : Z) (l : location) :
  (y == y')%Q -> located y m l -> located y' m l.
Proof. intros Hy. destruct l as [|[]]; cbn; rewrite Hy; tauto. Qed.

Lemma inject_Z_succ (m : Z) : (inject_Z (m + 1) == inject_Z m + 1)%Q.
Proof. rewrite inject_Z_plus. reflexivity. Qed.

Lemma inject_Z_pos (m : Z) : 0 < m -> (0 < inject_Z m)%Q.
Proof. intros Hm. change 0%Q with (inject_Z 0). now rewrite <- Zlt_Qlt. Qed.

Lemma inject_Z_nonneg (m : Z) : 0 <= m -> (0 <= inject_Z m)%Q.
Proof. intros Hm. change 0%Q with (inject_Z 0). now rewrite <- Zle_Qle. Qed.

Lemma inject_Z_double (p : positive) :
  (inject_Z (Z.pos p~0) == 2 * inject_Z (Z.pos p))%Q.
Proof. rewrite <- (inject_Z_mult 2). reflexivity. Qed.

Lemma inject_Z_double_1 (p : positive) :
  (inject_Z (Z.pos p~1) == 2 * inject_Z (Z.pos p) + 1)%Q.
Proof.
  rewrite <- (inject_Z_mult 2), <- (inject_Z_plus _ 1). reflexivity.
Qed.

(** One step to the right. *)
Lemma shr_1_located (y : Q) (mrs : shr_record) :
  0 <= shr_m mrs ->
  located y (shr_m mrs) (loc_of_shr_record mrs) ->
  0 <= shr_m (shr_1 mrs)
  /\ located (y * (1 # 2)) (shr_m (shr_1 mrs))
       (loc_of_shr_record (shr_1 mrs)).
Proof.
  destruct mrs as [m r s]. cbn [shr_m]. intros Hm Hloc.
  destruct m as [|p|p]; [| |lia].
  - destruct r, s; cbn [located loc_of_shr_record shr_1 shr_m orb] in *;
        (split; [lia|]); change (inject_Z 0) with 0%Q in *;
        change (inject_Z 1) with 1%Q in *; lra.
  - destruct p as [p|p|].
    + pose proof (inject_Z_double_1 p) as Hp.
      destruct r, s; cbn [located loc_of_shr_record shr_1 shr_m orb] in *;
        (split; [lia|]); change (inject_Z 0) with 0%Q in *;
        change (inject_Z 1) with 1%Q in *; lra.
    + pose proof (inject_Z_double p) as Hp.
      destruct r, s; cbn [located loc_of_shr_record shr_1 shr_m orb] in *;
        (split; [lia|]); change (inject_Z 0) with 0%Q in *;
        change (inject_Z 1) with 1%Q in *; lra.
    + destruct r, s; cbn [located loc_of_shr_record shr_1 shr_m orb] in *;
        (split; [lia|]); change (inject_Z 0) with 0%Q in *;
        change (inject_Z 1) with 1%Q in *; lra.
Qed.

(** [iter_pos f p] applies [f] [p] times. *)
Lemma iter_pos_invariant {A : Type} (I : Z -> A -> Prop) (f : A -> A) :
  (forall n x, I n x -> I (n + 1) (f x)) ->
  forall p n x, I n x -> I (n + Z.pos p) (iter_pos f p x).
Proof.
  intros Hstep p. induction p as [p IH|p IH|]; intros n x Hx; cbn.
  - replace (n + Z.pos p~1) with (n + 1 + Z.pos p + Z.pos p) by lia.
    apply IH, IH, Hstep, Hx.
  - replace (n + Z.pos p~0) with (n + Z.pos p + Z.pos p) by lia.
    apply IH, IH, Hx.
  - apply Hstep, Hx.
Qed.

Lemma loc_of_shr_record_of_loc (m : Z) (l : location) :
  loc_of_shr_record (shr_record_of_loc m l) = l
  /\ shr_m (shr_record_of_loc m l) = m.
Proof. destruct l as [|[]]; split; reflexivity. Qed.

(** Shifting to a larger exponent keeps the location of the number. *)
Lemma shr_located (x : Q) (m e n : Z) (l : location) :
  0 <= m ->
  located (x / pow2 e) m l ->
  let '(mrs, e') := shr (shr_record_of_loc m l) e n in
  e' = e + Z.max 0 n
  /\ 0 <= shr_m mrs
  /\ located (x / pow2 e') (shr_m mrs) (loc_of_shr_record mrs).
Proof.
  intros Hm Hloc.
  destruct (loc_of_shr_record_of_loc m l) as [Hl Hsm].
  destruct n as [|p|p]; cbn [shr].
  - rewrite Z.add_0_r, Hl, Hsm. auto.
  - split; [lia|].
    pose (I := fun k mrs =>
                 0 <= shr_m mrs
                 /\ located (x / pow2 (e + k)) (shr_m mrs)
                      (loc_of_shr_record mrs)).
    assert (Hiter : I (0 + Z.pos p) (iter_pos shr_1 p (shr_record_of_loc m l))).
    { apply iter_pos_invariant.
      - intros k mrs [Hk Hlock]. unfold I.
        destruct (shr_1_located _ mrs Hk Hlock) as [Hk' Hloc'].
        split; [exact Hk'|].
        refine (located_comp _ _ _ _ _ Hloc').
        rewrite Z.add_assoc, pow2_succ. field.
        pose proof (pow2_pos (e + k)). lra.
      - unfold I. rewrite Z.add_0_r, Hl, Hsm. auto. }
    exact Hiter.
  - rewrite Z.add_0_r, Hl, Hsm. auto.
Qed.


(** *** Digits *)

Lemma digits2_pos_size (p : positive) : digits2_pos p = Pos.size p.
Proof. induction p as [p IH|p IH|]; cbn; now rewrite ?IH. Qed.

Lemma Zdigits2_bounds (m : Z) :
  0 < m -> 1 <= Zdigits2 m /\ 2 ^ (Zdigits2 m - 1) <= m < 2 ^ Zdigits2 m.
Proof.
  destruct m as [|p|p]; try lia. intros _. cbn [Zdigits2].
  rewrite digits2_pos_size.
  pose proof (Pos.size_gt p) as Hgt. pose proof (Pos.size_le p) as Hle.
  apply Pos2Z.pos_lt_pos in Hgt. apply Pos2Z.pos_le_pos in Hle.
  rewrite Pos2Z.inj_pow in Hgt, Hle.
  split; [lia|].
  replace (2 ^ Z.pos (Pos.size p)) with (2 * 2 ^ (Z.pos (Pos.size p) - 1))
    in Hle.
  - lia.
  - rewrite <- Z.pow_succ_r by lia. f_equal. lia.
Qed.

Lemma Zdigits2_unique (m d : Z) :
  2 ^ (d - 1) <= m < 2 ^ d -> 1 <= d -> Zdigits2 m = d.
Proof.
  intros [Hlo Hhi] Hd.
  assert (Hm : 0 < m) by (pose proof (Z.pow_pos_nonneg 2 (d - 1)); lia).
  destruct (Zdigits2_bounds m Hm) as [H1 [Hlo' Hhi']].
  destruct (Z.lt_trichotomy (Zdigits2 m) d) as [Hlt|[Heq|Hgt]];
    [exfalso|exact Heq|exfalso].
  - assert (2 ^ Zdigits2 m <= 2 ^ (d - 1)) by (apply Z.pow_le_mono_r; lia).
    lia.
  - assert (2 ^ d <= 2 ^ (Zdigits2 m - 1)) by (apply Z.pow_le_mono_r; lia).
    lia.
Qed.

(** *** The format: binary64 *)

Lemma fexp_eq (k : Z) : SpecFloat.fexp prec emax k = fexp k.
Proof. reflexivity. Qed.

Lemma round_nearest_even_bounds (m : Z) (l : location) :
  m <= round_nearest_even m l <= m + 1.
Proof. destruct l as [|[]]; cbn; try destruct (Z.even m); lia. Qed.

(** The second shift of [binary_round_aux] only undoes a carry. *)
Lemma shr_fexp_carried (t m : Z) :
  emin <= t -> 0 <= m <= 2 ^ 53 -> (emin < t -> 2 ^ 52 <= m) ->
  let '(mrs, e) := shr_fexp prec emax m t loc_Exact in
  (shr_m mrs, e) = carried t m.
Proof.
  intros Ht Hm Hnormal. unfold shr_fexp, carried.
  rewrite fexp_eq. cbn [shr_record_of_loc].
  destruct (Z.eqb_spec m (2 ^ 53)) as [->|Hne].
  - replace (Zdigits2 (2 ^ 53)) with 54 by reflexivity.
    replace (fexp (54 + t) - t) with 1 by (unfold fexp, emin in *; lia).
    reflexivity.
  - assert (Hshift : fexp (Zdigits2 m + t) - t <= 0).
    { destruct (Z.eq_dec m 0) as [->|Hm0].
      - cbn [Zdigits2]. unfold fexp, emin in *. lia.
      - destruct (Zdigits2_bounds m ltac:(lia)) as [H1 [Hlo Hhi]].
        assert (Zdigits2 m <= 53).
        { destruct (Z.le_gt_cases (Zdigits2 m) 53) as [|Hgt]; [assumption|].
          assert (2 ^ 53 <= 2 ^ (Zdigits2 m - 1))
            by (apply Z.pow_le_mono_r; lia).
          lia. }
        unfold fexp, emin in *. lia. }
    destruct (fexp (Zdigits2 m + t) - t) as [|p|p]; try lia; reflexivity.
Qed.

(** [binary_round_aux] on a located number: the number is located at the
    exponent [t] of its magnitude, with a mantissa of at most 53 bits that
    has all of them unless [t] is the least exponent, and the result is that
    mantissa rounded to the nearest, to the even one on a tie. *)
Lemma binary_round_aux_spec (x : Q) (m e : Z) (l : location) :
  0 <= m ->
  located (x / pow2 e) m l ->
  e <= fexp (Zdigits2 m + e) ->
  exists t m' l',
    located (x / pow2 t) m' l'
    /\ 0 <= m' < 2 ^ 53
    /\ emin <= t
    /\ (emin < t -> 2 ^ 52 <= m')
    /\ binary_round_aux prec emax false m e l
       = pack (carried t (round_nearest_even m' l')).
Proof.
  intros Hm Hloc Hpre.
  unfold binary_round_aux.
  pose proof (shr_located x m e (fexp (Zdigits2 m + e) - e) l Hm Hloc)
    as Hshr.
  unfold shr_fexp at 1. rewrite fexp_eq.
  destruct (shr (shr_record_of_loc m l) e (fexp (Zdigits2 m + e) - e))
    as [mrs t].
  destruct Hshr as [Ht [Hm' Hloc']].
  replace (e + Z.max 0 (fexp (Zdigits2 m + e) - e))
    with (fexp (Zdigits2 m + e)) in Ht by lia.
  set (m' := shr_m mrs) in *. set (l' := loc_of_shr_record mrs) in *.
  assert (Hemin : emin <= t) by (subst t; unfold fexp; lia).
  assert (Hscale : (x / pow2 t == x / pow2 e * pow2 (e - t))%Q).
  { replace e with (t + (e - t)) at 1 by lia. rewrite pow2_plus.
    pose proof (pow2_pos t). pose proof (pow2_pos (e - t)).
    field. split; lra. }
  destruct (located_bounds _ _ _ Hloc) as [Hlo Hhi].
  destruct (located_bounds _ _ _ Hloc') as [Hlo' Hhi'].
  pose proof (pow2_pos (e - t)) as HP.
  rewrite Hscale in Hlo', Hhi'.
  set (y := (x / pow2 e)%Q) in *. set (P := pow2 (e - t)) in *.
  assert (Hbounds : 0 <= m' < 2 ^ 53 /\ (emin < t -> 2 ^ 52 <= m')).
  { destruct (Z.eq_dec m 0) as [->|Hm0].
    - (* nothing of the number is left of the point *)
      cbn [Zdigits2] in Ht, Hpre.
      assert (t = emin) by (unfold fexp, emin in *; lia).
      assert (Hle1 : (P <= pow2 0)%Q) by (apply pow2_le; lia).
      change (pow2 0) with 1%Q in Hle1. change (inject_Z 0) with 0%Q in *.
      assert (Hlt : (inject_Z m' < inject_Z 1)%Q).
      { change (inject_Z 1) with 1%Q. nra. }
      rewrite <- Zlt_Qlt in Hlt. split; [lia|]. lia.
    - destruct (Zdigits2_bounds m ltac:(lia)) as [H1 [Hdlo Hdhi]].
      set (d := Zdigits2 m) in *.
      assert (Hyhi : (y < pow2 d)%Q).
      { rewrite pow2_Z by lia. 
        assert (inject_Z m + 1 <= inject_Z (2 ^ d))%Q.
        { rewrite <- inject_Z_succ, <- Zle_Qle. lia. }
        lra. }
      assert (Hylo : (pow2 (d - 1) <= y)%Q).
      { rewrite pow2_Z by lia. 
        assert (inject_Z (2 ^ (d - 1)) <= inject_Z m)%Q
          by (rewrite <- Zle_Qle; lia).
        lra. }
      split; [split; [exact Hm'|]|].
      + assert (Hlt : (inject_Z m' < inject_Z (2 ^ 53))%Q).
        { rewrite <- pow2_Z by lia.
          assert (Hle : (pow2 (d + (e - t)) <= pow2 53)%Q)
            by (apply pow2_le; subst t; unfold fexp; lia).
          rewrite pow2_plus in Hle. fold P in Hle.
          pose proof (pow2_pos d). nra. }
        now rewrite <- Zlt_Qlt in Hlt.
      + intros Hnormal.
        assert (Ht53 : t = d + e - 53) by (unfold fexp in Ht; lia).
        assert (Hgt : (inject_Z (2 ^ 52) < inject_Z (m' + 1))%Q).
        { rewrite <- pow2_Z by lia. rewrite inject_Z_succ.
          assert (Heq : (pow2 (d - 1 + (e - t)) == pow2 52)%Q)
            by (replace (d - 1 + (e - t)) with 52 by lia; reflexivity).
          rewrite pow2_plus in Heq. fold P in Heq.
          pose proof (pow2_pos (d - 1)). nra. }
        rewrite <- Zlt_Qlt in Hgt. lia. }
  destruct Hbounds as [Hm'b Hnormal].
  pose proof (round_nearest_even_bounds m' l') as Hrne.
  pose proof (shr_fexp_carried t (round_nearest_even m' l') Hemin
                ltac:(lia) ltac:(lia)) as Hcarry.
  destruct (shr_fexp prec emax (round_nearest_even m' l') t loc_Exact)
    as [mrs'' e''].
  exists t, m', l'. repeat split; try assumption; try lia.
  unfold pack. rewrite <- Hcarry. reflexivity.
Qed.


(** *** Rounding is monotone *)

Lemma pack_le (m1 e1 m2 e2 : Z) :
  0 <= m1 -> 0 <= m2 ->
  m1 = 0 \/ (0 < m2 /\ (e1 < e2 \/ (e1 = e2 /\ m1 <= m2))) ->
  SFleb (pack (m1, e1)) (pack (m2, e2)) = true.
Proof.
  intros Hm1 Hm2 Hle. unfold pack. cbn [fst snd].
  destruct m1 as [|p1|p1]; [| |lia].
  - destruct m2 as [|p2|p2]; [reflexivity| |lia].
    destruct (e2 <=? 971); reflexivity.
  - destruct Hle as [Hzero|[Hpos Hle]]; [discriminate|].
    destruct m2 as [|p2|p2]; [lia| |lia].
    destruct (Z.leb_spec e1 971) as [H1|H1], (Z.leb_spec e2 971) as [H2|H2];
      try reflexivity.
    + unfold SFleb, SFcompare.
      destruct Hle as [Hlt|[-> Hle]].
      * apply Z.compare_lt_iff in Hlt. now rewrite Hlt.
      * rewrite Z.compare_refl.
        change (Pos.compare_cont Eq p1 p2) with (p1 ?= p2)%positive.
        destruct (p1 ?= p2)%positive eqn:Hcmp; try reflexivity.
        apply Pos.compare_gt_iff in Hcmp. lia.
    + lia.
Qed.

Lemma round_nearest_even_monotone (y1 y2 : Q) (m : Z) (l1 l2 : location) :
  located y1 m l1 -> located y2 m l2 -> (y1 <= y2)%Q ->
  round_nearest_even m l1 <= round_nearest_even m l2.
Proof.
  intros H1 H2 Hle.
  destruct l1 as [|[]], l2 as [|[]]; cbn [located round_nearest_even] in *;
    try destruct (Z.even m); try lia; exfalso; lra.
Qed.

Lemma scaled (x : Q) (t : Z) : (x == x / pow2 t * pow2 t)%Q.
Proof. pose proof (pow2_pos t). field. lra. Qed.

Lemma two_53 : (inject_Z (2 ^ 53) == 2 * inject_Z (2 ^ 52))%Q.
Proof. reflexivity. Qed.

Theorem rounds_to_monotone (x1 x2 : Q) (f1 f2 : spec_float) :
  rounds_to x1 f1 -> rounds_to x2 f2 -> (x1 <= x2)%Q ->
  SFleb f1 f2 = true.
Proof.
  intros (t1 & m1 & l1 & Hloc1 & Hm1 & Ht1 & Hn1 & ->)
         (t2 & m2 & l2 & Hloc2 & Hm2 & Ht2 & Hn2 & ->) Hle.
  destruct (located_bounds _ _ _ Hloc1) as [Hlo1 Hhi1].
  destruct (located_bounds _ _ _ Hloc2) as [Hlo2 Hhi2].
  pose proof (round_nearest_even_bounds m1 l1) as Hr1.
  pose proof (round_nearest_even_bounds m2 l2) as Hr2.
  pose proof (scaled x1 t1) as Hx1. pose proof (scaled x2 t2) as Hx2.
  pose proof (pow2_pos t1) as HP1. pose proof (pow2_pos t2) as HP2.
  assert (Hm1q : (inject_Z m1 < inject_Z (2 ^ 53))%Q)
    by (rewrite <- Zlt_Qlt; lia).
  assert (Hm2q : (inject_Z m2 + 1 <= inject_Z (2 ^ 53))%Q)
    by (rewrite <- inject_Z_succ, <- Zle_Qle; lia).
  pose proof two_53 as H53.
  assert (H52 : (0 < inject_Z (2 ^ 52))%Q) by reflexivity.
  (* the exponents are ordered as the numbers are *)
  assert (Htt : t1 <= t2).
  { destruct (Z.le_gt_cases t1 t2) as [|Hgt]; [assumption|exfalso].
    assert (Hq : (inject_Z (2 ^ 52) <= inject_Z m1)%Q)
      by (rewrite <- Zle_Qle; lia).
    assert (HPP : (2 * pow2 t2 <= pow2 t1)%Q).
    { rewrite <- pow2_succ. apply pow2_le. lia. }
    set (y1 := (x1 / pow2 t1)%Q) in *. set (y2 := (x2 / pow2 t2)%Q) in *.
    set (P1 := pow2 t1) in *. set (P2 := pow2 t2) in *.
    set (c := inject_Z (2 ^ 52)) in *. set (c' := inject_Z (2 ^ 53)) in *.
    nra. }
  unfold carried.
  destruct (Z.eqb_spec (round_nearest_even m1 l1) (2 ^ 53)) as [Hc1|Hc1],
           (Z.eqb_spec (round_nearest_even m2 l2) (2 ^ 53)) as [Hc2|Hc2];
    (apply pack_le; [lia|lia|]).
  - (* both carry *) right. lia.
  - (* only the smaller number carries: it is not at the same exponent *)
    right. destruct (Z.eq_dec t1 t2) as [Heq|Hne].
    + exfalso. subst t2.
      set (y1 := (x1 / pow2 t1)%Q) in *. set (y2 := (x2 / pow2 t1)%Q) in *.
      assert (Hy : (y1 <= y2)%Q).
      { set (P1 := pow2 t1) in *. nra. }
      assert (Hmm : m1 <= m2).
      { assert (Hq : (inject_Z m1 < inject_Z (m2 + 1))%Q)
          by (rewrite inject_Z_succ; lra).
        rewrite <- Zlt_Qlt in Hq. lia. }
      assert (m1 = m2) by lia. subst m2.
      pose proof (round_nearest_even_monotone _ _ _ _ _ Hloc1 Hloc2 Hy).
      lia.
    + split; [lia|]. assert (emin < t2) by lia. specialize (Hn2 ltac:(lia)).
      destruct (Z.eq_dec (t1 + 1) t2); [right|left]; lia.
  - (* only the larger number carries *) right. lia.
  - (* no carry *)
    destruct (Z.eq_dec (round_nearest_even m1 l1) 0) as [Hz|Hnz];
      [now left|right].
    destruct (Z.eq_dec t1 t2) as [Heq|Hne].
    + subst t2.
      set (y1 := (x1 / pow2 t1)%Q) in *. set (y2 := (x2 / pow2 t1)%Q) in *.
      assert (Hy : (y1 <= y2)%Q).
      { set (P1 := pow2 t1) in *. nra. }
      assert (Hmm : m1 <= m2).
      { assert (Hq : (inject_Z m1 < inject_Z (m2 + 1))%Q)
          by (rewrite inject_Z_succ; lra).
        rewrite <- Zlt_Qlt in Hq. lia. }
      destruct (Z.eq_dec m1 m2) as [Hmeq|Hmne].
      * subst m2.
        pose proof (round_nearest_even_monotone _ _ _ _ _ Hloc1 Hloc2 Hy).
        split; [lia|]. right. lia.
      * split; [lia|]. right. lia.
    + assert (emin < t2) by lia. specialize (Hn2 ltac:(lia)).
      split; [lia|]. left. lia.
Qed.


(** *** The numbers of the format *)

Lemma value_pos (m : positive) (e : Z) : (0 < value m e)%Q.
Proof.
  unfold value. pose proof (pow2_pos e).
  assert (0 < inject_Z (Z.pos m))%Q by reflexivity.
  nra.
Qed.

(** What [valid_binary] says of a finite number. *)
Lemma valid_finite (s : bool) (m : positive) (e : Z) :
  valid_binary prec emax (S754_finite s m e) = true ->
  Z.pos m < 2 ^ 53
  /\ emin <= e <= 971
  /\ (emin < e -> 2 ^ 52 <= Z.pos m)
  /\ fexp (Zdigits2 (Z.pos m) + e) = e.
Proof.
  cbn [valid_binary]. unfold bounded, canonical_mantissa.
  rewrite fexp_eq. intros Hvalid.
  apply andb_prop in Hvalid. destruct Hvalid as [Hcanon Hemax].
  apply Z.eqb_eq in Hcanon. apply Z.leb_le in Hemax.
  change (Z.pos (digits2_pos m)) with (Zdigits2 (Z.pos m)) in Hcanon.
  destruct (Zdigits2_bounds (Z.pos m) ltac:(lia)) as [H1 [Hlo Hhi]].
  set (d := Zdigits2 (Z.pos m)) in *.
  change (emax - prec) with 971 in Hemax.
  assert (Hd : d <= 53) by (unfold fexp, emin in Hcanon; lia).
  split; [|split; [|split]].
  - assert (2 ^ d <= 2 ^ 53) by (apply Z.pow_le_mono_r; lia). lia.
  - unfold fexp, emin in *. lia.
  - intros Hnormal.
    assert (d = 53) by (unfold fexp, emin in *; lia).
    replace (2 ^ 52) with (2 ^ (d - 1)) by (f_equal; lia). exact Hlo.
  - exact Hcanon.
Qed.

Lemma located_exact (m : positive) (e : Z) :
  located (value m e / pow2 e) (Z.pos m) loc_Exact.
Proof.
  cbn [located]. unfold value. pose proof (pow2_pos e). field. lra.
Qed.

(** A number of the format is its own rounding. *)
Lemma rounds_to_itself (m : positive) (e : Z) :
  valid_binary prec emax (S754_finite false m e) = true ->
  rounds_to (value m e) (S754_finite false m e).
Proof.
  intros Hvalid.
  destruct (valid_finite _ _ _ Hvalid) as (Hm & He & Hnormal & Hcanon).
  exists e, (Z.pos m), loc_Exact.
  split; [apply located_exact|]. split; [lia|]. split; [lia|].
  split; [exact Hnormal|].
  cbn [round_nearest_even]. unfold carried.
  destruct (Z.eqb_spec (Z.pos m) (2 ^ 53)) as [Heq|_]; [lia|].
  unfold pack. cbn [fst snd].
  destruct (Z.leb_spec e 971); [reflexivity|lia].
Qed.

(** Among the numbers of the format, [SFleb] is the order of the values. *)
Lemma SFleb_value (m1 : positive) (e1 : Z) (m2 : positive) (e2 : Z) :
  valid_binary prec emax (S754_finite false m1 e1) = true ->
  valid_binary prec emax (S754_finite false m2 e2) = true ->
  SFleb (S754_finite false m1 e1) (S754_finite false m2 e2) = true ->
  (value m1 e1 <= value m2 e2)%Q.
Proof.
  intros Hv1 Hv2 Hle.
  destruct (valid_finite _ _ _ Hv1) as (Hm1 & He1 & Hn1 & _).
  destruct (valid_finite _ _ _ Hv2) as (Hm2 & He2 & Hn2 & _).
  unfold SFleb, SFcompare in Hle. unfold value.
  pose proof (pow2_pos e1) as HP1. pose proof (pow2_pos e2) as HP2.
  destruct (e1 ?= e2) eqn:Hcmp.
  - apply Z.compare_eq in Hcmp. subst e2.
    change (Pos.compare_cont Eq m1 m2) with (m1 ?= m2)%positive in Hle.
    assert (Hmm : (inject_Z (Z.pos m1) <= inject_Z (Z.pos m2))%Q).
    { rewrite <- Zle_Qle.
      destruct (m1 ?= m2)%positive eqn:Hm; try discriminate.
      - apply Pos.compare_eq in Hm. rewrite Hm. apply Z.le_refl.
      - apply Pos.compare_lt_iff in Hm. apply Z.lt_le_incl.
        now apply Pos2Z.pos_lt_pos. }
    set (P := pow2 e1) in *. nra.
  - change (e1 < e2) in Hcmp.
    assert (Hq1 : (inject_Z (Z.pos m1) < inject_Z (2 ^ 53))%Q)
      by (rewrite <- Zlt_Qlt; lia).
    assert (Hq2 : (inject_Z (2 ^ 52) <= inject_Z (Z.pos m2))%Q)
      by (rewrite <- Zle_Qle; apply Hn2; lia).
    assert (HPP : (2 * pow2 e1 <= pow2 e2)%Q).
    { rewrite <- pow2_succ. apply pow2_le. lia. }
    pose proof two_53 as H53.
    assert (H52 : (0 < inject_Z (2 ^ 52))%Q) by reflexivity.
    set (P1 := pow2 e1) in *. set (P2 := pow2 e2) in *.
    set (c := inject_Z (2 ^ 52)) in *. set (c' := inject_Z (2 ^ 53)) in *.
    set (q1 := inject_Z (Z.pos m1)) in *.
    set (q2 := inject_Z (Z.pos m2)) in *.
    nra.
  - discriminate.
Qed.


(** *** Division *)

Lemma fexp_monotone (a b : Z) : a <= b -> fexp a <= fexp b.
Proof. unfold fexp. lia. Qed.

(** Where [k / nb] lies in [[0, 1)]. *)
Lemma new_location_located (nb k : Z) (y : Q) (q : Z) :
  0 <= k < nb ->
  (y * inject_Z nb == inject_Z q * inject_Z nb + inject_Z k)%Q ->
  located y q (new_location nb k).
Proof.
  intros Hk Hy.
  assert (Hnb : (0 < inject_Z nb)%Q) by (apply inject_Z_pos; lia).
  assert (Hk0 : (0 <= inject_Z k)%Q) by (apply inject_Z_nonneg; lia).
  unfold new_location, new_location_even, new_location_odd.
  set (N := inject_Z nb) in *. set (K := inject_Z k) in *.
  set (q' := inject_Z q) in *.
  assert (Hcases : forall c, (2 * k ?= nb) = c ->
            match c with
            | Lt => (2 * K < N)%Q | Eq => (2 * K == N)%Q | Gt => (N < 2 * K)%Q
            end).
  { intros c Hc. subst K N.
    change 2%Q with (inject_Z 2). rewrite <- inject_Z_mult.
    destruct c.
    - apply Z.compare_eq in Hc. now rewrite Hc.
    - change (2 * k < nb) in Hc. now rewrite <- Zlt_Qlt.
    - apply Z.compare_gt_iff in Hc. now rewrite <- Zlt_Qlt. }
  assert (Hsolve : forall l,
            match l with
            | loc_Exact => (K == 0)%Q
            | loc_Inexact Lt => (0 < K /\ 2 * K < N)%Q
            | loc_Inexact Eq => (2 * K == N)%Q
            | loc_Inexact Gt => (N < 2 * K /\ K < N)%Q
            end -> located y q l).
  { intros l Hl. fold q'.
    destruct l as [|[]]; cbn [located]; fold q';
      try (apply Qle_antisym); nra. }
  assert (HKN : (K < N)%Q) by (subst K N; rewrite <- Zlt_Qlt; lia).
  assert (HKzero : k = 0 -> (K == 0)%Q) by (intros Hz; subst K; now rewrite Hz).
  assert (HKpos : k <> 0 -> (0 < K)%Q)
    by (intros Hnz; subst K; apply inject_Z_pos; lia).
  destruct (Z.even nb) eqn:Heven; cbv beta;
    (destruct (Z.eqb_spec k 0) as [Hz|Hnz];
     [apply Hsolve; exact (HKzero Hz)|specialize (HKpos Hnz)]).
  - specialize (Hcases _ eq_refl).
    destruct (2 * k ?= nb); apply Hsolve; try split; assumption.
  - assert (Hodd : 2 * k <> nb).
    { intros Heq. rewrite <- Heq, Z.even_mul in Heven. discriminate. }
    destruct (2 * k + 1 ?= nb) eqn:Hc.
    + apply Z.compare_eq in Hc.
      assert (H2 : (2 * k ?= nb) = Lt) by (apply Z.compare_lt_iff; lia).
      specialize (Hcases _ H2). apply Hsolve. now split.
    + change (2 * k + 1 < nb) in Hc.
      assert (H2 : (2 * k ?= nb) = Lt) by (apply Z.compare_lt_iff; lia).
      specialize (Hcases _ H2). apply Hsolve. now split.
    + apply Z.compare_gt_iff in Hc.
      assert (H2 : (2 * k ?= nb) = Gt) by (apply Z.compare_gt_iff; lia).
      specialize (Hcases _ H2). apply Hsolve. now split.
Qed.

(** The quotient of two finite numbers, located and precise enough. *)
Lemma SFdiv_core_binary_spec (mx my : positive) (ex ey : Z) :
  let '(mz, ez, lz) :=
    SFdiv_core_binary prec emax (Z.pos mx) ex (Z.pos my) ey in
  0 <= mz
  /\ located (value mx ex / value my ey / pow2 ez) mz lz
  /\ ez <= fexp (Zdigits2 mz + ez).
Proof.
  unfold SFdiv_core_binary. rewrite fexp_eq.
  destruct (Zdigits2_bounds (Z.pos mx) ltac:(lia)) as [Hd1 [Hlo1 Hhi1]].
  destruct (Zdigits2_bounds (Z.pos my) ltac:(lia)) as [Hd2 [Hlo2 Hhi2]].
  set (d1 := Zdigits2 (Z.pos mx)) in *. set (d2 := Zdigits2 (Z.pos my)) in *.
  set (D := d1 + ex - (d2 + ey)).
  set (e' := Z.min (fexp D) (ex - ey)).
  set (s := ex - ey - e').
  assert (Hs : 0 <= s) by (subst s e'; lia).
  set (m' := match s with
             | 0 => Z.pos mx
             | Z.pos _ => Z.shiftl (Z.pos mx) s
             | Z.neg _ => 0
             end).
  assert (Hm' : m' = Z.pos mx * 2 ^ s).
  { subst m'. destruct s as [|p|p] eqn:Hsp; [lia| |lia].
    rewrite Z.shiftl_mul_pow2 by lia. reflexivity. }
  pose proof (Z_div_mod m' (Z.pos my) ltac:(lia)) as Hdiv.
  destruct (Z.div_eucl m' (Z.pos my)) as [q r].
  destruct Hdiv as [Hqr Hr].
  assert (Hpow : 0 < 2 ^ s) by (apply Z.pow_pos_nonneg; lia).
  assert (Hq : 0 <= q) by nia.
  split; [exact Hq|]. split.
  - apply new_location_located; [lia|].
    rewrite <- inject_Z_mult, <- inject_Z_plus.
    replace (q * Z.pos my + r) with m' by lia. rewrite Hm'.
    rewrite inject_Z_mult, <- (pow2_Z s) by lia.
    unfold value.
    replace ex with (s + e' + ey) at 1 by (subst s; lia).
    rewrite !pow2_plus.
    pose proof (pow2_pos e'). pose proof (pow2_pos ey).
    assert (0 < inject_Z (Z.pos my))%Q by reflexivity.
    field. repeat split; lra.
  - (* enough digits are computed *)
    destruct (Z.eq_dec q 0) as [->|Hq0].
    + cbn [Zdigits2].
      assert (Hlt : Z.pos mx * 2 ^ s < 2 ^ d2) by lia.
      assert (Hge : 2 ^ (d1 - 1 + s) <= Z.pos mx * 2 ^ s).
      { rewrite Z.pow_add_r by lia. nia. }
      assert (d1 - 1 + s < d2).
      { apply (Z.pow_lt_mono_r_iff 2); lia. }
      assert (D <= e') by (subst D s; lia).
      subst e'. unfold fexp, emin in *. lia.
    + destruct (Zdigits2_bounds q ltac:(lia)) as [Hdq [Hloq Hhiq]].
      set (dq := Zdigits2 q) in *.
      apply Z.le_trans with (fexp D); [subst e'; lia|].
      apply fexp_monotone.
      (* the quotient has at least [d1 + s - d2] digits *)
      assert (Hdigits : d1 + s - d2 <= dq).
      { destruct (Z.le_gt_cases (d1 + s - d2) dq) as [|Hgt]; [assumption|].
        exfalso.
        assert (H1 : 2 ^ dq * 2 ^ d2 <= 2 ^ (d1 - 1 + s)).
        { rewrite <- Z.pow_add_r by lia. apply Z.pow_le_mono_r; lia. }
        assert (H2 : 2 ^ (d1 - 1 + s) <= Z.pos mx * 2 ^ s).
        { rewrite Z.pow_add_r by lia. nia. }
        assert (H3 : m' < (q + 1) * Z.pos my) by lia.
        assert (H4 : (q + 1) * Z.pos my < 2 ^ dq * 2 ^ d2).
        { assert (0 < 2 ^ dq) by (apply Z.pow_pos_nonneg; lia).
          assert (0 < 2 ^ d2) by (apply Z.pow_pos_nonneg; lia).
          nia. }
        lia. }
      subst D s. lia.
Qed.

Lemma SFdiv_rounds (mx my : positive) (ex ey : Z) :
  rounds_to (value mx ex / value my ey)
    (SFdiv prec emax (S754_finite false mx ex) (S754_finite false my ey)).
Proof.
  cbn [SFdiv xorb].
  pose proof (SFdiv_core_binary_spec mx my ex ey) as Hcore.
  destruct (SFdiv_core_binary prec emax (Z.pos mx) ex (Z.pos my) ey)
    as [[mz ez] lz].
  destruct Hcore as (Hmz & Hloc & Hpre).
  exact (binary_round_aux_spec _ mz ez lz Hmz Hloc Hpre).
Qed.


(** *** Multiplication *)

Lemma Zdigits2_mul (a b : Z) :
  0 < a -> 0 < b -> Zdigits2 a + Zdigits2 b - 1 <= Zdigits2 (a * b).
Proof.
  intros Ha Hb.
  destruct (Zdigits2_bounds a Ha) as [Hda [Hloa Hhia]].
  destruct (Zdigits2_bounds b Hb) as [Hdb [Hlob Hhib]].
  destruct (Zdigits2_bounds (a * b) ltac:(nia)) as [Hdp [Hlop Hhip]].
  set (da := Zdigits2 a) in *. set (db := Zdigits2 b) in *.
  set (dp := Zdigits2 (a * b)) in *.
  destruct (Z.le_gt_cases (da + db - 1) dp) as [|Hgt]; [assumption|exfalso].
  assert (H1 : 2 ^ dp <= 2 ^ (da - 1 + (db - 1)))
    by (apply Z.pow_le_mono_r; lia).
  rewrite Z.pow_add_r in H1 by lia.
  assert (0 < 2 ^ (da - 1)) by (apply Z.pow_pos_nonneg; lia).
  assert (0 < 2 ^ (db - 1)) by (apply Z.pow_pos_nonneg; lia).
  nia.
Qed.

Lemma SFmul_rounds (mx my : positive) (ex ey : Z) :
  valid_binary prec emax (S754_finite false mx ex) = true ->
  valid_binary prec emax (S754_finite false my ey) = true ->
  rounds_to (value mx ex * value my ey)
    (SFmul prec emax (S754_finite false mx ex) (S754_finite false my ey)).
Proof.
  intros Hvx Hvy. cbn [SFmul xorb].
  destruct (valid_finite _ _ _ Hvx) as (Hmx & Hex & Hnx & Hcx).
  destruct (valid_finite _ _ _ Hvy) as (Hmy & Hey & Hny & Hcy).
  apply binary_round_aux_spec; [lia| |].
  - cbn [located]. unfold value. rewrite Pos2Z.inj_mul, inject_Z_mult.
    rewrite pow2_plus.
    pose proof (pow2_pos ex). pose proof (pow2_pos ey).
    field. split; lra.
  - pose proof (Zdigits2_mul (Z.pos mx) (Z.pos my) ltac:(lia) ltac:(lia))
      as Hd.
    rewrite Pos2Z.inj_mul.
    destruct (Zdigits2_bounds (Z.pos mx) ltac:(lia)) as [Hdx _].
    destruct (Zdigits2_bounds (Z.pos my) ltac:(lia)) as [Hdy _].
    unfold fexp, emin in *. lia.
Qed.

(** *** Rounding an integer mantissa: [binary_round] *)

Lemma iter_xO (m d : positive) :
  Z.pos (Pos.iter xO m d) = Z.pos m * 2 ^ Z.pos d.
Proof.
  rewrite <- Z.shiftl_mul_pow2 by lia. cbn [Z.shiftl].
  induction d as [|d IH] using Pos.peano_ind.
  - reflexivity.
  - rewrite !Pos.iter_succ, <- IH. reflexivity.
Qed.

Lemma Zdigits2_shift (m d : Z) :
  0 < m -> 0 <= d -> Zdigits2 (m * 2 ^ d) = Zdigits2 m + d.
Proof.
  intros Hm Hd.
  destruct (Zdigits2_bounds m Hm) as [Hdm [Hlo Hhi]].
  assert (0 < 2 ^ d) by (apply Z.pow_pos_nonneg; lia).
  apply Zdigits2_unique; [|lia].
  replace (Zdigits2 m + d - 1) with (Zdigits2 m - 1 + d) by lia.
  rewrite !Z.pow_add_r by lia. nia.
Qed.

(** [shl_align] to a smaller exponent keeps the value. *)
Lemma shl_align_spec (mx : positive) (ex ex' : Z) :
  let '(mz, ez) := shl_align mx ex ex' in
  ez = Z.min ex ex' /\ Z.pos mz = Z.pos mx * 2 ^ (ex - ez).
Proof.
  unfold shl_align.
  destruct (ex' - ex) as [|d|d] eqn:Hd.
  - split; [lia|]. rewrite Z.sub_diag. lia.
  - split; [lia|]. rewrite Z.sub_diag. lia.
  - split; [lia|]. rewrite iter_xO. f_equal. f_equal. lia.
Qed.

Lemma value_shift (m m' : positive) (e e' : Z) :
  e' <= e -> Z.pos m' = Z.pos m * 2 ^ (e - e') ->
  (value m' e' == value m e)%Q.
Proof.
  intros He Hm. unfold value. rewrite Hm, inject_Z_mult.
  rewrite <- pow2_Z by lia.
  replace e with (e - e' + e') at 2 by lia. rewrite pow2_plus. ring.
Qed.

Lemma rounds_to_comp (x x' : Q) (f : spec_float) :
  (x == x')%Q -> rounds_to x f -> rounds_to x' f.
Proof.
  intros Hx (t & m & l & Hloc & H).
  exists t, m, l. split; [|exact H].
  refine (located_comp _ _ _ _ _ Hloc). now rewrite Hx.
Qed.

Lemma binary_round_rounds (mx : positive) (ex : Z) :
  rounds_to (value mx ex) (binary_round prec emax false mx ex).
Proof.
  unfold binary_round. rewrite fexp_eq.
  change (Z.pos (digits2_pos mx)) with (Zdigits2 (Z.pos mx)).
  pose proof (shl_align_spec mx ex (fexp (Zdigits2 (Z.pos mx) + ex))) as Hal.
  destruct (shl_align mx ex (fexp (Zdigits2 (Z.pos mx) + ex))) as [mz ez].
  destruct Hal as [Hez Hmz].
  apply (rounds_to_comp (value mz ez)); [apply value_shift; [lia|exact Hmz]|].
  apply binary_round_aux_spec; [lia|apply located_exact|].
  rewrite Hmz, Zdigits2_shift by lia.
  replace (Zdigits2 (Z.pos mx) + (ex - ez) + ez)
    with (Zdigits2 (Z.pos mx) + ex) by lia.
  lia.
Qed.

(** *** Addition *)

Lemma SFadd_rounds (mx my : positive) (ex ey : Z) :
  rounds_to (value mx ex + value my ey)
    (SFadd prec emax (S754_finite false mx ex) (S754_finite false my ey)).
Proof.
  cbn [SFadd cond_Zopp].
  pose proof (shl_align_spec mx ex (Z.min ex ey)) as Hx.
  pose proof (shl_align_spec my ey (Z.min ex ey)) as Hy.
  destruct (shl_align mx ex (Z.min ex ey)) as [mx' ex'].
  destruct (shl_align my ey (Z.min ex ey)) as [my' ey'].
  destruct Hx as [Hex' Hmx']. destruct Hy as [Hey' Hmy'].
  cbn [fst]. cbn [Z.add binary_normalize].
  apply (rounds_to_comp (value (mx' + my') (Z.min ex ey)));
    [|apply binary_round_rounds].
  rewrite <- (value_shift mx mx' ex ex') by (lia || exact Hmx').
  rewrite <- (value_shift my my' ey ey') by (lia || exact Hmy').
  replace ex' with (Z.min ex ey) by lia.
  replace ey' with (Z.min ex ey) by lia.
  unfold value. rewrite Pos2Z.inj_add, inject_Z_plus. ring.
Qed.


(** *** Numbers that are not negative *)

Lemma pack_nonneg (m e : Z) : 0 <= m -> nonneg (pack (m, e)).
Proof.
  intros Hm. unfold pack. cbn [fst snd].
  destruct m as [|p|p]; [exact I| |lia].
  destruct (e <=? 971); exact I.
Qed.

Lemma rounds_to_nonneg (x : Q) (f : spec_float) : rounds_to x f -> nonneg f.
Proof.
  intros (t & m & l & _ & Hm & _ & _ & ->).
  pose proof (round_nearest_even_bounds m l).
  unfold carried. destruct (_ =? _); apply pack_nonneg; lia.
Qed.

Lemma SFleb_zero_l (s : bool) (f : spec_float) :
  nonneg f -> SFleb (S754_zero s) f = true.
Proof. destruct f as [s'|[]| |[] m e]; cbn; intros []; reflexivity. Qed.


Lemma SFleb_refl (f : spec_float) : nonneg f -> SFleb f f = true.
Proof.
  destruct f as [s'|[]| |[] m e]; cbn; intros []; try reflexivity.
  unfold SFleb, SFcompare. rewrite Z.compare_refl.
  change (Pos.compare_cont Eq m m) with (m ?= m)%positive.
  now rewrite Pos.compare_refl.
Qed.

(** Above a positive number there are only positive numbers. *)
Lemma SFleb_positive (f g : spec_float) :
  is_positive f -> nonneg g -> SFleb f g = true -> is_positive g.
Proof.
  destruct f as [s|[]| |[] m e]; cbn; try contradiction;
    destruct g as [s'|[]| |[] m' e']; cbn; try contradiction;
    intros _ _ Hle; try exact I; discriminate.
Qed.

(** Below a finite number there is no infinity. *)
Lemma SFleb_finite (f g : spec_float) :
  nonneg f -> finite_nonneg g -> SFleb f g = true -> finite_nonneg f.
Proof.
  destruct f as [s|[]| |[] m e]; cbn; try contradiction;
    destruct g as [s'|[]| |[] m' e']; cbn; try contradiction;
    intros _ _ Hle; try exact I; discriminate.
Qed.

Lemma rounds_to_zero : rounds_to 0 (S754_zero false).
Proof.
  exists emin, 0, loc_Exact. cbn [located round_nearest_even].
  split; [|repeat split; try lia; reflexivity].
  pose proof (pow2_pos emin). change (inject_Z 0) with 0%Q. field. lra.
Qed.

Lemma value_of_nonneg (f : spec_float) : (0 <= value_of f)%Q.
Proof.
  destruct f as [s|s| |[] m e]; cbn; try lra.
  apply Qlt_le_weak, value_pos.
Qed.

(** A valid number that is zero or positive and finite is the rounding of
    its value, whatever the sign of the zero. *)
Lemma SFleb_rounds_l (f g : spec_float) (x : Q) :
  valid_binary prec emax f = true -> finite_nonneg f ->
  rounds_to x g -> (value_of f <= x)%Q -> SFleb f g = true.
Proof.
  intros Hvalid Hf Hg Hle.
  destruct f as [s|s| |[] m e]; cbn in Hf; try contradiction.
  - apply SFleb_zero_l. exact (rounds_to_nonneg _ _ Hg).
  - exact (rounds_to_monotone _ _ _ _ (rounds_to_itself m e Hvalid) Hg Hle).
Qed.

Lemma SFleb_value_of (f g : spec_float) :
  valid_binary prec emax f = true -> valid_binary prec emax g = true ->
  finite_nonneg f -> finite_nonneg g -> SFleb f g = true ->
  (value_of f <= value_of g)%Q.
Proof.
  intros Hvf Hvg Hf Hg Hle.
  destruct f as [s|s| |[] m e]; cbn in Hf; try contradiction;
    destruct g as [s'|s'| |[] m' e']; cbn in Hg; try contradiction;
    cbn [value_of].
  - lra.
  - apply Qlt_le_weak, value_pos.
  - discriminate.
  - now apply SFleb_value.
Qed.


End Rounding.

(** ** The order of binary64 numbers under the operations of the source *)

Module Binary64Order.

Local Unset Implicit Arguments.

Import SpecFloat Binary64Format Rounding.
Local Open Scope float_scope.

Lemma one_rounds : rounds_to 1 (S754_finite false (2 ^ 52) (-52)).
Proof.
  apply (rounds_to_comp (value (2 ^ 52) (-52))); [reflexivity|].
  apply rounds_to_itself. reflexivity.
Qed.



(** A positive finite number divided by a larger number is finite. *)
Lemma div_finite (a T : float) (m : positive) (e : Z) :
  Prim2SF a = S754_finite false m e ->
  is_positive (Prim2SF T) ->
  (a <=? T) = true ->
  finite_nonneg (Prim2SF (a / T)).
Proof.
  intros Ha HT Hle.
  pose proof (Prim2SF_valid a) as Hva. pose proof (Prim2SF_valid T) as HvT.
  rewrite leb_spec in Hle. rewrite div_spec. unfold SF64div.
  rewrite Ha in *.
  destruct (Prim2SF T) as [s|[]| |[] mT eT]; cbn in HT; try contradiction.
  - exact I.
  - pose proof (SFdiv_rounds m mT e eT) as Hq.
    apply (SFleb_finite _ (S754_finite false (2 ^ 52) (-52)));
      [exact (rounds_to_nonneg _ _ Hq)|exact I|].
    apply (rounds_to_monotone _ _ _ _ Hq one_rounds).
    pose proof (SFleb_value _ _ _ _ Hva HvT Hle) as Hval.
    pose proof (value_pos mT eT) as HT0.
    apply Qle_shift_div_r; [exact HT0|]. lra.
Qed.

Lemma div_nonneg (a T : float) (m : positive) (e : Z) :
  Prim2SF a = S754_finite false m e ->
  is_positive (Prim2SF T) ->
  nonneg (Prim2SF (a / T)).
Proof.
  intros Ha HT. rewrite div_spec. unfold SF64div. rewrite Ha.
  destruct (Prim2SF T) as [s|[]| |[] mT eT]; cbn in HT; try contradiction.
  - exact I.
  - exact (rounds_to_nonneg _ _ (SFdiv_rounds m mT e eT)).
Qed.

(** The product by a finite number that is not negative. *)
Lemma mul_nonneg (q G : float) :
  finite_nonneg (Prim2SF q) -> finite_nonneg (Prim2SF G) ->
  nonneg (Prim2SF (q * G)).
Proof.
  intros Hq HG.
  pose proof (Prim2SF_valid q) as Hvq. pose proof (Prim2SF_valid G) as HvG.
  rewrite mul_spec. unfold SF64mul.
  destruct (Prim2SF q) as [s|s| |[] m e]; cbn in Hq; try contradiction;
    destruct (Prim2SF G) as [s'|s'| |[] m' e']; cbn in HG;
    try contradiction; try exact I.
  exact (rounds_to_nonneg _ _ (SFmul_rounds _ _ _ _ Hvq HvG)).
Qed.



(** *** [Math.round] *)

Import Binary64.

Lemma float_of_Z_rounds (r : Z) :
  (0 < r < 2 ^ 63)%Z -> rounds_to (inject_Z r) (Prim2SF (float_of_Z r)).
Proof.
  intros Hr. unfold float_of_Z.
  destruct (Z.ltb_spec r 0) as [|_]; [lia|].
  rewrite of_uint63_spec, Uint63.of_Z_spec.
  rewrite Z.mod_small by (change Uint63.wB with (2 ^ 63)%Z; lia).
  destruct r as [|p|p]; [lia| |lia].
  cbn [binary_normalize].
  apply (rounds_to_comp (value p 0)); [|apply binary_round_rounds].
  unfold value. change (pow2 0) with 1%Q. ring.
Qed.

Lemma nearest_integer_bounds (m : positive) (e : Z) :
  (e < 0)%Z -> (Z.pos m < 2 ^ 53)%Z ->
  (0 <= nearest_integer m e <= 2 ^ 52)%Z.
Proof.
  intros He Hm. unfold nearest_integer.
  assert (Hd : (2 <= 2 ^ (- e))%Z).
  { change 2%Z with (2 ^ 1)%Z at 1. apply Z.pow_le_mono_r; lia. }
  set (d := (2 ^ (- e))%Z) in *.
  split.
  - apply Z.div_pos; lia.
  - apply Z.div_le_upper_bound; [lia|].
    change (2 ^ 53)%Z with (2 * 2 ^ 52)%Z in Hm. nia.
Qed.

Lemma Math_round_negative_exponent (p : float) (m : positive) (e : Z) :
  Prim2SF p = S754_finite false m e -> (e < 0)%Z ->
  rounds_to (inject_Z (nearest_integer m e)) (Prim2SF (Math_round p)).
Proof.
  intros Hp He.
  pose proof (Prim2SF_valid p) as Hvalid. rewrite Hp in Hvalid.
  destruct (valid_finite _ _ _ Hvalid) as (Hm & _).
  pose proof (nearest_integer_bounds m e He Hm) as Hr.
  unfold Math_round. rewrite Hp.
  destruct (Z.leb_spec 0 e) as [|_]; [lia|].
  fold (nearest_integer m e).
  destruct (Z.eqb_spec (nearest_integer m e) 0) as [->|Hnz].
  - exact rounds_to_zero.
  - apply float_of_Z_rounds.
    assert (2 ^ 52 < 2 ^ 63)%Z by reflexivity. lia.
Qed.

Lemma Math_round_integral (p : float) :
  match Prim2SF p with
  | S754_finite _ _ e => (0 <= e)%Z
  | _ => True
  end ->
  Math_round p = p.
Proof.
  unfold Math_round. destruct (Prim2SF p) as [s|s| |s m e]; try reflexivity.
  intros He. destruct (Z.leb_spec 0 e); [reflexivity|lia].
Qed.

Lemma Math_round_nonneg (p : float) :
  nonneg (Prim2SF p) -> nonneg (Prim2SF (Math_round p)).
Proof.
  intros Hp.
  destruct (Prim2SF p) as [s|s| |s m e] eqn:Hsf;
    try (rewrite Math_round_integral, Hsf; [exact Hp|rewrite Hsf; exact I]).
  destruct s; [contradiction|].
  destruct (Z.le_gt_cases 0 e) as [He|He].
  - rewrite Math_round_integral, Hsf; [exact I|now rewrite Hsf].
  - exact (rounds_to_nonneg _ _ (Math_round_negative_exponent p m e Hsf He)).
Qed.







(** *** Sums of positive numbers *)

(** Adding a positive finite number gives a positive number above both
    terms. *)
Lemma add_positive (acc b : float) (m : positive) (e : Z) :
  nonneg (Prim2SF acc) ->
  Prim2SF b = S754_finite false m e ->
  is_positive (Prim2SF (acc + b))
  /\ (b <=? acc + b) = true
  /\ (forall a m' e',
        Prim2SF a = S754_finite false m' e' ->
        (a <=? acc) = true -> (a <=? acc + b) = true).
Proof.
  intros Hacc Hb.
  pose proof (Prim2SF_valid acc) as Hvacc.
  pose proof (Prim2SF_valid b) as Hvb. rewrite Hb in Hvb.
  assert (Hsum : nonneg (Prim2SF (acc + b))
                 /\ SFleb (Prim2SF b) (Prim2SF (acc + b)) = true
                 /\ (forall a m' e',
                       Prim2SF a = S754_finite false m' e' ->
                       (a <=? acc) = true -> (a <=? acc + b) = true)).
  { rewrite add_spec. unfold SF64add. rewrite Hb.
    destruct (Prim2SF acc) as [s|s| |s ma ea] eqn:Hsf;
      cbn in Hacc; try contradiction.
    - cbn [SFadd]. split; [exact I|]. split; [now apply SFleb_refl|].
      intros a m' e' Ha Hle. rewrite leb_spec, Ha, Hsf in Hle. discriminate.
    - destruct s; [contradiction|]. cbn [SFadd].
      split; [exact I|]. split; [reflexivity|].
      intros a m' e' Ha _. rewrite leb_spec, add_spec. unfold SF64add.
      rewrite Ha, Hsf, Hb. reflexivity.
    - destruct s; [contradiction|].
      pose proof (SFadd_rounds ma m ea e) as Hrounds.
      split; [exact (rounds_to_nonneg _ _ Hrounds)|]. split.
      + apply (rounds_to_monotone _ _ _ _ (rounds_to_itself m e Hvb) Hrounds).
        pose proof (value_pos ma ea). lra.
      + intros a m' e' Ha Hle.
        pose proof (Prim2SF_valid a) as Hva. rewrite Ha in Hva.
        rewrite leb_spec, Ha, Hsf in Hle.
        rewrite leb_spec, add_spec. unfold SF64add. rewrite Ha, Hsf, Hb.
        apply (rounds_to_monotone _ _ _ _ (rounds_to_itself m' e' Hva)
                 Hrounds).
        pose proof (SFleb_value _ _ _ _ Hva Hvacc Hle).
        pose proof (value_pos m e). lra. }
  destruct Hsum as (Hnonneg & Hle & Hkeep).
  split; [|split; [now rewrite leb_spec|exact Hkeep]].
  apply (SFleb_positive (Prim2SF b)); [now rewrite Hb|exact Hnonneg|exact Hle].
Qed.

(** The sum of positive finite numbers, added from the left, is above each
    of them. *)
Lemma sum_above (xs : list float) (acc : float) :
  nonneg (Prim2SF acc) ->
  (forall x, List.In x xs -> positive_finite x) ->
  nonneg (Prim2SF (List.fold_left PrimFloat.add xs acc))
  /\ (forall a, positive_finite a ->
        (a <=? acc) = true \/ List.In a xs ->
        is_positive (Prim2SF (List.fold_left PrimFloat.add xs acc))
        /\ (a <=? List.fold_left PrimFloat.add xs acc) = true).
Proof.
  revert acc. induction xs as [|b rest IH]; intros acc Hacc Hall.
  - cbn. split; [exact Hacc|].
    intros a (m & e & Ha) [Hle|[]]. split; [|exact Hle].
    apply (SFleb_positive (Prim2SF a)); [now rewrite Ha|exact Hacc|].
    now rewrite <- leb_spec.
  - cbn [List.fold_left].
    destruct (Hall b (or_introl eq_refl)) as (mb & eb & Hb).
    destruct (add_positive acc b mb eb Hacc Hb) as (Hpos & Hble & Hkeep).
    assert (Hacc' : nonneg (Prim2SF (acc + b))).
    { destruct (Prim2SF (acc + b)) as [s|[]| |[] m e]; cbn in Hpos;
        try contradiction; exact I. }
    destruct (IH (acc + b) Hacc'
                (fun x Hx => Hall x (or_intror Hx))) as [Hnonneg Habove].
    split; [exact Hnonneg|].
    intros a Ha [Hle|[<-|Hin]].
    + destruct Ha as (m & e & Ha).
      apply Habove; [now exists m, e|left]. exact (Hkeep a m e Ha Hle).
    + apply Habove; [exact Ha|left; exact Hble].
    + apply Habove; [exact Ha|right; exact Hin].
Qed.

(** A finite number above 0 is positive and finite. *)
Lemma positive_finite_intro (x : float) :
  is_finite x = true -> (0 <? x) = true -> positive_finite x.
Proof.
  intros Hfin Hpos. rewrite FloatAxioms.ltb_spec in Hpos.
  change (Prim2SF 0) with (S754_zero false) in Hpos.
  destruct (Binary64Facts.is_finite_cases x Hfin)
    as [[sx Hx]|[sx [mx [ex Hx]]]]; rewrite Hx in Hpos.
  - discriminate.
  - destruct sx; [discriminate|]. now exists mx, ex.
Qed.

(** A finite number that is not below 0 is zero or positive. *)
Lemma finite_nonneg_intro (x : float) :
  is_finite x = true -> (0 <=? x) = true -> finite_nonneg (Prim2SF x).
Proof.
  intros Hfin Hpos. rewrite FloatAxioms.leb_spec in Hpos.
  change (Prim2SF 0) with (S754_zero false) in Hpos.
  destruct (Binary64Facts.is_finite_cases x Hfin)
    as [[sx Hx]|[sx [mx [ex Hx]]]]; rewrite Hx in *.
  - exact I.
  - destruct sx; [discriminate|exact I].
Qed.


End Binary64Order.

(** ** Rows saved and read back *)

Section ReadBack.

Context {R : Type}.

(** A search that a filter lets through finds the same row. *)
Lemma find_filter (key keep : R -> bool) (table : list R) :
  (forall r, key r = true -> keep r = true) ->
  find key (filter keep table) = find key table.
Proof.
  intros Hkeep. induction table as [|r rest IH]; [reflexivity|].
  cbn. destruct (keep r) eqn:Hr; cbn.
  - now rewrite IH.
  - destruct (key r) eqn:Hk; [|exact IH].
    apply Hkeep in Hk. congruence.
Qed.


Lemma find_app_first (key : R -> bool) (l1 l2 : list R) :
  find key l1 = None -> find key (l1 ++ l2) = find key l2.
Proof.
  induction l1 as [|r rest IH]; [reflexivity|].
  cbn. destruct (key r); [discriminate|exact IH].
Qed.

Lemma find_app_second (key : R -> bool) (l1 l2 : list R) :
  find key l2 = None -> find key (l1 ++ l2) = find key l1.
Proof.
  intros Hnone. induction l1 as [|r rest IH].
  - exact Hnone.
  - cbn. destruct (key r); [reflexivity|exact IH].
Qed.



Lemma filter_filter_comm (f g : R -> bool) (table : list R) :
  filter f (filter g table) = filter g (filter f table).
Proof.
  induction table as [|r rest IH]; [reflexivity|].
  cbn. destruct (f r) eqn:Hf, (g r) eqn:Hg; cbn;
    rewrite ?Hf, ?Hg, IH; reflexivity.
Qed.

Lemma filter_id (f : R -> bool) (table : list R) :
  (forall r, In r table -> f r = true) -> filter f table = table.
Proof.
  induction table as [|r rest IH]; intros Hall; [reflexivity|].
  cbn. rewrite (Hall r (or_introl eq_refl)). f_equal.
  apply IH. intros q Hq. apply Hall. now right.
Qed.



End ReadBack.

(** ** The unique keys are kept *)

Section KeysKept.

Context {num : Type} `{JS.Number num}.

Lemma getUnitBills_run (s : SqlDatabase num) (year month : Z) :
  getUnitBills year month (Some s)
  = (Normal
       (filter
          (fun b => (UnitBill.year b =? year)%Z
                    && (UnitBill.month b =? month)%Z)
          (unit_bills s)),
     Some s).
Proof. reflexivity. Qed.








End KeysKept.

(** ** The order of the registry *)

Section StringOrder.

Local Open Scope string_scope.

Lemma ascii_compare_refl (a : Ascii.ascii) : Ascii.compare a a = Eq.
Proof. unfold Ascii.compare. apply N.compare_refl. Qed.

Lemma ascii_compare_lt_trans (a b c : Ascii.ascii) :
  Ascii.compare a b = Lt -> Ascii.compare b c = Lt ->
  Ascii.compare a c = Lt.
Proof.
  unfold Ascii.compare. rewrite !N.compare_lt_iff. apply N.lt_trans.
Qed.

Lemma string_leb_trans (s1 s2 s3 : string) :
  (s1 <=? s2) = true -> (s2 <=? s3) = true -> (s1 <=? s3) = true.
Proof.
  unfold String.leb. revert s2 s3.
  induction s1 as [|c1 s1 IH]; intros [|c2 s2] [|c3 s3]; cbn;
    try reflexivity; try discriminate.
  destruct (Ascii.compare c1 c2) eqn:H12; try discriminate;
    destruct (Ascii.compare c2 c3) eqn:H23; try discriminate.
  - apply Ascii.compare_eq_iff in H12, H23. subst.
    rewrite ascii_compare_refl. apply IH.
  - apply Ascii.compare_eq_iff in H12. subst. now rewrite H23.
  - apply Ascii.compare_eq_iff in H23. subst. now rewrite H12.
  - now rewrite (ascii_compare_lt_trans _ _ _ H12 H23).
Qed.

End StringOrder.

Section Registry.

Context {num : Type} `{JS.Number num}.

Lemma insert_by_id_sorted (u : Unit.t num) (rows : list (Unit.t num)) :
  StronglySorted by_id rows -> StronglySorted by_id (insert_by_id u rows).
Proof.
  induction rows as [|v rest IH]; intros Hsorted.
  - cbn. constructor; constructor.
  - cbn. apply StronglySorted_inv in Hsorted.
    destruct Hsorted as [Hrest Hv].
    destruct (Unit.id u <=? Unit.id v)%string eqn:Huv.
    + constructor; [now constructor|].
      constructor; [exact Huv|].
      eapply Forall_impl; [|exact Hv].
      intros w Hw. exact (string_leb_trans _ _ _ Huv Hw).
    + constructor; [now apply IH|].
      apply Forall_forall. intros w Hw.
      apply (Permutation_in _ (insert_by_id_perm u rest)) in Hw.
      destruct Hw as [<-|Hw].
      * unfold by_id.
        destruct (String.leb_total (Unit.id u) (Unit.id v)) as [Hc|Hc];
          [congruence|exact Hc].
      * rewrite Forall_forall in Hv. now apply Hv.
Qed.

(** [getUnits] returns the units in the order of their ids. *)
Lemma order_by_id_sorted (rows : list (Unit.t num)) :
  StronglySorted by_id (order_by_id rows).
Proof.
  induction rows as [|u rest IH]; [constructor|].
  cbn. now apply insert_by_id_sorted.
Qed.

(** Two sorted lists of the same rows with distinct ids are the same list. *)
Lemma sorted_by_id_unique (l1 l2 : list (Unit.t num)) :
  StronglySorted by_id l1 -> StronglySorted by_id l2 ->
  Permutation l1 l2 -> NoDup (map (@Unit.id num) l1) -> l1 = l2.
Proof.
  revert l2. induction l1 as [|a l1 IH]; intros l2 H1 H2 Hperm Hnodup.
  - apply Permutation_nil in Hperm. now subst.
  - destruct l2 as [|b l2].
    { apply Permutation_sym, Permutation_nil in Hperm. discriminate. }
    apply StronglySorted_inv in H1, H2.
    destruct H1 as [H1 Ha], H2 as [H2 Hb].
    rewrite Forall_forall in Ha, Hb.
    assert (Hab : a = b).
    { assert (Hb_in : In b (a :: l1))
        by (apply (Permutation_in _ (Permutation_sym Hperm)); now left).
      assert (Ha_in : In a (b :: l2))
        by (apply (Permutation_in _ Hperm); now left).
      destruct Hb_in as [Heq|Hb_in]; [exact Heq|].
      destruct Ha_in as [Heq|Ha_in]; [now symmetry|].
      exfalso. cbn in Hnodup. apply NoDup_cons_iff in Hnodup.
      destruct Hnodup as [Hnotin _]. apply Hnotin.
      rewrite (String.leb_antisym _ _ (Ha b Hb_in) (Hb a Ha_in)).
      now apply in_map. }
    subst b. f_equal. apply IH; [exact H1|exact H2| |].
    + now apply Permutation_cons_inv in Hperm.
    + cbn in Hnodup. now apply NoDup_cons_iff in Hnodup.
Qed.

(** The registry does not depend on the order in which the units were
    inserted. *)
Lemma order_by_id_of_permutation (rows1 rows2 : list (Unit.t num)) :
  Permutation rows1 rows2 -> NoDup (map (@Unit.id num) rows1) ->
  order_by_id rows1 = order_by_id rows2.
Proof.
  intros Hperm Hnodup. apply sorted_by_id_unique.
  - apply order_by_id_sorted.
  - apply order_by_id_sorted.
  - rewrite (order_by_id_perm rows1), (order_by_id_perm rows2). exact Hperm.
  - apply (Permutation_NoDup (l := map (@Unit.id num) rows1));
      [|exact Hnodup].
    apply Permutation_map, Permutation_sym, order_by_id_perm.
Qed.

(** A search that at most one row satisfies does not depend on the order of
    the rows. *)
Lemma find_of_permutation {R : Type} (key : R -> bool) (l1 l2 : list R) :
  Permutation l1 l2 ->
  (forall a b, In a l1 -> In b l1 -> key a = true -> key b = true -> a = b) ->
  find key l1 = find key l2.
Proof.
  intros Hperm Huniq.
  destruct (find key l1) as [a|] eqn:H1, (find key l2) as [b|] eqn:H2.
  - apply find_some in H1, H2. destruct H1 as [Ha Hka], H2 as [Hb Hkb].
    apply (Permutation_in _ (Permutation_sym Hperm)) in Hb.
    f_equal. now apply Huniq.
  - apply find_some in H1. destruct H1 as [Ha Hka].
    apply (Permutation_in _ Hperm) in Ha.
    apply (find_none _ _ H2) in Ha. congruence.
  - apply find_some in H2. destruct H2 as [Hb Hkb].
    apply (Permutation_in _ (Permutation_sym Hperm)) in Hb.
    apply (find_none _ _ H1) in Hb. congruence.
  - reflexivity.
Qed.

Lemma filter_of_permutation {R : Type} (f : R -> bool) (l1 l2 : list R) :
  Permutation l1 l2 -> Permutation (filter f l1) (filter f l2).
Proof.
  induction 1 as [|x l l' _ IH|x y l|l l' l'' _ IH1 _ IH2]; cbn.
  - constructor.
  - destruct (f x); [now constructor|exact IH].
  - destruct (f x), (f y); try apply Permutation_refl.
    apply perm_swap.
  - now transitivity (filter f l').
Qed.

End Registry.

(** ** The order of the rows in the tables *)

Section OrderOfRows.

Context {num : Type} `{JS.Number num}.

Variables s1 s2 : SqlDatabase num.
Hypothesis same_units : Permutation (units s1) (units s2).
Hypothesis same_readings :
  Permutation (meter_readings s1) (meter_readings s2).
Hypothesis units_unique : unique_units s1.
Hypothesis readings_unique : unique_readings s1.

Lemma registeredUnits_of_permutation :
  registeredUnits s1 = registeredUnits s2.
Proof.
  unfold registeredUnits.
  now apply order_by_id_of_permutation.
Qed.

Lemma find_reading_of_permutation (unitId : string) (year month : Z) :
  find_reading unitId (currentReadings_of (meter_readings s1) year month)
  = find_reading unitId (currentReadings_of (meter_readings s2) year month).
Proof.
  unfold find_reading, currentReadings_of.
  apply find_of_permutation; [now apply filter_of_permutation|].
  intros a b Ha Hb Hka Hkb.
  apply filter_In in Ha, Hb. destruct Ha as [Ha Hpa], Hb as [Hb Hpb].
  apply readings_unique; [exact Ha|exact Hb|].
  apply andb_prop in Hpa, Hpb.
  destruct Hpa as [Hya Hma], Hpb as [Hyb Hmb].
  apply String.eqb_eq in Hka, Hkb. apply Z.eqb_eq in Hya, Hma, Hyb, Hmb.
  unfold reading_conflict.
  now rewrite Hka, Hkb, Hya, Hyb, Hma, Hmb, String.eqb_refl, !Z.eqb_refl.
Qed.

Lemma previousReading_of_permutation (unitId : string) (year month : Z) :
  previousReading_of (meter_readings s1) unitId year month
  = previousReading_of (meter_readings s2) unitId year month.
Proof.
  unfold previousReading_of.
  apply find_of_permutation; [exact same_readings|].
  intros a b Ha Hb Hka Hkb.
  apply readings_unique; [exact Ha|exact Hb|].
  apply andb_prop in Hka, Hkb.
  destruct Hka as [Hka Hma], Hkb as [Hkb Hmb].
  apply andb_prop in Hka, Hkb.
  destruct Hka as [Hua Hya], Hkb as [Hub Hyb].
  apply String.eqb_eq in Hua, Hub. apply Z.eqb_eq in Hya, Hma, Hyb, Hmb.
  unfold reading_conflict.
  now rewrite Hua, Hub, Hya, Hyb, Hma, Hmb, String.eqb_refl, !Z.eqb_refl.
Qed.

Lemma billed_in_of_permutation (year month : Z) :
  billed_in s1 year month = billed_in s2 year month.
Proof.
  unfold billed_in, billed. rewrite registeredUnits_of_permutation.
  apply flat_map_ext. intros unit.
  now rewrite find_reading_of_permutation.
Qed.

Lemma bills_of_permutation (year month : Z) (tE tW tM : num) :
  bills_of s1 year month tE tW tM = bills_of s2 year month tE tW tM.
Proof.
  unfold bills_of. rewrite billed_in_of_permutation.
  apply map_ext. intros uc. unfold bill_of.
  rewrite previousReading_of_permutation. f_equal.
  - unfold totalArea_of. now rewrite registeredUnits_of_permutation.
  - unfold totalElectricityUsage_of. rewrite billed_in_of_permutation.
    f_equal. apply map_ext. intros uc'. unfold electricityUsage_of.
    now rewrite previousReading_of_permutation.
  - unfold totalWaterUsage_of. rewrite billed_in_of_permutation.
    f_equal. apply map_ext. intros uc'. unfold waterUsage_of.
    now rewrite previousReading_of_permutation.
Qed.

End OrderOfRows.

(** ** The forms that save readings *)

Section SavedReadings.

Context {num : Type} `{JS.Number num}.

Variable parseFloat : string -> num.
Variable readings : Readings.
Variables year month : Z.

Local Abbreviation row := (reading_of_fields parseFloat readings year month).
Local Abbreviation invalid := (invalid_fields parseFloat readings year month).
Local Abbreviation entered_in := (entered_fields readings (num := num)).

(** The loop of [handleSaveReadings] saves the readings of the units whose
    fields are numbers and not both empty, one after the other. *)
Lemma saveReadings_forEach_run (us : list (Unit.t num))
    (hasError : bool) (savedCount : nat) (s : SqlDatabase num) :
  let saved := filter (fun u => negb (invalid u) && entered_in u) us in
  BillManagement.saveReadings_forEach parseFloat us readings year month
    hasError savedCount (Some s)
  = (Normal (hasError || existsb invalid us,
             (savedCount + length saved)%nat),
     Some (with_readings s
             (upsert_all reading_conflict (map row saved)
                (meter_readings s)))).
Proof.
  revert hasError savedCount s.
  induction us as [|u rest IH]; intros hasError savedCount s saved.
  - subst saved. cbn. rewrite orb_false_r, Nat.add_0_r.
    now destruct s.
  - subst saved. cbn [BillManagement.saveReadings_forEach filter existsb].
    fold (invalid u) (entered_in u).
    change (JS.isNaN
              (parseFloat
                 (text_or_0
                    (field readings (Unit.id u) ReadingFields.electricity)))
            || JS.isNaN
                 (parseFloat
                    (text_or_0
                       (field readings (Unit.id u) ReadingFields.water))))
      with (invalid u).
    change (entered (field readings (Unit.id u) ReadingFields.electricity)
            || entered (field readings (Unit.id u) ReadingFields.water))
      with (entered_in u).
    destruct (invalid u) eqn:Hinvalid.
    + cbn [negb andb]. rewrite IH. cbv zeta.
      now rewrite orb_true_r, orb_true_l.
    + cbn [negb andb orb]. destruct (entered_in u) eqn:Hentered.
      * unfold bind. cbn [saveMeterReading].
        change (saveMeterReading ?r (Some s))
          with (Normal tt,
                Some (with_readings s
                        (insert_or_replace reading_conflict r
                           (meter_readings s)))).
        cbv iota beta. rewrite IH. cbv zeta.
        cbn [map length upsert_all fold_left with_readings meter_readings
             units monthly_bills unit_bills].
        now rewrite Nat.add_succ_r.
      * now rewrite IH.
Qed.

(** The loop of [handleSubmit] saves the readings of the units whose fields
    are numbers, one after the other. *)
Lemma submit_forEach_run (us : list (Unit.t num)) (hasError : bool)
    (s : SqlDatabase num) :
  let saved := filter (fun u => negb (invalid u)) us in
  MeterReadingForm.submit_forEach parseFloat us readings year month
    hasError (Some s)
  = (Normal (hasError || existsb invalid us),
     Some (with_readings s
             (upsert_all reading_conflict (map row saved)
                (meter_readings s)))).
Proof.
  revert hasError s.
  induction us as [|u rest IH]; intros hasError s saved.
  - subst saved. cbn. rewrite orb_false_r. now destruct s.
  - subst saved. cbn [MeterReadingForm.submit_forEach filter existsb].
    change (JS.isNaN
              (parseFloat
                 (text_or_0
                    (field readings (Unit.id u) ReadingFields.electricity)))
            || JS.isNaN
                 (parseFloat
                    (text_or_0
                       (field readings (Unit.id u) ReadingFields.water))))
      with (invalid u).
    destruct (invalid u) eqn:Hinvalid.
    + cbn [negb]. rewrite IH. cbv zeta.
      now rewrite orb_true_r, orb_true_l.
    + cbn [negb orb]. unfold bind.
      change (saveMeterReading ?r (Some s))
        with (Normal tt,
              Some (with_readings s
                      (insert_or_replace reading_conflict r
                         (meter_readings s)))).
      cbv iota beta. rewrite IH. cbv zeta.
      cbn [map upsert_all fold_left with_readings meter_readings
           units monthly_bills unit_bills].
      reflexivity.
Qed.

(** The readings of units with distinct ids do not replace one another. *)
Lemma readings_of_fields_distinct (us : list (Unit.t num)) :
  NoDup (map (@Unit.id num) us) ->
  distinct_rows reading_conflict (map row us).
Proof.
  induction us as [|u rest IH]; intros Hnodup; [exact I|].
  cbn in Hnodup. apply NoDup_cons_iff in Hnodup.
  destruct Hnodup as [Hnotin Hnodup].
  cbn. split; [|now apply IH].
  unfold kept. apply forallb_forall. intros r Hr.
  apply in_map_iff in Hr. destruct Hr as [v [<- Hv]].
  unfold reading_conflict. cbn.
  destruct (Unit.id u =? Unit.id v)%string eqn:Hsame; [|reflexivity].
  apply String.eqb_eq in Hsame. exfalso. apply Hnotin.
  rewrite Hsame. now apply in_map.
Qed.

(** After units with distinct ids were saved, the reading of the month of
    each of them is the one built from its fields. *)
Lemma saved_reading_is_found (us : list (Unit.t num))
    (table : list (MeterReading.t num)) (u : Unit.t num) :
  NoDup (map (@Unit.id num) us) -> In u us ->
  find_reading (Unit.id u)
    (currentReadings_of
       (upsert_all reading_conflict (map row us) table) year month)
  = Some (row u).
Proof.
  intros Hnodup Hu.
  rewrite upsert_all_table.
  rewrite (upsert_all_distinct _ _ (readings_of_fields_distinct us Hnodup)).
  unfold find_reading, currentReadings_of. rewrite filter_app.
  rewrite find_app_first.
  - rewrite filter_id by (intros r Hr; apply in_map_iff in Hr;
                          destruct Hr as [v [<- _]]; cbn;
                          now rewrite !Z.eqb_refl).
    clear table. induction us as [|v rest IH]; [contradiction|].
    cbn in Hnodup. apply NoDup_cons_iff in Hnodup.
    destruct Hnodup as [Hnotin Hnodup].
    cbn [map find]. cbn [MeterReading.unit_id reading_of_fields].
    destruct Hu as [->|Hu]; [now rewrite String.eqb_refl|].
    destruct (Unit.id v =? Unit.id u)%string eqn:Hsame; [|now apply IH].
    apply String.eqb_eq in Hsame. exfalso. apply Hnotin.
    rewrite Hsame. now apply in_map.
  - destruct (find _ _) as [r|] eqn:Hfind; [|reflexivity].
    apply find_some in Hfind. destruct Hfind as [Hr Hsame].
    apply String.eqb_eq in Hsame.
    apply filter_In in Hr. destruct Hr as [Hr Hperiod].
    apply filter_In in Hr. destruct Hr as [_ Hkept].
    apply andb_prop in Hperiod. destruct Hperiod as [Hy Hm].
    apply Z.eqb_eq in Hy, Hm.
    unfold kept in Hkept. rewrite forallb_forall in Hkept.
    specialize (Hkept (row u) (in_map _ _ _ Hu)).
    unfold reading_conflict in Hkept. cbn in Hkept.
    now rewrite Hsame, Hy, Hm, String.eqb_refl, !Z.eqb_refl in Hkept.
Qed.

End SavedReadings.

Section UntouchedReadings.

Context {num : Type} `{JS.Number num}.

(** Saving readings of other units leaves the reading of the month of a
    unit as it was. *)
Lemma other_readings_are_kept (rows table : list (MeterReading.t num))
    (unitId : string) (year month : Z) :
  (forall r, In r rows -> MeterReading.unit_id r <> unitId) ->
  find_reading unitId
    (currentReadings_of (upsert_all reading_conflict rows table) year month)
  = find_reading unitId (currentReadings_of table year month).
Proof.
  intros Hother. rewrite upsert_all_table.
  unfold find_reading, currentReadings_of. rewrite filter_app.
  rewrite find_app_second.
  - rewrite filter_filter_comm. apply find_filter.
    intros r Hr. apply String.eqb_eq in Hr.
    unfold kept. apply forallb_forall. intros b Hb.
    unfold reading_conflict.
    destruct (MeterReading.unit_id r =? MeterReading.unit_id b)%string
      eqn:Hsame; [|reflexivity].
    apply String.eqb_eq in Hsame. exfalso.
    apply (Hother b Hb). congruence.
  - destruct (find _ _) as [r|] eqn:Hfind; [|reflexivity].
    apply find_some in Hfind. destruct Hfind as [Hr Hsame].
    apply String.eqb_eq in Hsame.
    apply filter_In in Hr. destruct Hr as [Hr _].
    apply upsert_all_In in Hr. destruct Hr as [Hr|[]].
    now apply Hother in Hr.
Qed.

End UntouchedReadings.

(** ** The loop of [loadRangeBills] *)

Section RangeOfMonths.

Context {num : Type} `{JS.Number num}.

Local Open Scope Z_scope.

Variable s : SqlDatabase num.
Variables endYear endMonth : Z.

Lemma not_after_spec (year month : Z) :
  (year <? endYear) || ((year =? endYear) && (month <=? endMonth)) = true
  <-> not_after endYear endMonth year month.
Proof.
  unfold not_after.
  rewrite orb_true_iff, andb_true_iff, Z.ltb_lt, Z.eqb_eq, Z.leb_le.
  tauto.
Qed.

(** With enough iterations the loop ends, and it has appended, in the order
    of the months, the months from the current one to the last one that
    have bills, each with its bills. *)
Lemma loadRangeBills_while_run (fuel : nat) :
  forall (currentYear currentMonth : Z) (data : list (MonthData.t num)),
  (BillOutput.iterations endYear currentYear currentMonth <= fuel)%nat ->
  exists new,
    BillOutput.loadRangeBills_while fuel endYear endMonth
      currentYear currentMonth data (Some s)
    = (Normal (Some (data ++ new)), Some s)
    /\ (forall e, In e new ->
          not_before currentYear currentMonth
            (MonthData.year e) (MonthData.month e)
          /\ not_after endYear endMonth
               (MonthData.year e) (MonthData.month e)
          /\ MonthData.bills e
             = bills_of_month s (MonthData.year e) (MonthData.month e)
          /\ MonthData.bills e <> [])
    /\ (forall year month,
          1 <= month <= 12 ->
          not_before currentYear currentMonth year month ->
          not_after endYear endMonth year month ->
          bills_of_month s year month <> [] ->
          In (MonthData.mk year month (bills_of_month s year month)) new)
    /\ StronglySorted earlier new.
Proof.
  unfold BillOutput.iterations.
  induction fuel as [|fuel IH]; intros currentYear currentMonth data Hfuel.
  - exists []. rewrite app_nil_r.
    assert (Hout : (currentYear <? endYear)
                   || ((currentYear =? endYear)
                       && (currentMonth <=? endMonth)) = false).
    { apply not_true_is_false. intros Hin. apply not_after_spec in Hin.
      unfold not_after in Hin. lia. }
    cbn [BillOutput.loadRangeBills_while]. rewrite Hout.
    split; [reflexivity|]. split; [intros e []|].
    split; [|constructor].
    intros year month _ Hfrom Huntil _. exfalso.
    assert (Hin : not_after endYear endMonth currentYear currentMonth).
    { unfold not_before, not_after in *. lia. }
    apply not_after_spec in Hin. congruence.
  - cbn [BillOutput.loadRangeBills_while].
    destruct ((currentYear <? endYear)
              || ((currentYear =? endYear) && (currentMonth <=? endMonth)))
      eqn:Hcond.
    + apply not_after_spec in Hcond as Hin.
      unfold bind. rewrite getUnitBills_run.
      fold (bills_of_month s currentYear currentMonth).
      set (rows := bills_of_month s currentYear currentMonth).
      set (data' := if (0 <? length rows)%nat
                    then data ++ [MonthData.mk currentYear currentMonth rows]
                    else data).
      set (nextYear := if 12 <? currentMonth + 1 then currentYear + 1
                       else currentYear).
      set (nextMonth := if 12 <? currentMonth + 1 then 1
                        else currentMonth + 1).
      assert (Hnext : (Z.to_nat (13 * (endYear - nextYear)
                                 + Z.max 0 (13 - nextMonth) + 1)
                       <= fuel)%nat).
      { subst nextYear nextMonth. unfold not_after in Hin.
        destruct (Z.ltb_spec 12 (currentMonth + 1)); lia. }
      destruct (IH nextYear nextMonth data' Hnext)
        as [new [Hrun [Hsound [Hcomplete Hsorted]]]].
      assert (Hstep : not_before currentYear currentMonth nextYear nextMonth
                      /\ (nextYear = currentYear -> currentMonth < nextMonth)).
      { subst nextYear nextMonth. unfold not_before.
        destruct (Z.ltb_spec 12 (currentMonth + 1)); lia. }
      assert (Hlater : forall e, In e new ->
                currentYear < MonthData.year e
                \/ (currentYear = MonthData.year e
                    /\ currentMonth < MonthData.month e)).
      { intros e He. destruct (Hsound e He) as [Hfrom _].
        unfold not_before in *. lia. }
      exists (if (0 <? length rows)%nat
              then MonthData.mk currentYear currentMonth rows :: new
              else new).
      split.
      { assert (Hloop :
          (if 12 <? currentMonth + 1
           then BillOutput.loadRangeBills_while fuel endYear endMonth
                  (currentYear + 1) 1 data'
           else BillOutput.loadRangeBills_while fuel endYear endMonth
                  currentYear (currentMonth + 1) data') (Some s)
          = BillOutput.loadRangeBills_while fuel endYear endMonth
              nextYear nextMonth data' (Some s)).
        { subst nextYear nextMonth.
          destruct (12 <? currentMonth + 1); reflexivity. }
        rewrite Hloop, Hrun. subst data'.
        destruct (0 <? length rows)%nat; [|reflexivity].
        now rewrite <- app_assoc. }
      split; [|split].
      * intros e He.
        assert (Hcases : e = MonthData.mk currentYear currentMonth rows
                         /\ (0 <? length rows)%nat = true
                         \/ In e new).
        { destruct (0 <? length rows)%nat; [|now right].
          destruct He as [<-|Hnew]; [now left|now right]. }
        clear He. destruct Hcases as [[-> Hrows]|He].
        -- cbn. repeat split.
           ++ unfold not_before. lia.
           ++ exact Hin.
           ++ intros Hnil. rewrite Hnil in Hrows. discriminate.
        -- destruct (Hsound e He) as (Hfrom & Huntil & Hbills & Hsome).
           repeat split; try assumption.
           unfold not_before in *. lia.
      * intros year month Hmonth Hfrom Huntil Hsome.
        destruct (Z.eq_dec year currentYear) as [Hy|Hy];
          [destruct (Z.eq_dec month currentMonth) as [Hm|Hm]|].
        -- subst year month. fold rows in Hsome |- *.
           destruct rows as [|b rest] eqn:Hrows; [contradiction|].
           now left.
        -- assert (Hin' : In (MonthData.mk year month
                                (bills_of_month s year month)) new).
           { apply Hcomplete; try assumption.
             subst nextYear nextMonth. unfold not_before in *.
             destruct (Z.ltb_spec 12 (currentMonth + 1)); lia. }
           destruct (0 <? length rows)%nat; [now right|exact Hin'].
        -- assert (Hin' : In (MonthData.mk year month
                                (bills_of_month s year month)) new).
           { apply Hcomplete; try assumption.
             subst nextYear nextMonth. unfold not_before in *.
             destruct (Z.ltb_spec 12 (currentMonth + 1)); lia. }
           destruct (0 <? length rows)%nat; [now right|exact Hin'].
      * destruct (0 <? length rows)%nat; [|exact Hsorted].
        constructor; [exact Hsorted|].
        apply Forall_forall. intros e He. unfold earlier. cbn.
        now apply Hlater.
    + exists []. rewrite app_nil_r. split; [reflexivity|].
      split; [intros e []|]. split; [|constructor].
      intros year month _ Hfrom Huntil _. exfalso.
      assert (Hin : not_after endYear endMonth currentYear currentMonth).
      { unfold not_before, not_after in *. lia. }
      apply not_after_spec in Hin. congruence.
Qed.

End RangeOfMonths.

(** ** What every writer keeps *)

Section KeptByWriters.







(** [forEach] of [saveMeterReading]. *)
Lemma forEach_saveMeterReading_run (rows : list (MeterReading.t float))
    (s : SqlDatabase float) :
  SampleData.forEach rows (fun reading => saveMeterReading reading) (Some s)
  = (Normal tt,
     Some (with_readings s
             (upsert_all reading_conflict rows (meter_readings s)))).
Proof.
  revert s. induction rows as [|r rest IH]; intros s.
  - cbn. now destruct s.
  - cbn [SampleData.forEach]. unfold bind.
    change (saveMeterReading r (Some s))
      with (Normal tt,
            Some (with_readings s
                    (insert_or_replace reading_conflict r
                       (meter_readings s)))).
    cbv iota beta. rewrite IH. reflexivity.
Qed.

Lemma insertSampleData_run (s : SqlDatabase float) :
  SampleData.insertSampleData (Some s)
  = (Normal true,
     Some (with_readings s
             (upsert_all reading_conflict
                (SampleData.januaryReadings ++ SampleData.februaryReadings)
                (meter_readings s)))).
Proof.
  unfold SampleData.insertSampleData, try_catch, bind.
  rewrite forEach_saveMeterReading_run.
  rewrite forEach_saveMeterReading_run.
  cbn [meter_readings with_readings units monthly_bills unit_bills ret].
  unfold upsert_all. rewrite fold_left_app. reflexivity.
Qed.

Variable parseFloat : string -> float.



End KeptByWriters.

(** ** Bounds of the amounts of a bill *)

Module Binary64Bounds.

Local Unset Implicit Arguments.

Import SpecFloat Binary64Format Rounding Binary64Order Binary64.
Local Open Scope float_scope.

Lemma is_nan_spec (x : float) :
  is_nan x = match Prim2SF x with S754_nan => true | _ => false end.
Proof.
  unfold is_nan. rewrite FloatAxioms.eqb_spec.
  destruct (Prim2SF x) as [s|s| |s m e]; try destruct s; try reflexivity;
    cbn; rewrite Z.compare_refl, Pos.compare_cont_refl; reflexivity.
Qed.

Lemma nonneg_leb_zero (x : float) :
  nonneg (Prim2SF x) -> (0 <=? x) = true.
Proof.
  intros Hx. rewrite FloatAxioms.leb_spec.
  change (Prim2SF 0) with (S754_zero false). now apply SFleb_zero_l.
Qed.

Lemma finite_nonneg_nonneg (f : spec_float) : finite_nonneg f -> nonneg f.
Proof. destruct f as [s|s| |[] m e]; cbn; tauto. Qed.

(** *** Differences of readings *)

(** Rounding does not look at the sign. *)
Lemma binary_round_sign (m : positive) (e : Z) :
  binary_round prec emax true m e = SFopp (binary_round prec emax false m e).
Proof.
  unfold binary_round, binary_round_aux.
  destruct (shl_align m e _) as [mz ez].
  destruct (shr_fexp prec emax (Z.pos mz) ez loc_Exact) as [mrs' e'].
  destruct (shr_fexp prec emax _ e' loc_Exact) as [mrs'' e''].
  destruct (shr_m mrs'') as [|p|p]; try reflexivity.
  destruct (e'' <=? emax - prec)%Z; reflexivity.
Qed.

(** The difference of two finite numbers that are not negative is zero or
    positive and finite, or it is below 0. *)
Lemma sub_cases (x y : float) :
  finite_nonneg (Prim2SF x) -> finite_nonneg (Prim2SF y) ->
  finite_nonneg (Prim2SF (x - y)) \/ (x - y <? 0) = true.
Proof.
  intros Hx Hy.
  pose proof (Prim2SF_valid x) as Hvx.
  rewrite FloatAxioms.ltb_spec, FloatAxioms.sub_spec.
  change (Prim2SF 0) with (S754_zero false). unfold SF64sub.
  destruct (Prim2SF x) as [sx|sx| |[] mx ex]; cbn in Hx; try contradiction;
    destruct (Prim2SF y) as [sy|sy| |[] my ey]; cbn in Hy;
    try contradiction.
  - left. destruct sx, sy; exact I.
  - right. reflexivity.
  - left. exact I.
  - cbn [SFsub cond_Zopp].
    pose proof (shl_align_spec mx ex (Z.min ex ey)) as Hax.
    pose proof (shl_align_spec my ey (Z.min ex ey)) as Hay.
    destruct (shl_align mx ex (Z.min ex ey)) as [mx' ex'].
    destruct (shl_align my ey (Z.min ex ey)) as [my' ey'].
    destruct Hax as [Hex' Hmx']. destruct Hay as [Hey' Hmy'].
    cbn [fst].
    destruct (Z.pos mx' - Z.pos my')%Z as [|p|p] eqn:Hd;
      cbn [binary_normalize].
    + left. exact I.
    + left.
      pose proof (binary_round_rounds p (Z.min ex ey)) as Hrounds.
      apply (SFleb_finite _ (S754_finite false mx ex));
        [exact (rounds_to_nonneg _ _ Hrounds)|exact I|].
      apply (rounds_to_monotone _ _ _ _ Hrounds (rounds_to_itself mx ex Hvx)).
      rewrite <- (value_shift mx mx' ex ex') by (lia || exact Hmx').
      replace ex' with (Z.min ex ey) by lia.
      unfold value.
      assert (Hle : (Z.pos p <= Z.pos mx')%Z) by lia.
      apply Qmult_le_compat_r; [|apply Qlt_le_weak, pow2_pos].
      now rewrite <- Zle_Qle.
    + rewrite binary_round_sign.
      pose proof (rounds_to_nonneg _ _
                    (binary_round_rounds p (Z.min ex ey))) as Hn.
      destruct (binary_round prec emax false p (Z.min ex ey))
        as [s|[]| |[] m e]; cbn in Hn; try contradiction.
      * left. exact I.
      * right. reflexivity.
      * right. reflexivity.
Qed.

(** The usage [Math.max(0, current - previous)] of two finite readings that
    are not negative is zero or positive, and finite. *)
Lemma usage_finite_nonneg (current previous : float) :
  finite_nonneg (Prim2SF current) -> finite_nonneg (Prim2SF previous) ->
  finite_nonneg (Prim2SF (Math_max 0 (current - previous))).
Proof.
  intros Hc Hp. unfold Math_max.
  change (is_nan 0) with false. cbn [orb].
  destruct (sub_cases current previous Hc Hp) as [Hfin|Hneg].
  - rewrite is_nan_spec.
    destruct (Prim2SF (current - previous)) as [s|s| |[] m e] eqn:Hd;
      cbn in Hfin; try contradiction.
    + destruct (0 <? current - previous); [now rewrite Hd|].
      destruct (current - previous <? 0); [exact I|].
      change (get_sign 0) with false. exact I.
    + destruct (0 <? current - previous); [now rewrite Hd|].
      destruct (current - previous <? 0); [exact I|].
      change (get_sign 0) with false. exact I.
  - rewrite is_nan_spec. rewrite Hneg.
    rewrite FloatAxioms.ltb_spec in Hneg. rewrite FloatAxioms.ltb_spec.
    change (Prim2SF 0) with (S754_zero false) in *.
    destruct (Prim2SF (current - previous)) as [s|[]| |[] m e];
      try discriminate; exact I.
Qed.

(** *** Sums of numbers that are not negative *)

Lemma add_finite_nonneg (acc b : float) :
  nonneg (Prim2SF acc) -> finite_nonneg (Prim2SF b) ->
  nonneg (Prim2SF (acc + b))
  /\ (forall a, positive_finite a ->
        (a <=? acc) = true \/ a = b -> (a <=? acc + b) = true).
Proof.
  intros Hacc Hb.
  destruct (Prim2SF b) as [sb|sb| |[] mb eb] eqn:Eb; cbn in Hb;
    try contradiction.
  - assert (Hsum : nonneg (Prim2SF (acc + b))
                   /\ SFleb (Prim2SF acc) (Prim2SF (acc + b)) = true
                      \/ exists s, Prim2SF acc = S754_zero s).
    { rewrite FloatAxioms.add_spec. unfold SF64add. rewrite Eb.
      destruct (Prim2SF acc) as [s|[]| |[] ma ea] eqn:Ea; cbn in Hacc;
        try contradiction.
      - right. now exists s.
      - left. split; [exact I|reflexivity].
      - left. split; [exact I|].
        pose proof (Prim2SF_valid acc) as Hv. rewrite Ea in Hv.
        apply (rounds_to_monotone _ _ _ _ (rounds_to_itself ma ea Hv)
                 (rounds_to_itself ma ea Hv)).
        apply Qle_refl. }
    split.
    + destruct Hsum as [[Hn _]|[s Hs]]; [exact Hn|].
      rewrite FloatAxioms.add_spec. unfold SF64add. rewrite Eb, Hs.
      destruct s, sb; exact I.
    + intros a [m [e Ha]] [Hle| ->]; [|congruence].
      rewrite FloatAxioms.leb_spec in Hle. rewrite FloatAxioms.leb_spec.
      rewrite Ha in *.
      rewrite FloatAxioms.add_spec. unfold SF64add. rewrite Eb.
      destruct (Prim2SF acc) as [s|[]| |[] ma ea]; cbn in Hacc;
        try contradiction; try discriminate; exact Hle.
  - destruct (add_positive acc b mb eb Hacc Eb) as (Hpos & Hb_le & Hkeep).
    split.
    + destruct (Prim2SF (acc + b)) as [s|[]| |[] m e]; cbn in Hpos;
        try contradiction; exact I.
    + intros a [m [e Ha]] [Hle| ->]; [|exact Hb_le].
      exact (Hkeep a m e Ha Hle).
Qed.

(** The sum of finite numbers that are not negative, added from the left,
    is not negative and is above each positive one of them. *)
Lemma sum_bounds (xs : list float) (acc : float) :
  nonneg (Prim2SF acc) ->
  (forall x, List.In x xs -> finite_nonneg (Prim2SF x)) ->
  nonneg (Prim2SF (List.fold_left PrimFloat.add xs acc))
  /\ (forall a, positive_finite a ->
        (a <=? acc) = true \/ List.In a xs ->
        (a <=? List.fold_left PrimFloat.add xs acc) = true).
Proof.
  revert acc. induction xs as [|b rest IH]; intros acc Hacc Hxs.
  - split; [exact Hacc|]. intros a _ [Hle|[]]. exact Hle.
  - cbn [List.fold_left].
    destruct (add_finite_nonneg acc b Hacc (Hxs b (or_introl eq_refl)))
      as [Hn Hkeep].
    destruct (IH (acc + b) Hn (fun x Hx => Hxs x (or_intror Hx)))
      as [Hsum Habove].
    split; [exact Hsum|].
    intros a Ha [Hle|[<-|Hin]].
    + apply Habove; [exact Ha|]. left. apply Hkeep; [exact Ha|now left].
    + apply Habove; [exact Ha|]. left. apply Hkeep; [exact Ha|now right].
    + apply Habove; [exact Ha|]. now right.
Qed.

(** *** Shares *)

(** A positive finite number over a larger one is at most 1. *)
Lemma div_le_one (a T : float) (m : positive) (e : Z) :
  Prim2SF a = S754_finite false m e ->
  is_positive (Prim2SF T) ->
  (a <=? T) = true ->
  (a / T <=? 1) = true.
Proof.
  intros Ha HT Hle.
  pose proof (Prim2SF_valid a) as Hva. pose proof (Prim2SF_valid T) as HvT.
  rewrite FloatAxioms.leb_spec in Hle.
  rewrite FloatAxioms.leb_spec, FloatAxioms.div_spec.
  change (Prim2SF 1) with (S754_finite false (2 ^ 52) (-52)).
  unfold SF64div. rewrite Ha in *.
  destruct (Prim2SF T) as [s|[]| |[] mT eT]; cbn in HT; try contradiction.
  - reflexivity.
  - apply (rounds_to_monotone _ _ _ _ (SFdiv_rounds m mT e eT) one_rounds).
    pose proof (SFleb_value _ _ _ _ Hva HvT Hle) as Hval.
    pose proof (value_pos mT eT) as HT0.
    apply Qle_shift_div_r; [exact HT0|]. lra.
Qed.

(** The quotient of a finite number that is not negative by a positive
    number above it is finite, not negative and at most 1. *)
Lemma quotient_bounds (u T : float) :
  finite_nonneg (Prim2SF u) ->
  is_positive (Prim2SF T) ->
  (positive_finite u -> (u <=? T) = true) ->
  finite_nonneg (Prim2SF (u / T)) /\ (u / T <=? 1) = true.
Proof.
  intros Hu HT Hle.
  destruct (Prim2SF u) as [s|s| |[] m e] eqn:Eu; cbn in Hu;
    try contradiction.
  - assert (Hz : exists s', Prim2SF (u / T) = S754_zero s').
    { rewrite FloatAxioms.div_spec. unfold SF64div. rewrite Eu.
      destruct (Prim2SF T) as [sT|[]| |[] mT eT]; cbn in HT;
        try contradiction; cbn; eauto. }
    destruct Hz as [s' Hz]. split; [now rewrite Hz|].
    rewrite FloatAxioms.leb_spec, Hz. reflexivity.
  - assert (Hle' : (u <=? T) = true) by (apply Hle; now exists m, e).
    split.
    + exact (div_finite u T m e Eu HT Hle').
    + exact (div_le_one u T m e Eu HT Hle').
Qed.

(** The product of a total that is not negative by a rate of at most 1 is
    at most the total. *)
Lemma mul_le_total (q G : float) :
  finite_nonneg (Prim2SF q) -> (q <=? 1) = true ->
  finite_nonneg (Prim2SF G) ->
  (q * G <=? G) = true.
Proof.
  intros Hq Hle HG.
  pose proof (Prim2SF_valid q) as Hvq. pose proof (Prim2SF_valid G) as HvG.
  rewrite FloatAxioms.leb_spec in Hle.
  change (Prim2SF 1) with (S754_finite false (2 ^ 52) (-52)) in Hle.
  rewrite FloatAxioms.leb_spec, FloatAxioms.mul_spec. unfold SF64mul.
  destruct (Prim2SF q) as [s|s| |[] m e]; cbn in Hq; try contradiction;
    destruct (Prim2SF G) as [s'|s'| |[] m' e']; cbn in HG;
    try contradiction; try reflexivity.
  apply (rounds_to_monotone _ _ _ _ (SFmul_rounds _ _ _ _ Hvq HvG)
           (rounds_to_itself m' e' HvG)).
  assert (Hone : valid_binary prec emax (S754_finite false (2 ^ 52) (-52))
                 = true) by reflexivity.
  pose proof (SFleb_value _ _ _ _ Hvq Hone Hle) as Hval.
  change (value (2 ^ 52) (-52)) with (inject_Z (2 ^ 52) * pow2 (-52))%Q
    in Hval.
  assert (H1 : (inject_Z (2 ^ 52) * pow2 (-52) == 1)%Q) by reflexivity.
  rewrite H1 in Hval.
  pose proof (value_pos m' e') as HG0.
  pose proof (value_pos m e) as Hq0.
  nra.
Qed.




(** *** The amounts before rounding *)

Lemma rate_finite_nonneg (q G : float) :
  finite_nonneg (Prim2SF q) -> (q <=? 1) = true ->
  finite_nonneg (Prim2SF G) ->
  finite_nonneg (Prim2SF (q * G)).
Proof.
  intros Hq Hle HG.
  apply (SFleb_finite _ (Prim2SF G));
    [now apply mul_nonneg|exact HG|].
  rewrite <- FloatAxioms.leb_spec. now apply mul_le_total.
Qed.

Lemma share_finite_nonneg (usages : list float) (u E : float) :
  (forall x, List.In x usages -> finite_nonneg (Prim2SF x)) ->
  List.In u usages ->
  finite_nonneg (Prim2SF E) ->
  let T := List.fold_left PrimFloat.add usages (float_of_Z 0) in
  finite_nonneg (Prim2SF (share u T E)).
Proof.
  intros Husages Hu HE T.
  assert (H0 : nonneg (Prim2SF (float_of_Z 0))) by exact I.
  destruct (sum_bounds usages (float_of_Z 0) H0 Husages) as [HT Habove].
  fold T in HT, Habove.
  unfold share. cbn [JS.gt JS.lt JS.of_Z JS.mul JS.div binary64].
  change (float_of_Z 0) with 0 in *.
  destruct (0 <? T) eqn:Hpos; [|exact I].
  apply rate_finite_nonneg; [| |exact HE];
    apply quotient_bounds; try (now apply Husages);
    try (intros Ha; apply Habove; [exact Ha|now right]);
    rewrite FloatAxioms.ltb_spec in Hpos;
    change (Prim2SF 0) with (S754_zero false) in Hpos;
    destruct (Prim2SF T) as [s|[]| |[] m e]; try discriminate; exact I.
Qed.

Lemma area_share_finite_nonneg (areas : list float) (a G : float) :
  (forall x, List.In x areas -> positive_finite x) ->
  List.In a areas ->
  finite_nonneg (Prim2SF G) ->
  let T := List.fold_left PrimFloat.add areas (float_of_Z 0) in
  finite_nonneg (Prim2SF (a / T * G)).
Proof.
  intros Hareas Ha HG T.
  assert (H0 : nonneg (Prim2SF (float_of_Z 0))) by exact I.
  destruct (sum_above areas (float_of_Z 0) H0 Hareas) as [_ Habove].
  destruct (Habove a (Hareas a Ha) (or_intror Ha)) as [HT Hle].
  fold T in HT, Hle.
  destruct (Hareas a Ha) as [m [e Ea]].
  apply rate_finite_nonneg; [| |exact HG].
  - exact (div_finite a T m e Ea HT Hle).
  - exact (div_le_one a T m e Ea HT Hle).
Qed.

(** The rounded sum of three finite amounts that are not negative is not
    below 0. *)
Lemma rounded_sum_nonneg (a b c : float) :
  finite_nonneg (Prim2SF a) -> finite_nonneg (Prim2SF b) ->
  finite_nonneg (Prim2SF c) ->
  (0 <=? Math_round (a + b + c)) = true.
Proof.
  intros Ha Hb Hc.
  apply nonneg_leb_zero, Math_round_nonneg.
  apply add_finite_nonneg; [|exact Hc].
  apply add_finite_nonneg; [|exact Hb].
  now apply finite_nonneg_nonneg.
Qed.

End Binary64Bounds.

(** ** Rounding in exact arithmetic *)

Module ExactBounds.

Import Exact.
Local Open Scope Q_scope.





End ExactBounds.

(** The amounts before rounding add up to the totals, in exact
    arithmetic. *)
Section ExactShares.

Variable s : SqlDatabase Q.
Variables year month : Z.





End ExactShares.

(** The usages of the billed units, when the readings are finite and not
    negative. *)
Section Usages.

Variable s : SqlDatabase float.
Variables year month : Z.

Hypothesis readings_finite :
  forall r, In r (meter_readings s) ->
    is_finite (MeterReading.electricity_reading r) = true
    /\ (0 <=? MeterReading.electricity_reading r)%float = true
    /\ is_finite (MeterReading.water_reading r) = true
    /\ (0 <=? MeterReading.water_reading r)%float = true.

Lemma billed_reading_In (uc : Unit.t float * MeterReading.t float) :
  In uc (billed_in s year month) -> In (snd uc) (meter_readings s).
Proof.
  intros Huc. apply billed_In in Huc. destruct Huc as [_ Hfound].
  apply find_some in Hfound. destruct Hfound as [Hin _].
  unfold currentReadings_of in Hin. now apply filter_In in Hin.
Qed.

Lemma electricity_usages_finite (x : float) :
  In x (map (electricityUsage_of (meter_readings s) year month)
          (billed_in s year month)) ->
  Binary64Format.finite_nonneg (Prim2SF x).
Proof.
  intros Hx. apply in_map_iff in Hx. destruct Hx as [uc [<- Huc]].
  unfold electricityUsage_of, calculateElectricityUsage.
  destruct (previousReading_of _ _ _ _) as [p|] eqn:Hp; [|exact I].
  apply find_some in Hp. destruct Hp as [Hp _].
  apply billed_reading_In in Huc.
  destruct (readings_finite _ Huc) as (H1 & H2 & _).
  destruct (readings_finite _ Hp) as (H3 & H4 & _).
  apply Binary64Bounds.usage_finite_nonneg;
    now apply Binary64Order.finite_nonneg_intro.
Qed.

Lemma water_usages_finite (x : float) :
  In x (map (waterUsage_of (meter_readings s) year month)
          (billed_in s year month)) ->
  Binary64Format.finite_nonneg (Prim2SF x).
Proof.
  intros Hx. apply in_map_iff in Hx. destruct Hx as [uc [<- Huc]].
  unfold waterUsage_of, calculateWaterUsage.
  destruct (previousReading_of _ _ _ _) as [p|] eqn:Hp; [|exact I].
  apply find_some in Hp. destruct Hp as [Hp _].
  apply billed_reading_In in Huc.
  destruct (readings_finite _ Huc) as (_ & _ & H1 & H2).
  destruct (readings_finite _ Hp) as (_ & _ & H3 & H4).
  apply Binary64Bounds.usage_finite_nonneg;
    now apply Binary64Order.finite_nonneg_intro.
Qed.

End Usages.

(** ** C1: how [total_cost] is rounded *)



(** ** C2: the amounts of the sample period *)

(** C2, as stated, fails: the electricity costs of the sample period are
    31732 and 15708, not 31727 and 15713. *)
Lemma sample_electricity_costs_differ_from_the_spec :
  fst (Sample.sample_run None) = Normal [Sample.bill_601A; Sample.bill_601B]
  /\ (UnitBill.electricity_cost Sample.bill_601A =? 31727)%float = false
  /\ (UnitBill.electricity_cost Sample.bill_601B =? 15713)%float = false.
Proof. repeat split; vm_compute; reflexivity. Qed.

(** C2, amended: on the sample period the calculation returns the bill of
    601A with electricity 31732, water 8720 and management 74543, and the
    bill of 601B with electricity 15708, water 8720 and management 149087;
    the two electricity costs add up to 47440. *)
Theorem sample_period_bills :
  fst (Sample.sample_run None)
  = Normal
      [ UnitBill.mk "601A" 2024 2 31732%float 8720%float 74543%float
          114996%float;
        UnitBill.mk "601B" 2024 2 15708%float 8720%float 149087%float
          173514%float ]
  /\ (31732 + 15708)%float = 47440%float.
Proof. split; vm_compute; reflexivity. Qed.

(** ** C3: the shares add up to the totals *)




(** On the sample period the binary64 amounts before rounding add up to the
    totals without any error. *)
Example sample_shares_add_up :
  sum (map (electricityCost_of Sample.sample_store 2024 2 47440%float)
         (billed_in Sample.sample_store 2024 2)) = 47440%float
  /\ sum (map (waterCost_of Sample.sample_store 2024 2 17440%float)
            (billed_in Sample.sample_store 2024 2)) = 17440%float
  /\ sum (map (managementCost_of Sample.sample_store 223630%float)
            (billed_in Sample.sample_store 2024 2)) = 223630%float.
Proof. repeat split; vm_compute; reflexivity. Qed.

(** ** C4: the usage of a period *)



(** ** C5: which units get a bill *)



(** ** C6: the management cost grows with the area *)



(** ** C7: calculating twice *)

(** C7: a second call of [calculateAndSaveBills] for the same period with the
    same totals returns what the first call returned and leaves the database
    as the first call left it; and what a call returns does not depend on the
    [monthly_bills] and [unit_bills] tables. *)
Theorem calculateAndSaveBills_twice
    {num : Type} `{JS.Number num} (d : Database num) (year month : Z)
    (totalElectricityCost totalWaterCost totalManagementCost : num) :
  let calculate :=
    calculateAndSaveBills year month
      totalElectricityCost totalWaterCost totalManagementCost in
  let first := calculate d in
  let second := calculate (snd first) in
  fst second = fst first
  /\ snd second = snd first
  /\ forall registry readings monthly monthly' bills bills',
       fst (calculate (Some (mkSql registry readings monthly bills)))
       = fst (calculate (Some (mkSql registry readings monthly' bills'))).
Proof.
  intros calculate first second. subst first second calculate.
  split; [|split].
  - destruct d as [s|]; [|reflexivity].
    rewrite !calculateAndSaveBills_run. cbn [fst snd].
    rewrite calculateAndSaveBills_run. cbn [fst].
    f_equal; now apply bills_of_reads.
  - destruct d as [s|]; [|reflexivity].
    rewrite !calculateAndSaveBills_run. cbn [fst snd].
    rewrite calculateAndSaveBills_run. cbn [snd].
    f_equal. apply store_after_twice.
  - intros registry readings monthly monthly' bills bills'.
    rewrite !calculateAndSaveBills_run. cbn [fst].
    f_equal; now apply bills_of_reads.
Qed.

(** ** C8: the usage shown is the usage billed *)



(** ** C9: no reading, no calculation *)

(** A handler that returned with an error message, the state untouched. *)
Ltac handler_returns :=
  cbn; do 2 eexists; split; [reflexivity|split; reflexivity].

(** C9: when the database has no reading for the selected month (or is not
    initialised), each of the two handlers ends with an error message, keeps
    the bills it showed, and leaves the database as it was. *)
Theorem handlers_do_not_write_without_readings
    {num : Type} `{JS.Number num} (d : Database num)
    (selectedYear selectedMonth : Z) (a1 a2 a3 : num)
    (form : BillCalculationFormState num) (st : BillManagementState num) :
  (forall s, d = Some s ->
     currentReadings_of (meter_readings s) selectedYear selectedMonth = []) ->
  (exists form' t,
     handleCalculate selectedYear selectedMonth a1 a2 a3 form d
     = (Normal form', d)
     /\ form_message form' = Some (mkMessage error t)
     /\ form_calculatedBills form' = form_calculatedBills form)
  /\ (exists st' t,
        handleCalculateBills selectedYear selectedMonth a1 a2 a3 st d
        = (Normal st', d)
        /\ message st' = Some (mkMessage error t)
        /\ calculatedBills st' = calculatedBills st).
Proof.
  intros Hempty. split.
  - unfold handleCalculate, try_catch.
    destruct (JS.isNaN a1 || JS.isNaN a2 || JS.isNaN a3);
      [handler_returns|].
    destruct ((a1 < JS.of_Z 0)%js || (a2 < JS.of_Z 0)%js
              || (a3 < JS.of_Z 0)%js);
      [handler_returns|].
    destruct d as [s|]; [|handler_returns].
    unfold bind. rewrite getMeterReadings_run.
    rewrite (Hempty s eq_refl). handler_returns.
  - unfold handleCalculateBills, try_catch.
    destruct (JS.isNaN a1 || JS.isNaN a2 || JS.isNaN a3);
      [handler_returns|].
    destruct ((a1 < JS.of_Z 0)%js || (a2 < JS.of_Z 0)%js
              || (a3 < JS.of_Z 0)%js);
      [handler_returns|].
    destruct (calculatedSharedCost st < JS.of_Z 0)%js; [handler_returns|].
    destruct d as [s|]; [|handler_returns].
    unfold bind. rewrite getMeterReadings_run.
    rewrite (Hempty s eq_refl). handler_returns.
Qed.

Lemma handlers_do_not_write_witness :
  let d := snd (initialize (num := float) None) in
  exists form',
    handleCalculate 2024 2 47440%float 17440%float 223630%float
      (mkFormState [] None) d
    = (Normal form', d)
    /\ form_message form' = Some (mkMessage error (ReadingsMissing 2024 2)).
Proof.
  intros d.
  destruct (@handlers_do_not_write_without_readings _ _ d 2024 2
              47440%float 17440%float 223630%float
              (mkFormState [] None)
              (mkManagementState 223630%float [] None))
    as [[form' [t [Hrun [Hmsg _]]]] _].
  - intros s Hs. injection Hs as <-. reflexivity.
  - exists form'. split; [exact Hrun|].
    vm_compute in Hrun. injection Hrun as <-. reflexivity.
Defined.

(** ** C10: the monthly bill is always saved *)



(** * More of the code *)

(** ** Readings saved and read back *)





(** ** What a calculation leaves alone *)





(** ** The order in which rows were saved *)

(** The bills that [calculateAndSaveBills] returns do not depend on the
    order in which the units and the readings were saved: two databases
    whose tables hold the same units and the same readings, with unique
    keys, give the same bills. *)
Theorem bills_do_not_depend_on_the_order_of_the_rows
    {num : Type} `{JS.Number num} (s1 s2 : SqlDatabase num)
    (year month : Z)
    (totalElectricityCost totalWaterCost totalManagementCost : num) :
  Permutation (units s1) (units s2) ->
  Permutation (meter_readings s1) (meter_readings s2) ->
  unique_units s1 ->
  unique_readings s1 ->
  fst (calculateAndSaveBills year month
         totalElectricityCost totalWaterCost totalManagementCost (Some s1))
  = fst (calculateAndSaveBills year month
           totalElectricityCost totalWaterCost totalManagementCost
           (Some s2)).
Proof.
  intros Hunits Hreadings Huniq_units Huniq_readings.
  rewrite !calculateAndSaveBills_run. cbn [fst]. f_equal.
  now apply bills_of_permutation.
Qed.

Lemma bills_do_not_depend_on_the_order_witness :
  fst (calculateAndSaveBills 2024 2 47440%float 17440%float 223630%float
         (Some Sample.sample_store))
  = fst (calculateAndSaveBills 2024 2 47440%float 17440%float 223630%float
           (Some
              {| units := [Unit.mk "601B" "601B호" 120%float;
                           Unit.mk "601A" "601A호" 60%float];
                 meter_readings :=
                   SampleData.februaryReadings ++ SampleData.januaryReadings;
                 monthly_bills := [];
                 unit_bills := [] |})).
Proof.
  apply bills_do_not_depend_on_the_order_of_the_rows.
  - apply perm_swap.
  - apply Permutation_app_comm.
  - unfold unique_units. cbn.
    repeat constructor; cbn; intuition discriminate.
  - intros p q Hp Hq. cbn in Hp, Hq.
    repeat (destruct Hp as [<-|Hp]; [|]); try contradiction;
      repeat (destruct Hq as [<-|Hq]; [|]); try contradiction;
      intros Hc; try reflexivity; vm_compute in Hc; discriminate.
Defined.

(** ** The amounts of a bill are bounded *)





(** ** Rounding, in exact arithmetic *)




(** ** The registry of units *)

(** [handleSaveUnit] with a form that passes its checks (an id and a name
    that are not empty, an area above 0, and, when no unit is being edited,
    an id that is not among the listed units), on an initialised database:
    the unit of the form replaces the row of its id in [units] and is the
    last row; the readings and the bills stay as they were; the list shown
    is what [getUnits] returns afterwards, the dialog is closed, the form
    is cleared and the message says whether a unit was added or updated. *)
Theorem saved_unit_is_registered
    {num : Type} `{JS.Number num} (parseFloat : string -> num)
    (st : UnitManagement.State num) (s : SqlDatabase num) :
  let form := UnitManagement.unitForm st in
  let unit :=
    Unit.mk (UnitManagement.id form) (UnitManagement.name form)
      (parseFloat (UnitManagement.area form)) in
  UnitManagement.id form <> ""%string ->
  UnitManagement.name form <> ""%string ->
  JS.isNaN (Unit.area unit) = false ->
  (JS.of_Z 0 < Unit.area unit)%js = true ->
  (UnitManagement.editingUnit st = None ->
   forall u, In u (UnitManagement.units st) -> Unit.id u <> Unit.id unit) ->
  exists st' s',
    UnitManagement.handleSaveUnit parseFloat st (Some s)
    = (Normal st', Some s')
    /\ units s'
       = filter (fun u => negb (Unit.id u =? Unit.id unit)%string) (units s)
         ++ [unit]
    /\ meter_readings s' = meter_readings s
    /\ monthly_bills s' = monthly_bills s
    /\ unit_bills s' = unit_bills s
    /\ getUnits (Some s') = (Normal (UnitManagement.units st'), Some s')
    /\ In unit (UnitManagement.units st')
    /\ (forall u, In u (UnitManagement.units st') ->
          Unit.id u = Unit.id unit -> u = unit)
    /\ UnitManagement.open st' = false
    /\ UnitManagement.editingUnit st' = None
    /\ UnitManagement.unitForm st' = UnitManagement.mkUnitForm "" "" ""
    /\ UnitManagement.message st'
       = Some (UnitManagement.mkMessage success
                 match UnitManagement.editingUnit st with
                 | Some _ => UnitManagement.UnitUpdated
                 | None => UnitManagement.UnitAdded
                 end).
Proof.
  intros form unit Hid Hname Hnan Hpos Hfresh.
  unfold UnitManagement.handleSaveUnit, try_catch.
  fold form.
  apply String.eqb_neq in Hid, Hname.
  cbn [Unit.area Unit.id unit] in *.
  rewrite Hid, Hname, Hnan. unfold le. rewrite Hpos, !andb_false_r.
  cbn [orb].
  assert (Hnot_listed :
    match UnitManagement.editingUnit st with
    | Some _ => false
    | None => true
    end
    && existsb (fun u => (Unit.id u =? UnitManagement.id form)%string)
         (UnitManagement.units st) = false).
  { destruct (UnitManagement.editingUnit st) as [e|]; [reflexivity|].
    cbn [andb]. apply not_true_is_false. intros Hex.
    apply existsb_exists in Hex. destruct Hex as [u [Hu Heq]].
    apply String.eqb_eq in Heq. exact (Hfresh eq_refl u Hu Heq). }
  rewrite Hnot_listed.
  do 2 eexists. split; [reflexivity|].
  split; [reflexivity|]. split; [reflexivity|]. split; [reflexivity|].
  split; [reflexivity|]. split; [reflexivity|].
  cbn [UnitManagement.units UnitManagement.handleCloseDialog
       UnitManagement.setMessage UnitManagement.setUnits
       UnitManagement.open UnitManagement.editingUnit
       UnitManagement.unitForm UnitManagement.message].
  split; [|split; [|repeat split]].
  - apply (Permutation_in _ (Permutation_sym (order_by_id_perm _))).
    cbn [units insert_unit]. unfold insert_or_replace.
    apply in_or_app. right. now left.
  - intros u Hu Hsame.
    apply (Permutation_in _ (order_by_id_perm _)) in Hu.
    cbn [units insert_unit] in Hu. unfold insert_or_replace in Hu.
    apply in_app_or in Hu. destruct Hu as [Hu|[<-|[]]]; [|reflexivity].
    apply filter_In in Hu. destruct Hu as [_ Hu].
    unfold unit_conflict in Hu. cbn [Unit.id] in Hu. fold form in Hu.
    cbn [Unit.id unit] in Hsame.
    rewrite Hsame, String.eqb_refl in Hu. discriminate.
Qed.

Lemma saved_unit_is_registered_witness :
  let parseFloat :=
    fun text : string => if (text =? "84.5")%string then 84.5%float else nan
  in
  let st :=
    UnitManagement.mkState
      [Unit.mk "601A" "601A호" 60%float; Unit.mk "601B" "601B호" 120%float]
      true None (UnitManagement.mkUnitForm "701" "701호" "84.5") None in
  exists st' s',
    UnitManagement.handleSaveUnit parseFloat st (Some Sample.sample_store)
    = (Normal st', Some s')
    /\ UnitManagement.units st'
       = [Unit.mk "601A" "601A호" 60%float;
          Unit.mk "601B" "601B호" 120%float;
          Unit.mk "701" "701호" 84.5%float].
Proof.
  intros parseFloat st.
  destruct (@saved_unit_is_registered float _ parseFloat st
              Sample.sample_store)
    as [st' [s' [Hrun _]]].
  - discriminate.
  - discriminate.
  - reflexivity.
  - reflexivity.
  - intros _ u [<-|[<-|[]]]; discriminate.
  - exists st', s'. split; [exact Hrun|].
    vm_compute in Hrun. now injection Hrun as <- _.
Defined.

(** [handleSaveUnit] with a form that fails a check: when the id or the
    name is empty or the area is not a number above 0, or when no unit is
    being edited and the id is among the listed units, the handler only
    sets an error message; the database, initialised or not, the list and
    the dialog stay as they were. *)
Theorem rejected_unit_is_not_saved
    (parseFloat : string -> float) (st : UnitManagement.State float)
    (d : Database float) :
  let form := UnitManagement.unitForm st in
  let area := parseFloat (UnitManagement.area form) in
  (UnitManagement.id form = ""%string
   \/ UnitManagement.name form = ""%string
   \/ is_nan area = true
   \/ (0 <? area)%float = false)
  \/ (UnitManagement.editingUnit st = None
      /\ exists u, In u (UnitManagement.units st)
                   /\ Unit.id u = UnitManagement.id form) ->
  exists t,
    UnitManagement.handleSaveUnit parseFloat st d
    = (Normal
         (UnitManagement.setMessage st (UnitManagement.mkMessage error t)),
       d)
    /\ (t = UnitManagement.FieldsInvalid \/ t = UnitManagement.UnitExists).
Proof.
  intros form area Hrejected.
  unfold UnitManagement.handleSaveUnit, try_catch. fold form. fold area.
  destruct ((UnitManagement.id form =? "")%string
            || (UnitManagement.name form =? "")%string
            || JS.isNaN area || le area (JS.of_Z 0)) eqn:Hinvalid.
  - exists UnitManagement.FieldsInvalid. split; [reflexivity|now left].
  - exists UnitManagement.UnitExists. split; [|now right].
    apply orb_false_elim in Hinvalid. destruct Hinvalid as [Hinvalid Hle].
    apply orb_false_elim in Hinvalid. destruct Hinvalid as [Hinvalid Hnan].
    apply orb_false_elim in Hinvalid. destruct Hinvalid as [Hid Hname].
    apply String.eqb_neq in Hid, Hname.
    cbn [JS.isNaN Binary64.binary64] in Hnan.
    destruct Hrejected as [[H1|[H1|[H1|H1]]]|[Hadd [u [Hu Hsame]]]];
      try contradiction; try congruence.
    + exfalso. unfold le in Hle.
      cbn [JS.isNaN JS.lt JS.of_Z Binary64.binary64] in Hle.
      rewrite Hnan in Hle.
      change (Binary64.float_of_Z 0) with 0%float in Hle.
      rewrite H1 in Hle. discriminate.
    + rewrite Hadd. cbn [andb].
      assert (Hex : existsb
                      (fun u => (Unit.id u =? UnitManagement.id form)%string)
                      (UnitManagement.units st) = true).
      { apply existsb_exists. exists u. split; [exact Hu|].
        now apply String.eqb_eq. }
      rewrite Hex. reflexivity.
Qed.

Lemma rejected_unit_is_not_saved_witness :
  let parseFloat :=
    fun text : string => if (text =? "84.5")%string then 84.5%float else nan
  in
  let st :=
    UnitManagement.mkState
      [Unit.mk "601A" "601A호" 60%float; Unit.mk "601B" "601B호" 120%float]
      true None (UnitManagement.mkUnitForm "601A" "601A호" "84.5") None in
  exists t,
    UnitManagement.handleSaveUnit parseFloat st (Some Sample.sample_store)
    = (Normal
         (UnitManagement.setMessage st (UnitManagement.mkMessage error t)),
       Some Sample.sample_store).
Proof.
  intros parseFloat st.
  destruct (@rejected_unit_is_not_saved parseFloat st
              (Some Sample.sample_store))
    as [t [Hrun _]].
  - right. split; [reflexivity|].
    exists (Unit.mk "601A" "601A호" 60%float).
    split; [now left|reflexivity].
  - now exists t.
Defined.

(** [handleDeleteUnit], confirmed, for an id without an apostrophe and
    without a character 0, on an initialised database: afterwards no unit,
    no reading and no unit bill of that id is left, for any month; the rows
    of the other units and the monthly bills stay as they were; the list
    shown is what [getUnits] returns.  Not confirmed, the handler does
    nothing. *)
Theorem deleted_unit_leaves_no_row
    {num : Type} `{JS.Number num} (unitId : string)
    (st : UnitManagement.State num) (s : SqlDatabase num) :
  breaks_literal unitId = false ->
  UnitManagement.handleDeleteUnit false unitId st = Some (ret st)
  /\ exists run st' s',
       UnitManagement.handleDeleteUnit true unitId st = Some run
       /\ run (Some s) = (Normal st', Some s')
       /\ units s'
          = filter (fun u => negb (Unit.id u =? unitId)%string) (units s)
       /\ meter_readings s'
          = filter (fun r => negb (MeterReading.unit_id r =? unitId)%string)
              (meter_readings s)
       /\ unit_bills s'
          = filter (fun b => negb (UnitBill.unit_id b =? unitId)%string)
              (unit_bills s)
       /\ monthly_bills s' = monthly_bills s
       /\ getUnits (Some s') = (Normal (UnitManagement.units st'), Some s')
       /\ (forall u, In u (UnitManagement.units st') -> Unit.id u <> unitId)
       /\ (forall year month,
             getPreviousMonthReading unitId year month (Some s')
             = (Normal None, Some s')
             /\ getUsageDetails unitId year month (Some s')
                = (Normal None, Some s')
             /\ forall rows bills,
                  getMeterReadings year month (Some s')
                  = (Normal rows, Some s') ->
                  getUnitBills year month (Some s')
                  = (Normal bills, Some s') ->
                  (forall r, In r rows -> MeterReading.unit_id r <> unitId)
                  /\ (forall b, In b bills -> UnitBill.unit_id b <> unitId))
       /\ UnitManagement.message st'
          = Some (UnitManagement.mkMessage success
                    UnitManagement.UnitDeleted).
Proof.
  intros Hsafe. split; [reflexivity|].
  unfold UnitManagement.handleDeleteUnit, text_literal. rewrite Hsafe.
  cbn [negb]. do 3 eexists. split; [reflexivity|].
  split; [reflexivity|].
  cbn [units meter_readings unit_bills monthly_bills delete_unit].
  split; [reflexivity|]. split; [reflexivity|]. split; [reflexivity|].
  split; [reflexivity|]. split; [reflexivity|].
  assert (Hgone : forall r : MeterReading.t num,
            In r (filter
                    (fun r => negb (MeterReading.unit_id r =? unitId)%string)
                    (meter_readings s)) ->
            MeterReading.unit_id r <> unitId).
  { intros r Hr Hsame. apply filter_In in Hr. destruct Hr as [_ Hr].
    rewrite Hsame, String.eqb_refl in Hr. discriminate. }
  split; [|split; [|reflexivity]].
  - intros u Hu Hsame.
    cbn [UnitManagement.units UnitManagement.setMessage
         UnitManagement.setUnits] in Hu.
    apply (Permutation_in _ (order_by_id_perm _)) in Hu.
    cbn [units] in Hu. apply filter_In in Hu. destruct Hu as [_ Hu].
    rewrite Hsame, String.eqb_refl in Hu. discriminate.
  - intros year month.
    assert (Hprevious :
      previousReading_of
        (filter (fun r => negb (MeterReading.unit_id r =? unitId)%string)
           (meter_readings s))
        unitId year month = None).
    { apply previousReading_of_none. intros p Hp [Hsame _].
      exact (Hgone p Hp Hsame). }
    assert (Hcurrent :
      find_reading unitId
        (currentReadings_of
           (filter (fun r => negb (MeterReading.unit_id r =? unitId)%string)
              (meter_readings s))
           year month) = None).
    { unfold find_reading.
      destruct (find _ _) as [r|] eqn:Hfind; [|reflexivity].
      apply find_some in Hfind. destruct Hfind as [Hr Hsame].
      apply String.eqb_eq in Hsame.
      unfold currentReadings_of in Hr. apply filter_In in Hr.
      destruct Hr as [Hr _]. now apply Hgone in Hr. }
    split; [|split].
    + rewrite getPreviousMonthReading_run.
      cbn [meter_readings delete_unit]. now rewrite Hprevious.
    + unfold getUsageDetails, bind.
      rewrite getMeterReadings_run, getPreviousMonthReading_run.
      cbn [meter_readings delete_unit]. fold (currentReadings_of
        (filter (fun r => negb (MeterReading.unit_id r =? unitId)%string)
           (meter_readings s)) year month).
      now rewrite Hcurrent.
    + intros rows bills Hrows Hbills.
      rewrite getMeterReadings_run in Hrows.
      rewrite getUnitBills_run in Hbills.
      cbn [meter_readings unit_bills delete_unit] in Hrows, Hbills.
      injection Hrows as <-. injection Hbills as <-.
      split.
      * intros r Hr. apply filter_In in Hr. destruct Hr as [Hr _].
        now apply Hgone.
      * intros b Hb Hsame. apply filter_In in Hb. destruct Hb as [Hb _].
        apply filter_In in Hb. destruct Hb as [_ Hb].
        rewrite Hsame, String.eqb_refl in Hb. discriminate.
Qed.

Lemma deleted_unit_leaves_no_row_witness :
  exists run st' s',
    UnitManagement.handleDeleteUnit true "601B"
      (UnitManagement.mkState
         [Unit.mk "601A" "601A호" 60%float;
          Unit.mk "601B" "601B호" 120%float]
         false None (UnitManagement.mkUnitForm "" "" "") None)
    = Some run
    /\ run (Some Sample.sample_store) = (Normal st', Some s')
    /\ UnitManagement.units st' = [Unit.mk "601A" "601A호" 60%float]
    /\ meter_readings s'
       = [MeterReading.mk "601A" 2024 1 1923%float SampleData.lit_89_7;
          MeterReading.mk "601A" 2024 2 2123%float SampleData.lit_93_36].
Proof.
  destruct (@deleted_unit_leaves_no_row float _ "601B"
              (UnitManagement.mkState
                 [Unit.mk "601A" "601A호" 60%float;
                  Unit.mk "601B" "601B호" 120%float]
                 false None (UnitManagement.mkUnitForm "" "" "") None)
              Sample.sample_store eq_refl)
    as [_ [run [st' [s' [Hrun [Hresult [_ [Hreadings _]]]]]]]].
  exists run, st', s'. split; [exact Hrun|]. split; [exact Hresult|].
  split.
  - injection Hrun as <-. vm_compute in Hresult.
    now injection Hresult as <- _.
  - rewrite Hreadings. reflexivity.
Defined.

(** ** The forms that save readings *)

(** [handleSaveReadings] of [BillManagement], for listed units with distinct
    ids, on an initialised database.  The message is the error about
    invalid readings exactly when a field of some unit is not a number, but
    the units are saved one by one all the same: afterwards the reading of
    the month of every unit whose fields are numbers and not both empty is
    the one built from its fields, while a unit with a field that is not a
    number, or with both fields empty, keeps the reading it had.  The units
    and the bills stay as they were. *)
Theorem readings_are_saved_unit_by_unit
    {num : Type} `{JS.Number num} (parseFloat : string -> num)
    (listed : list (Unit.t num)) (readings : Readings)
    (selectedYear selectedMonth : Z) (s : SqlDatabase num) :
  let row := reading_of_fields parseFloat readings selectedYear selectedMonth
  in
  let invalid := invalid_fields parseFloat readings selectedYear selectedMonth
  in
  let entered := entered_fields readings (num := num) in
  let reading_of (s : SqlDatabase num) (unit : Unit.t num) :=
    find_reading (Unit.id unit)
      (currentReadings_of (meter_readings s) selectedYear selectedMonth) in
  NoDup (map (@Unit.id num) listed) ->
  exists message s',
    BillManagement.handleSaveReadings parseFloat listed readings
      selectedYear selectedMonth (Some s)
    = (Normal message, Some s')
    /\ (message = BillManagement.ReadingsInvalid
        <-> exists unit, In unit listed /\ invalid unit = true)
    /\ (forall unit,
          In unit listed -> invalid unit = false -> entered unit = true ->
          reading_of s' unit = Some (row unit))
    /\ (forall unit,
          In unit listed -> invalid unit = true \/ entered unit = false ->
          reading_of s' unit = reading_of s unit)
    /\ units s' = units s
    /\ monthly_bills s' = monthly_bills s
    /\ unit_bills s' = unit_bills s.
Proof.
  intros row invalid entered reading_of Hnodup.
  unfold BillManagement.handleSaveReadings, try_catch, bind.
  rewrite saveReadings_forEach_run. cbv zeta. cbn [orb Nat.add].
  fold row invalid entered.
  set (saved := filter (fun u => negb (invalid u) && entered u) listed).
  assert (Hsaved_nodup : NoDup (map (@Unit.id num) saved))
    by now apply NoDup_map_filter.
  exists (if existsb invalid listed then BillManagement.ReadingsInvalid
          else if (length saved =? 0)%nat then BillManagement.NothingToSave
          else BillManagement.ReadingsSaved selectedYear selectedMonth
                 (length saved)).
  eexists. split.
  { destruct (existsb invalid listed); [reflexivity|].
    destruct (length saved =? 0)%nat; reflexivity. }
  split; [|split; [|split; [|repeat split]]].
  - split.
    + intros Hmessage. apply existsb_exists.
      destruct (existsb invalid listed); [reflexivity|].
      destruct (length saved =? 0)%nat; discriminate.
    + intros Hsome. apply existsb_exists in Hsome. now rewrite Hsome.
  - intros unit Hunit Hvalid Hentered. subst reading_of. cbv beta.
    cbn [meter_readings with_readings].
    apply saved_reading_is_found; [exact Hsaved_nodup|].
    apply filter_In. split; [exact Hunit|].
    now rewrite Hvalid, Hentered.
  - intros unit Hunit Hskipped. subst reading_of. cbv beta.
    cbn [meter_readings with_readings].
    apply other_readings_are_kept.
    intros r Hr Hsame. apply in_map_iff in Hr.
    destruct Hr as [v [<- Hv]]. cbn in Hsame.
    apply filter_In in Hv. destruct Hv as [Hv Hkeep].
    assert (v = unit).
    { clear - Hnodup Hv Hunit Hsame.
      induction listed as [|w rest IH]; [contradiction|].
      cbn in Hnodup. apply NoDup_cons_iff in Hnodup.
      destruct Hnodup as [Hnotin Hnodup].
      destruct Hv as [->|Hv], Hunit as [->|Hunit]; try reflexivity.
      - exfalso. apply Hnotin. rewrite Hsame. now apply in_map.
      - exfalso. apply Hnotin. rewrite <- Hsame. now apply in_map.
      - now apply IH. }
    subst v. apply andb_prop in Hkeep. destruct Hkeep as [Hvalid Hentered].
    destruct Hskipped as [Hinvalid|Hempty].
    + rewrite Hinvalid in Hvalid. discriminate.
    + rewrite Hempty in Hentered. discriminate.
Qed.

Lemma readings_are_saved_witness :
  let parseFloat :=
    fun text : string =>
      if (text =? "2200")%string then 2200%float
      else if (text =? "0")%string then 0%float else nan in
  let readings : Readings :=
    fun unitId =>
      if (unitId =? "601A")%string
      then Some (ReadingFields.mk "2200" "")
      else if (unitId =? "601B")%string
      then Some (ReadingFields.mk "abc" "95")
      else None in
  exists s',
    BillManagement.handleSaveReadings parseFloat
      [Unit.mk "601A" "601A호" 60%float; Unit.mk "601B" "601B호" 120%float]
      readings 2024 3 (Some Sample.sample_store)
    = (Normal BillManagement.ReadingsInvalid, Some s')
    /\ find_reading "601A" (currentReadings_of (meter_readings s') 2024 3)
       = Some (MeterReading.mk "601A" 2024 3 2200%float 0%float).
Proof.
  intros parseFloat readings.
  destruct (@readings_are_saved_unit_by_unit float _ parseFloat
              [Unit.mk "601A" "601A호" 60%float;
               Unit.mk "601B" "601B호" 120%float]
              readings 2024 3 Sample.sample_store)
    as [message [s' [Hrun [Hmessage [Hsaved _]]]]].
  - cbn. repeat constructor; cbn; intuition discriminate.
  - exists s'. split.
    + rewrite Hrun. f_equal. f_equal. apply Hmessage.
      exists (Unit.mk "601B" "601B호" 120%float).
      split; [right; now left|reflexivity].
    + apply (Hsaved (Unit.mk "601A" "601A호" 60%float));
        [now left|reflexivity|reflexivity].
Defined.

(** [handleSubmit] of [MeterReadingForm], for listed units with distinct
    ids, on an initialised database, when ["0"] parses to 0: afterwards
    the reading of the month of every unit whose fields are numbers is the
    one built from its fields, and a unit whose two fields are empty has
    the readings 0 and 0 for the month, whatever it had before. *)
Theorem submitted_form_saves_a_reading_for_every_unit
    {num : Type} `{JS.Number num} (parseFloat : string -> num)
    (listed : list (Unit.t num)) (readings : Readings)
    (selectedYear selectedMonth : Z) (s : SqlDatabase num) :
  let row := reading_of_fields parseFloat readings selectedYear selectedMonth
  in
  let invalid := invalid_fields parseFloat readings selectedYear selectedMonth
  in
  let reading_of (s : SqlDatabase num) (unit : Unit.t num) :=
    find_reading (Unit.id unit)
      (currentReadings_of (meter_readings s) selectedYear selectedMonth) in
  NoDup (map (@Unit.id num) listed) ->
  parseFloat "0"%string = JS.of_Z 0 ->
  JS.isNaN (JS.of_Z 0 : num) = false ->
  exists result s',
    MeterReadingForm.handleSubmit parseFloat listed readings
      selectedYear selectedMonth (Some s)
    = (Normal result, Some s')
    /\ (fst result = MeterReadingForm.ReadingsInvalid
        <-> exists unit, In unit listed /\ invalid unit = true)
    /\ (forall unit,
          In unit listed -> invalid unit = false ->
          reading_of s' unit = Some (row unit))
    /\ (forall unit,
          In unit listed ->
          entered_fields readings unit = false ->
          reading_of s' unit
          = Some (MeterReading.mk (Unit.id unit) selectedYear selectedMonth
                    (JS.of_Z 0) (JS.of_Z 0))).
Proof.
  intros row invalid reading_of Hnodup Hparse Hzero.
  unfold MeterReadingForm.handleSubmit, try_catch, bind.
  rewrite submit_forEach_run. cbv zeta. cbn [orb].
  fold row invalid.
  set (saved := filter (fun u => negb (invalid u)) listed).
  assert (Hsaved_nodup : NoDup (map (@Unit.id num) saved))
    by now apply NoDup_map_filter.
  assert (Hfound : forall unit,
            In unit listed -> invalid unit = false ->
            find_reading (Unit.id unit)
              (currentReadings_of
                 (upsert_all reading_conflict (map row saved)
                    (meter_readings s))
                 selectedYear selectedMonth)
            = Some (row unit)).
  { intros unit Hunit Hvalid.
    apply saved_reading_is_found; [exact Hsaved_nodup|].
    apply filter_In. split; [exact Hunit|]. now rewrite Hvalid. }
  assert (Hempty : forall unit,
            entered_fields readings unit = false ->
            invalid unit = false
            /\ row unit
               = MeterReading.mk (Unit.id unit) selectedYear selectedMonth
                   (JS.of_Z 0) (JS.of_Z 0)).
  { intros unit Hunit. subst invalid row.
    unfold invalid_fields, reading_of_fields, entered_fields in *.
    cbn [MeterReading.electricity_reading MeterReading.water_reading].
    apply orb_false_elim in Hunit. destruct Hunit as [He Hw].
    assert (Htext : forall text : option string,
              entered text = false -> text_or_0 text = "0"%string).
    { intros [text|]; [|reflexivity]. cbn.
      destruct (text =? "")%string; [reflexivity|discriminate]. }
    rewrite (Htext _ He), (Htext _ Hw), Hparse, Hzero.
    split; reflexivity. }
  exists (if existsb invalid listed
          then (MeterReadingForm.ReadingsInvalid, readings)
          else (MeterReadingForm.ReadingsSaved selectedYear selectedMonth,
                MeterReadingForm.resetReadings listed)).
  eexists. split.
  { destruct (existsb invalid listed); reflexivity. }
  split; [|split].
  - split.
    + intros Hmessage. apply existsb_exists.
      destruct (existsb invalid listed); [reflexivity|discriminate].
    + intros Hsome. apply existsb_exists in Hsome. now rewrite Hsome.
  - intros unit Hunit Hvalid. subst reading_of. cbv beta.
    cbn [meter_readings with_readings]. now apply Hfound.
  - intros unit Hunit Hnone. subst reading_of. cbv beta.
    cbn [meter_readings with_readings].
    destruct (Hempty unit Hnone) as [Hvalid <-]. now apply Hfound.
Qed.

Lemma submitted_form_witness :
  let parseFloat :=
    fun text : string => if (text =? "0")%string then 0%float else nan in
  exists result s',
    MeterReadingForm.handleSubmit parseFloat
      [Unit.mk "601A" "601A호" 60%float; Unit.mk "601B" "601B호" 120%float]
      (fun _ => None) 2024 2 (Some Sample.sample_store)
    = (Normal result, Some s')
    /\ find_reading "601A" (currentReadings_of (meter_readings s') 2024 2)
       = Some (MeterReading.mk "601A" 2024 2 0%float 0%float).
Proof.
  intros parseFloat.
  destruct (@submitted_form_saves_a_reading_for_every_unit float _
              parseFloat
              [Unit.mk "601A" "601A호" 60%float;
               Unit.mk "601B" "601B호" 120%float]
              (fun _ => None) 2024 2 Sample.sample_store)
    as [result [s' [Hrun [_ [_ Hzero]]]]].
  - cbn. repeat constructor; cbn; intuition discriminate.
  - reflexivity.
  - reflexivity.
  - exists result, s'. split; [exact Hrun|].
    apply (Hzero (Unit.mk "601A" "601A호" 60%float));
      [now left|reflexivity].
Defined.

(** ** The calculation handlers *)

(** When an amount is not a number, or is below 0, [handleCalculate] and
    [handleCalculateBills] only set an error message, the one about invalid
    amounts in the first case and the one about negative amounts in the
    second; the bills shown and the database, initialised or not, stay as
    they were. *)
Theorem invalid_amounts_are_rejected
    {num : Type} `{JS.Number num} (d : Database num)
    (selectedYear selectedMonth : Z) (a1 a2 a3 : num)
    (form : BillCalculationFormState num) (st : BillManagementState num) :
  let not_a_number := JS.isNaN a1 || JS.isNaN a2 || JS.isNaN a3 in
  let negative :=
    (a1 < JS.of_Z 0)%js || (a2 < JS.of_Z 0)%js || (a3 < JS.of_Z 0)%js in
  let t := if not_a_number then InvalidAmount else NegativeAmount in
  not_a_number || negative = true ->
  handleCalculate selectedYear selectedMonth a1 a2 a3 form d
  = (Normal {| form_calculatedBills := form_calculatedBills form;
               form_message := Some (mkMessage error t) |},
     d)
  /\ handleCalculateBills selectedYear selectedMonth a1 a2 a3 st d
     = (Normal (set_message st (mkMessage error t)), d).
Proof.
  intros not_a_number negative t Hinvalid.
  unfold handleCalculate, handleCalculateBills, try_catch.
  fold not_a_number negative. subst t.
  destruct not_a_number; [split; reflexivity|].
  cbn [orb] in Hinvalid. rewrite Hinvalid. split; reflexivity.
Qed.

Lemma invalid_amounts_are_rejected_witness :
  handleCalculate 2024 2 (-1)%float 17440%float 223630%float
    (mkFormState [] None) (Some Sample.sample_store)
  = (Normal {| form_calculatedBills := [];
               form_message := Some (mkMessage error NegativeAmount) |},
     Some Sample.sample_store).
Proof.
  exact (proj1
           (@invalid_amounts_are_rejected float _ (Some Sample.sample_store)
              2024 2 (-1)%float 17440%float 223630%float
              (mkFormState [] None) (mkManagementState 0%float [] None)
              eq_refl)).
Defined.

(** [handleCalculateBills] never reports that the total fee is below the
    sum of electricity and water: the shared cost that the effect of
    [BillManagement] keeps is [Math.max(0, ...)], which is never below 0. *)
Theorem fee_below_utilities_is_never_reported
    (d : Database float) (selectedYear selectedMonth : Z)
    (totalMgmt totalElec totalWater : float)
    (st : BillManagementState float) :
  calculatedSharedCost st = sharedCost totalMgmt totalElec totalWater ->
  (calculatedSharedCost st <? 0)%float = false
  /\ exists st',
       fst (handleCalculateBills selectedYear selectedMonth
              totalMgmt totalElec totalWater st d)
       = Normal st'
       /\ message st' <> Some (mkMessage error FeeBelowUtilities).
Proof.
  intros Hsync.
  assert (Hshared : (calculatedSharedCost st <? 0)%float = false).
  { rewrite Hsync. apply Binary64Facts.Math_max_0_not_negative. }
  split; [exact Hshared|].
  unfold handleCalculateBills, try_catch, bind.
  cbn [JS.lt JS.isNaN JS.of_Z Binary64.binary64].
  change (Binary64.float_of_Z 0) with 0%float.
  rewrite Hshared.
  destruct (is_nan totalMgmt || is_nan totalElec || is_nan totalWater);
    [eexists; split; [reflexivity|discriminate]|].
  destruct ((totalMgmt <? 0)%float || (totalElec <? 0)%float
            || (totalWater <? 0)%float);
    [eexists; split; [reflexivity|discriminate]|].
  destruct d as [s|].
  - rewrite getMeterReadings_run.
    destruct (length _ =? 0)%nat;
      [eexists; split; [reflexivity|discriminate]|].
    rewrite calculateAndSaveBills_run.
    eexists; split; [reflexivity|discriminate].
  - eexists; split; [reflexivity|discriminate].
Qed.

Lemma fee_below_utilities_witness :
  exists st',
    fst (handleCalculateBills 2024 2 50000%float 47440%float 17440%float
           (mkManagementState 0%float [] None) (Some Sample.sample_store))
    = Normal st'
    /\ message st' <> Some (mkMessage error FeeBelowUtilities).
Proof.
  apply (@fee_below_utilities_is_never_reported
           (Some Sample.sample_store) 2024 2
           50000%float 47440%float 17440%float
           (mkManagementState 0%float [] None)).
  reflexivity.
Defined.



(** ** Usage details of a unit without readings *)

(** On an initialised database [getUsageDetails] returns [null] exactly
    when the unit has no reading of the month; when the unit has one but
    none of the month before, the details show 0 as the previous readings
    and 0 as the usages.  On a database that is not initialised it
    throws. *)
Theorem usage_details_without_readings
    {num : Type} `{JS.Number num} (s : SqlDatabase num) (unitId : string)
    (year month : Z) :
  getUsageDetails unitId year month None
  = (Thrown "Database not initialized"%string, None)
  /\ exists result,
       getUsageDetails unitId year month (Some s) = (Normal result, Some s)
       /\ (result = None
           <-> forall r, In r (meter_readings s) ->
                 ~ (MeterReading.unit_id r = unitId
                    /\ MeterReading.year r = year
                    /\ MeterReading.month r = month))
       /\ forall details,
            result = Some details ->
            previousReading_of (meter_readings s) unitId year month = None ->
            previousElectricity details = JS.of_Z 0
            /\ electricityUsage details = JS.of_Z 0
            /\ previousWater details = JS.of_Z 0
            /\ waterUsage details = JS.of_Z 0.
Proof.
  split; [reflexivity|].
  unfold getUsageDetails, bind.
  rewrite getMeterReadings_run, getPreviousMonthReading_run.
  destruct (find_reading unitId
              (currentReadings_of (meter_readings s) year month))
    as [current|] eqn:Hcurrent.
  - eexists. split; [reflexivity|]. split.
    + split; [discriminate|]. intros Hnone. exfalso.
      unfold find_reading in Hcurrent. apply find_some in Hcurrent.
      destruct Hcurrent as [Hin Hsame]. apply String.eqb_eq in Hsame.
      unfold currentReadings_of in Hin. apply filter_In in Hin.
      destruct Hin as [Hin Hperiod]. apply andb_prop in Hperiod.
      destruct Hperiod as [Hy Hm]. apply Z.eqb_eq in Hy, Hm.
      exact (Hnone current Hin (conj Hsame (conj Hy Hm))).
    + intros details Hdetails Hprevious. injection Hdetails as <-.
      rewrite Hprevious. repeat split.
  - eexists. split; [reflexivity|]. split.
    + split; [|reflexivity]. intros _ r Hr (Hu & Hy & Hm).
      unfold find_reading in Hcurrent.
      assert (Hin : In r (currentReadings_of (meter_readings s) year month)).
      { unfold currentReadings_of. apply filter_In. split; [exact Hr|].
        now rewrite Hy, Hm, !Z.eqb_refl. }
      apply (find_none _ _ Hcurrent) in Hin.
      rewrite Hu, String.eqb_refl in Hin. discriminate.
    + discriminate.
Qed.

Lemma usage_details_witness :
  exists result,
    getUsageDetails "601A" 2024 1 (Some Sample.sample_store)
    = (Normal result, Some Sample.sample_store)
    /\ forall details,
         result = Some details ->
         previousElectricity details = 0%float
         /\ electricityUsage details = 0%float.
Proof.
  destruct (@usage_details_without_readings float _ Sample.sample_store
              "601A" 2024 1)
    as [_ [result [Hrun [_ Hfirst]]]].
  exists result. split; [exact Hrun|].
  intros details Hdetails.
  destruct (Hfirst details Hdetails eq_refl) as (H1 & H2 & _).
  split; assumption.
Defined.

(** ** The bills of a range of months *)

(** [loadRangeBills] always ends.  On an initialised database the months
    that it loads are months from the first to the last month of the range,
    each with its bills, which are not empty, in the order of the calendar;
    every month of the range, from 1 to 12, that has bills is loaded; the
    message says that there is no bill exactly when nothing was loaded.
    On a database that is not initialised, the error is reported only when
    the range holds a month: when the first month is after the last one,
    the database is not read. *)
Theorem months_of_a_range_are_loaded
    {num : Type} `{JS.Number num} (s : SqlDatabase num)
    (startYear startMonth endYear endMonth : Z)
    (st : BillOutput.State num) :
  let nothing :=
    {| BillOutput.bills := BillOutput.bills st;
       BillOutput.rangeBills := [];
       BillOutput.message :=
         Some (BillOutput.mkMessage info
                 (BillOutput.NoBillsInRange startYear startMonth
                    endYear endMonth)) |} in
  (exists loaded,
     BillOutput.loadRangeBills startYear startMonth endYear endMonth st
       (Some s)
     = (Normal
          (Some
             match loaded with
             | [] => nothing
             | _ :: _ =>
                 {| BillOutput.bills := BillOutput.bills st;
                    BillOutput.rangeBills := loaded;
                    BillOutput.message := None |}
             end),
        Some s)
     /\ (forall e, In e loaded ->
           not_before startYear startMonth
             (MonthData.year e) (MonthData.month e)
           /\ not_after endYear endMonth
                (MonthData.year e) (MonthData.month e)
           /\ MonthData.bills e
              = bills_of_month s (MonthData.year e) (MonthData.month e)
           /\ MonthData.bills e <> [])
     /\ (forall year month,
           (1 <= month <= 12)%Z ->
           not_before startYear startMonth year month ->
           not_after endYear endMonth year month ->
           bills_of_month s year month <> [] ->
           In (MonthData.mk year month (bills_of_month s year month))
             loaded)
     /\ StronglySorted earlier loaded)
  /\ (~ not_after endYear endMonth startYear startMonth ->
      BillOutput.loadRangeBills startYear startMonth endYear endMonth st
        None
      = (Normal (Some nothing), None))
  /\ (not_after endYear endMonth startYear startMonth ->
      BillOutput.loadRangeBills startYear startMonth endYear endMonth st
        None
      = (Normal
           (Some
              {| BillOutput.bills := BillOutput.bills st;
                 BillOutput.rangeBills := BillOutput.rangeBills st;
                 BillOutput.message :=
                   Some (BillOutput.mkMessage error
                           BillOutput.RangeLoadFailed) |}),
         None)).
Proof.
  intros nothing. split; [|split].
  - destruct (@loadRangeBills_while_run _ _ s endYear endMonth
                (BillOutput.iterations endYear startYear startMonth)
                startYear startMonth [] (le_n _))
      as [loaded [Hrun Hloaded]].
    exists loaded. split; [|exact Hloaded].
    unfold BillOutput.loadRangeBills, try_catch, bind.
    rewrite Hrun. cbn [app].
    destruct loaded; reflexivity.
  - intros Hempty.
    unfold BillOutput.loadRangeBills, try_catch, bind.
    assert (Hcond : (startYear <? endYear)%Z
                    || ((startYear =? endYear)%Z
                        && (startMonth <=? endMonth)%Z) = false).
    { apply not_true_is_false. intros Hin.
      now apply not_after_spec in Hin. }
    destruct (BillOutput.iterations endYear startYear startMonth);
      cbn [BillOutput.loadRangeBills_while]; rewrite Hcond; reflexivity.
  - intros Hin.
    unfold BillOutput.loadRangeBills, try_catch, bind.
    apply not_after_spec in Hin as Hcond.
    destruct (BillOutput.iterations endYear startYear startMonth)
      as [|fuel] eqn:Hfuel.
    + exfalso. unfold BillOutput.iterations in Hfuel.
      unfold not_after in Hin. lia.
    + cbn [BillOutput.loadRangeBills_while]. rewrite Hcond. reflexivity.
Qed.

Lemma months_of_a_range_witness :
  exists st',
    fst (BillOutput.loadRangeBills 2024 3 2024 2
           (BillOutput.mkState [] [] None) (None : Database float))
    = Normal (Some st')
    /\ BillOutput.rangeBills st' = [].
Proof.
  destruct (@months_of_a_range_are_loaded float _ Sample.sample_store
              2024 3 2024 2 (BillOutput.mkState [] [] None))
    as [_ [Hempty _]].
  eexists. rewrite Hempty.
  - split; reflexivity.
  - unfold not_after. lia.
Defined.

(** ** What the writers of the database keep *)



(** ** The sample data *)

(** [insertSampleData] returns [false] on a database that is not
    initialised and [true] on an initialised one, where it replaces the
    readings of 601A and 601B for January and February 2024 by the sample
    readings, which become the last four rows, and leaves the other
    readings, the units and the bills as they were; loading the sample
    data a second time changes nothing. *)
Theorem sample_data_replaces_its_four_readings (s : SqlDatabase float) :
  let sample := SampleData.januaryReadings ++ SampleData.februaryReadings in
  SampleData.insertSampleData None = (Normal false, None)
  /\ exists s',
       SampleData.insertSampleData (Some s) = (Normal true, Some s')
       /\ meter_readings s'
          = filter (kept reading_conflict sample) (meter_readings s)
            ++ sample
       /\ units s' = units s
       /\ monthly_bills s' = monthly_bills s
       /\ unit_bills s' = unit_bills s
       /\ SampleData.insertSampleData (Some s') = (Normal true, Some s').
Proof.
  intros sample. split; [reflexivity|].
  rewrite insertSampleData_run. fold sample.
  eexists. split; [reflexivity|].
  cbn [meter_readings units monthly_bills unit_bills with_readings].
  assert (Hdistinct : upsert_all reading_conflict sample [] = sample)
    by reflexivity.
  split; [now rewrite upsert_all_table, Hdistinct|].
  split; [reflexivity|]. split; [reflexivity|]. split; [reflexivity|].
  rewrite insertSampleData_run. fold sample.
  cbn [meter_readings units monthly_bills unit_bills with_readings].
  unfold with_readings. cbn [units monthly_bills unit_bills].
  f_equal. f_equal. f_equal.
  apply upsert_all_twice. intros r. unfold reading_conflict.
  now rewrite String.eqb_refl, !Z.eqb_refl.
Qed.

(** ** No bill is negative *)

(** For finite totals that are not negative, units whose areas are finite
    and positive, and readings that are finite and not negative, the
    [total_cost] of every bill is at least 0. *)
Theorem total_cost_is_not_negative
    (s : SqlDatabase float) (year month : Z)
    (totalElectricityCost totalWaterCost totalManagementCost : float) :
  is_finite totalElectricityCost = true ->
  (0 <=? totalElectricityCost)%float = true ->
  is_finite totalWaterCost = true ->
  (0 <=? totalWaterCost)%float = true ->
  is_finite totalManagementCost = true ->
  (0 <=? totalManagementCost)%float = true ->
  (forall u, In u (units s) ->
     is_finite (Unit.area u) = true /\ (0 <? Unit.area u)%float = true) ->
  (forall r, In r (meter_readings s) ->
     is_finite (MeterReading.electricity_reading r) = true
     /\ (0 <=? MeterReading.electricity_reading r)%float = true
     /\ is_finite (MeterReading.water_reading r) = true
     /\ (0 <=? MeterReading.water_reading r)%float = true) ->
  exists bills s',
    calculateAndSaveBills year month
      totalElectricityCost totalWaterCost totalManagementCost (Some s)
    = (Normal bills, Some s')
    /\ forall b, In b bills -> (0 <=? UnitBill.total_cost b)%float = true.
Proof.
  intros HfinE HE HfinW HW HfinG HG Hareas Hreadings.
  rewrite calculateAndSaveBills_run. do 2 eexists.
  split; [reflexivity|].
  intros b Hb. unfold bills_of in Hb. apply in_map_iff in Hb.
  destruct Hb as [uc [<- Huc]].
  apply Binary64Bounds.rounded_sum_nonneg.
  - apply (Binary64Bounds.share_finite_nonneg
             (map (electricityUsage_of (meter_readings s) year month)
                (billed_in s year month))).
    + intros x. now apply electricity_usages_finite.
    + exact (in_map (electricityUsage_of (meter_readings s) year month)
               _ uc Huc).
    + now apply Binary64Order.finite_nonneg_intro.
  - apply (Binary64Bounds.share_finite_nonneg
             (map (waterUsage_of (meter_readings s) year month)
                (billed_in s year month))).
    + intros x. now apply water_usages_finite.
    + exact (in_map (waterUsage_of (meter_readings s) year month)
               _ uc Huc).
    + now apply Binary64Order.finite_nonneg_intro.
  - apply billed_In in Huc. destruct Huc as [Huc _].
    apply (Binary64Bounds.area_share_finite_nonneg
             (map (@Unit.area float) (registeredUnits s))).
    + intros a Ha. apply in_map_iff in Ha. destruct Ha as [u [<- Hu]].
      apply registeredUnits_In in Hu. destruct (Hareas u Hu).
      now apply Binary64Order.positive_finite_intro.
    + now apply in_map.
    + now apply Binary64Order.finite_nonneg_intro.
Qed.

Lemma total_cost_is_not_negative_witness :
  exists bills s',
    calculateAndSaveBills 2024 2 47440%float 17440%float 223630%float
      (Some Sample.sample_store)
    = (Normal bills, Some s')
    /\ forall b, In b bills -> (0 <=? UnitBill.total_cost b)%float = true.
Proof.
  apply (@total_cost_is_not_negative
           Sample.sample_store 2024 2 47440%float 17440%float 223630%float);
    try (vm_compute; reflexivity).
  - intros u [<-|[<-|[]]]; split; vm_compute; reflexivity.
  - intros r Hr. cbn in Hr.
    repeat (destruct Hr as [<-|Hr];
            [repeat split; vm_compute; reflexivity|]).
    contradiction.
Defined.

(** ** The order of the registry *)

